(** * AiPy: the numerical core of the photometry analysis tool

    A shallow embedding of the signal-processing pipeline
    ([signal_processing.py], [gpu_processing.py]), of the event metrics
    ([analysis/peak_analysis.py]) and of the peri-event and correlation
    analyses of [gui/main_window.py], followed by the properties the
    specification states about them.

    Numbers.  A float64 sample is idealised as an exact rational ([Q]); the
    only non-finite values are those that come in with acquired data
    ([float64], constructor [NonFinite]), which the code replaces by zero
    before any arithmetic.  The correlation analyses take square roots and
    are modelled over the reals ([R]).  NumPy arrays are lists; an exception
    is a [None] result; NumPy and SciPy routines whose numerics are not the
    repository's own (filter design, least squares) are the fields of the
    [SciPy] interface. *)

From Stdlib Require Import List ZArith QArith Qabs Qround Qminmax Bool Lia Psatz.
From Stdlib Require Import Sorted.
From Stdlib Require Import Reals.
From Stdlib Require Import Strings.Byte.
Import ListNotations.

(* ================================================================== *)
(** * Part I: the embedding *)
(* ================================================================== *)

(** ** NumPy array operations used by the code *)

Module Numpy.
Local Open Scope Q_scope.

(** A float64 as read from a recording: a finite value, or nan/inf. *)
Inductive float64 : Type :=
| Finite (q : Q)
| NonFinite.

Definition isfinite (x : float64) : bool :=
  match x with Finite _ => true | NonFinite => false end.

(** [np.where(np.isfinite(data), data, 0.0)] *)
Definition nan_to_zero (data : list float64) : list Q :=
  map (fun x => match x with Finite q => q | NonFinite => 0 end) data.

(** [np.all(np.isfinite(data))] *)
Definition all_finite (data : list float64) : bool := forallb isfinite data.

Definition Qltb (x y : Q) : bool := negb (Qle_bool y x).

(** Python's builtin [max(a, b)] and [min(a, b)] on two numbers: the first
    argument unless the second is strictly better. *)
Definition py_max (a b : Q) : Q := if Qltb a b then b else a.
Definition py_min (a b : Q) : Q := if Qltb b a then b else a.

(** [int(x)]: truncation toward zero. *)
Definition py_int (x : Q) : Z := Z.quot (Qnum x) (Zpos (Qden x)).

Definition sum (xs : list Q) : Q := fold_right Qplus 0 xs.

Definition of_nat (n : nat) : Q := inject_Z (Z.of_nat n).

Definition mean (xs : list Q) : Q := sum xs / of_nat (length xs).

(** Population variance, the square of [np.std]. *)
Definition var (xs : list Q) : Q :=
  let m := mean xs in mean (map (fun x => (x - m) * (x - m)) xs).

(** [np.std(xs) < t] for a positive threshold [t]: the standard deviation is
    the non-negative root of [var], so the test is [var xs < t * t]. *)
Definition std_below (xs : list Q) (t : Q) : bool := Qltb (var xs) (t * t).

Fixpoint insert (x : Q) (l : list Q) : list Q :=
  match l with
  | [] => [x]
  | y :: r => if Qle_bool x y then x :: l else y :: insert x r
  end.

(** [np.sort] *)
Definition sort (l : list Q) : list Q := fold_right insert [] l.

(** [np.median]: the middle element of the sorted array, or the mean of the
    two middle elements. *)
Definition median (xs : list Q) : Q :=
  let s := sort xs in
  let n := length xs in
  if Nat.even n then (nth (n / 2 - 1) s 0 + nth (n / 2) s 0) / 2
  else nth (n / 2) s 0.

(** [np.percentile(xs, q)], linear interpolation between closest ranks.  On an
    empty array NumPy has no value to give ([None]). *)
Definition percentile (xs : list Q) (q : Q) : option Q :=
  match xs with
  | [] => None
  | _ :: _ =>
      let s := sort xs in
      let n := length xs in
      let virtual_index := of_nat (n - 1) * (q / 100) in
      let previous := Z.to_nat (Qfloor virtual_index) in
      let next := Nat.min (previous + 1) (n - 1) in
      let gamma := virtual_index - inject_Z (Qfloor virtual_index) in
      Some (nth previous s 0 + (nth next s 0 - nth previous s 0) * gamma)
  end.

(** [np.linspace(start, stop, num)] *)
Definition linspace (start stop : Q) (num : nat) : list Q :=
  map (fun i => start + of_nat i * ((stop - start) / of_nat (num - 1)))
      (seq 0 num).

(** [numpy.polynomial.polynomial.polyval(x, c)]: c0 + c1 x + c2 x^2 + ... *)
Definition polyval1 (c : list Q) (x : Q) : Q :=
  fold_right (fun ci acc => ci + x * acc) 0 c.

Definition polyval (xs : list Q) (c : list Q) : list Q := map (polyval1 c) xs.

(** [np.zeros_like] *)
Definition zeros_like {A} (xs : list A) : list Q := map (fun _ => 0) xs.
Definition zeros_like_bool {A} (xs : list A) : list bool := map (fun _ => false) xs.

Fixpoint zip_with {A B C} (f : A -> B -> C) (a : list A) (b : list B) : list C :=
  match a, b with
  | x :: a', y :: b' => f x y :: zip_with f a' b'
  | _, _ => []
  end.

(** An elementwise operation on two one-dimensional arrays, with NumPy's
    broadcasting: equal lengths, or one operand of length one; anything else
    raises ValueError. *)
Definition broadcast (f : Q -> Q -> Q) (a b : list Q) : option (list Q) :=
  if Nat.eqb (length a) (length b) then Some (zip_with f a b)
  else match a, b with
       | [x], _ => Some (map (fun y => f x y) b)
       | _, [y] => Some (map (fun x => f x y) a)
       | _, _ => None
       end.

(** The slice [x[::k]] for a stride [k >= 1]: elements 0, k, 2k, ... *)
Fixpoint stride_from {A} (k skip : nat) (l : list A) : list A :=
  match l with
  | [] => []
  | x :: r =>
      match skip with
      | O => x :: stride_from k (k - 1) r
      | S s => stride_from k s r
      end
  end.

Definition stride {A} (k : nat) (l : list A) : list A := stride_from k 0 l.

(** [np.where(mask)[0]]: the positions holding [true]. *)
Fixpoint where_from (i : nat) (mask : list bool) : list nat :=
  match mask with
  | [] => []
  | b :: r => if b then i :: where_from (S i) r else where_from (S i) r
  end.

Definition where_ (mask : list bool) : list nat := where_from 0 mask.

(** [np.any(mask)] *)
Definition any (mask : list bool) : bool := existsb (fun b => b) mask.

(** Indexing with an array of (non-negative) positions, [x[idx]]; IndexError
    when a position is out of bounds. *)
Fixpoint take {A} (x : list A) (idx : list nat) : option (list A) :=
  match idx with
  | [] => Some []
  | i :: r =>
      match nth_error x i, take x r with
      | Some v, Some vs => Some (v :: vs)
      | _, _ => None
      end
  end.

Fixpoint set_nth {A} (x : list A) (i : nat) (v : A) : list A :=
  match x, i with
  | [], _ => []
  | _ :: r, O => v :: r
  | y :: r, S j => y :: set_nth r j v
  end.

(** The assignment [x[idx] = values] with as many values as positions;
    IndexError when a position is out of bounds, ValueError when the shapes
    differ. *)
Fixpoint assign_at {A} (x : list A) (idx : list nat) (values : list A)
  : option (list A) :=
  match idx, values with
  | [], [] => Some x
  | i :: idx', v :: values' =>
      if Nat.ltb i (length x) then assign_at (set_nth x i v) idx' values'
      else None
  | _, _ => None
  end.

(** [x[i]] for an integer [i], counted from the end when negative;
    IndexError out of bounds. *)
Definition getitem {A} (x : list A) (i : Z) : option A :=
  let n := Z.of_nat (length x) in
  if (0 <=? i)%Z && (i <? n)%Z then nth_error x (Z.to_nat i)
  else if (- n <=? i)%Z && (i <? 0)%Z then nth_error x (Z.to_nat (n + i))
  else None.

(** Where a slice bound falls in an array of length [n]. *)
Definition slice_bound (n i : Z) : nat :=
  Z.to_nat (if (i <? 0)%Z then Z.max (i + n) 0 else Z.min i n).

(** [x[start:stop]] *)
Definition slice {A} (x : list A) (start stop : Z) : list A :=
  let n := Z.of_nat (length x) in
  let a := slice_bound n start in
  let b := slice_bound n stop in
  firstn (b - a) (skipn a x).

End Numpy.

(** ** signal_processing.py and gpu_processing.py *)

Module SignalProcessing.
Import Numpy.
Local Open Scope Q_scope.

Inductive btype : Type := low | high | bandpass | bandstop.

(** The [cutoff] argument: one frequency, or a list, tuple or array. *)
Inductive cutoff_t : Type :=
| Scalar (c : Q)
| Sequence (cs : list Q).

(** The SciPy and NumPy routines the code calls for its numerics.  [None] is
    a raised exception. *)
Class SciPy : Type := {
  sos : Type;
  (** [scipy.signal.butter(order, Wn, btype=, analog=False, output='sos')] *)
  butter : Z -> cutoff_t -> btype -> option sos;
  (** [scipy.signal.sosfiltfilt(sos, x, padlen=)]; no [padlen]: the default *)
  sosfiltfilt : sos -> list Q -> option Z -> option (list Q);
  (** [scipy.stats.linregress(x, y)]: slope and intercept *)
  linregress : list Q -> list Q -> option (Q * Q);
  (** [numpy.polynomial.polynomial.polyfit(x, y, deg)] *)
  polyfit : list Q -> list Q -> Z -> option (list Q);
  (** [scipy.interpolate.interp1d(x, y, kind='linear', bounds_error=False,
      fill_value='extrapolate')] *)
  interp1d : list Q -> list Q -> option (Q -> Q)
}.

(** SciPy's zero-phase filter returns as many samples as it is given. *)
Class SciPyLaws (lib : SciPy) : Prop := {
  sosfiltfilt_length :
    forall (s : sos) (x : list Q) (p : option Z) (y : list Q),
      sosfiltfilt s x p = Some y -> length y = length x
}.

(** What the process finds when it starts: whether [gpu_processing] could be
    imported, whether its accelerator found a device, and how many nested
    calls the interpreter allows below a call of [butter_filter]. *)
Record Runtime : Type := {
  GPU_AVAILABLE : bool;
  gpu_available : bool;
  recursion_limit : nat
}.

Section Filter.
Context {lib : SciPy} (rt : Runtime).

Definition cutoff_invalid (cutoff : cutoff_t) (fs : Q) : bool :=
  match cutoff with
  | Sequence cs =>
      existsb (fun c => Qle_bool c 0) cs || existsb (fun c => Qle_bool (fs / 2) c) cs
  | Scalar c => Qle_bool c 0 || Qle_bool (fs / 2) c
  end.

Definition normalize (cutoff : cutoff_t) (nyq : Q) : cutoff_t :=
  match cutoff with
  | Scalar c => Scalar (c / nyq)
  | Sequence cs => Sequence (map (fun c => c / nyq) cs)
  end.

(** [np.min(cutoff)], or the cutoff itself; [np.min] raises on no element. *)
Definition min_cutoff (cutoff : cutoff_t) : option Q :=
  match cutoff with
  | Scalar c => Some c
  | Sequence [] => None
  | Sequence (c :: cs) => Some (fold_left py_min cs c)
  end.

Definition min_length (order : Z) : Z := Z.max (order * 6) 9.

Definition padlen (n : nat) (fs mc : Q) : Z :=
  if Qltb 0 mc
  then Z.min (Z.of_nat n - 1) (Z.max 1 (py_int (3 * fs / mc)))
  else 0%Z.

(** [data_size_mb > 10], with [data.nbytes] eight bytes a sample. *)
Definition over_10_mb (n : nat) : bool :=
  Z.ltb (10 * (1024 * 1024)) (8 * Z.of_nat n).

(** The body of [gpu_butter_filter]; [call_butter_filter] is its call back
    into [butter_filter], [None] when that call cannot be made. *)
Definition gpu_butter_filter_body
    (call_butter_filter :
       list float64 -> cutoff_t -> Q -> btype -> Z -> option (list Q))
    (data : list Q) (cutoff : cutoff_t) (fs : Q) (bt : btype) (order : Z)
  : option (list Q) :=
  if negb (gpu_available rt)
  then call_butter_filter (map Finite data) cutoff fs bt order
  else
    let nyq := (1 # 2) * fs in
    let normal_cutoff := normalize cutoff nyq in
    match butter order normal_cutoff bt with
    | Some s =>
        match sosfiltfilt s data None with
        | Some filtered_data => Some filtered_data
        | None => call_butter_filter (map Finite data) cutoff fs bt order
        end
    | None => call_butter_filter (map Finite data) cutoff fs bt order
    end.

(** The body of [butter_filter]; [call_gpu] is its call of
    [gpu_butter_filter], inside a try block, [None] when the chain of calls
    below it ran into the interpreter's limit.  The frame that catches that
    RecursionError is within a call of the limit itself: [butter], which
    calls further routines of SciPy, raises it again, and the handler of the
    filter design returns the data.  The routines return rationals, so the
    final test of the filtered trace for nan and inf always passes. *)
Definition butter_filter_body
    (call_gpu : list Q -> cutoff_t -> Q -> btype -> Z -> option (list Q))
    (raw : list float64) (cutoff : cutoff_t) (fs : Q) (bt : btype) (order : Z)
  : list Q :=
  match raw with
  | [] => []
  | _ :: _ =>
      let data := nan_to_zero raw in
      if cutoff_invalid cutoff fs then data
      else if Z.ltb (Z.of_nat (length data)) (min_length order) then data
      else
        let cpu :=
          let nyq := (1 # 2) * fs in
          let normal_cutoff := normalize cutoff nyq in
          match butter order normal_cutoff bt with
          | None => data
          | Some s =>
              match min_cutoff cutoff with
              | None => data
              | Some mc =>
                  match sosfiltfilt s data (Some (padlen (length data) fs mc)) with
                  | None => data
                  | Some filtered_data => filtered_data
                  end
              end
          end in
        if GPU_AVAILABLE rt && over_10_mb (length data)
        then match call_gpu data cutoff fs bt order with
             | Some filtered_data => filtered_data
             | None => data
             end
        else cpu
  end.

(** [butter_filter] with [frames] nested calls still allowed below it.  The
    two functions call each other (without a device, or when the filter on
    the device path raises, [gpu_butter_filter] calls [butter_filter] with
    the arguments it was given); a call that would exceed the interpreter's
    limit raises RecursionError in the caller. *)
Fixpoint butter_filter_depth (frames : nat)
    (raw : list float64) (cutoff : cutoff_t) (fs : Q) (bt : btype) (order : Z)
  : list Q :=
  butter_filter_body
    (fun d c f b o =>
       match frames with
       | O => None
       | S n =>
           gpu_butter_filter_body
             (fun d' c' f' b' o' =>
                match n with
                | O => None
                | S m => Some (butter_filter_depth m d' c' f' b' o')
                end)
             d c f b o
       end)
    raw cutoff fs bt order.

Definition butter_filter (data : list float64) (cutoff : cutoff_t) (fs : Q)
    (bt : btype) (order : Z) (zero_phase : bool) : list Q :=
  butter_filter_depth (recursion_limit rt) data cutoff fs bt order.

End Filter.

(** *** Bleaching correction and artifact handling *)

Section Stages.
Context {lib : SciPy} (rt : Runtime).

(** [fit_bleaching_correction(signal, control)]; [linregress] may raise. *)
Definition fit_bleaching_correction (signal : list Q) (control : option (list Q))
  : option (list Q) :=
  match control with
  | None => Some (zeros_like signal)
  | Some control =>
      if (Nat.eqb (length control) 0 || Nat.eqb (length signal) 0)%bool
      then Some (zeros_like signal)
      else if (std_below control 1e-9 || std_below signal 1e-9)%bool
      then
        let scale_factor :=
          mean signal / (if Qltb 1e-9 (mean control) then mean control else 1) in
        Some (map (fun c => c * scale_factor) control)
      else
        match linregress control signal with
        | Some (slope, intercept) =>
            Some (map (fun c => slope * c + intercept) control)
        | None => None
        end
  end.

Definition mad_to_std : Q := 1.4826.

(** [detect_artifacts(control_signal, threshold)] on an array. *)
Definition detect_artifacts (control_signal : list Q) (threshold : Q) : list bool :=
  if Nat.ltb (length control_signal) 2 then zeros_like_bool control_signal
  else
    let median_val := median control_signal in
    let mad := median (map (fun x => Qabs (x - median_val)) control_signal) in
    map (fun x => Qltb (threshold * mad * mad_to_std) (Qabs (x - median_val)))
        control_signal.

Definition bind {A B} (x : option A) (f : A -> option B) : option B :=
  match x with Some a => f a | None => None end.

Local Notation "x <- e ;; k" := (bind e (fun x => k))
  (at level 61, e at next level, right associativity).

(** [advanced_denoise_signal(signal, time, artifact_mask, control_signal,
    aggressive_mode)]; [None] when an exception leaves the function. *)
Definition advanced_denoise_signal (signal time : list Q) (artifact_mask : list bool)
    (control_signal : option (list Q)) (aggressive_mode : bool)
  : option (list Q) :=
  if negb (any artifact_mask) then Some signal
  else
    let valid_indices := where_ (map negb artifact_mask) in
    if Nat.ltb (length valid_indices) 2 then Some signal
    else
      time_valid <- take time valid_indices ;;
      signal_valid <- take signal valid_indices ;;
      interp_func <- interp1d time_valid signal_valid ;;
      let artifact_indices := where_ artifact_mask in
      let simple_interpolation :=
        time_artifact <- take time artifact_indices ;;
        assign_at signal artifact_indices (map interp_func time_artifact) in
      match control_signal with
      | Some control =>
          if (aggressive_mode && Nat.ltb 10 (length valid_indices))%bool
          then
            let blended :=
              control_valid <- take control valid_indices ;;
              signal_valid' <- take signal valid_indices ;;
              fit <- linregress control_valid signal_valid' ;;
              control_artifact <- take control artifact_indices ;;
              let predicted_signal :=
                map (fun c => fst fit * c + snd fit) control_artifact in
              time_artifact <- take time artifact_indices ;;
              let interp_values := map interp_func time_artifact in
              values <- broadcast (fun p i => 0.7 * p + 0.3 * i)
                                  predicted_signal interp_values ;;
              assign_at signal artifact_indices values in
            match blended with
            | Some denoised_signal => Some denoised_signal
            | None => simple_interpolation
            end
          else simple_interpolation
      | None => simple_interpolation
      end.

(** *** The pipeline *)

(** The [filter_type] string; any other string selects no filter. *)
Inductive filter_type : Type :=
| Lowpass | Highpass | Bandpass | Bandstop | Unrecognised.

(** The keyword arguments of [process_data_pipeline]. *)
Record config : Type := {
  low_cutoff : Q;
  high_cutoff : Q;
  drift_correction : bool;
  drift_degree : Z;
  downsample_factor : Z;
  edge_protection : bool;
  filter_kind : filter_type;
  filter_order : Z;
  zero_phase : bool;
  filter_raw_signals : bool
}.

Definition default_config : config := {|
  low_cutoff := 0.001; high_cutoff := 5; drift_correction := true;
  drift_degree := 2; downsample_factor := 1; edge_protection := true;
  filter_kind := Bandpass; filter_order := 2; zero_phase := true;
  filter_raw_signals := true |}.

(** The six returned arrays. *)
Record arrays : Type := {
  time_ : list Q;
  dff : list Q;
  raw1 : list Q;
  raw2 : option (list Q);
  drift : option (list Q);
  artifact_mask : list bool
}.

(** The input checks at the head of the pipeline: [true] rejects the call. *)
Definition rejected (signal_raw : option (list float64)) (fs : Q) (cfg : config)
  : bool :=
  match signal_raw with
  | None => true
  | Some [] => true
  | Some (_ :: _) =>
      Qle_bool fs 0 || Qle_bool (high_cutoff cfg) (low_cutoff cfg)
  end.

(** The filtering stage.  [butter_filter] does not raise, so the stage's
    handler for a failed filter never runs. *)
Definition filtering (cfg : config) (fs : Q)
    (processed_signal : list Q) (processed_control : option (list Q))
  : list Q * option (list Q) :=
  let run cutoff bt x :=
    butter_filter rt (map Finite x) cutoff fs bt (filter_order cfg) (zero_phase cfg) in
  let both cutoff bt :=
    (run cutoff bt processed_signal, option_map (run cutoff bt) processed_control) in
  match filter_kind cfg with
  | Lowpass => both (Scalar (high_cutoff cfg)) low
  | Highpass => both (Scalar (low_cutoff cfg)) high
  | Bandpass => both (Sequence [low_cutoff cfg; high_cutoff cfg]) bandpass
  | Bandstop => both (Sequence [low_cutoff cfg; high_cutoff cfg]) bandstop
  | Unrecognised => (processed_signal, processed_control)
  end.

Definition motion_correction (processed_signal : list Q)
    (processed_control : option (list Q)) : list Q :=
  match processed_control with
  | Some control =>
      match fit_bleaching_correction processed_signal (Some control) with
      | Some fit =>
          match broadcast Qminus processed_signal fit with
          | Some motion_corrected => motion_corrected
          | None => processed_signal
          end
      | None => processed_signal
      end
  | None => processed_signal
  end.

(** The detrended signal and the drift curve. *)
Definition drift_removal (cfg : config) (motion_corrected : list Q)
  : list Q * option (list Q) :=
  if drift_correction cfg then
    let time_norm := linspace 0 1 (length motion_corrected) in
    match polyfit time_norm motion_corrected (drift_degree cfg) with
    | Some coeffs =>
        let drift_curve := polyval time_norm coeffs in
        match broadcast Qminus motion_corrected drift_curve with
        | Some detrended_signal => (detrended_signal, Some drift_curve)
        | None => (motion_corrected, None)
        end
    | None => (motion_corrected, None)
    end
  else (motion_corrected, None).

(** The dF/F stage.  On an empty trace [np.percentile] gives no baseline and
    the result is the empty array whichever way NumPy reports it. *)
Definition dff_of (detrended_signal : list Q) : list Q :=
  match percentile detrended_signal 10 with
  | Some p =>
      let f0 := py_max (Qabs p) 1e-9 in
      map (fun x => (x - f0) / f0 * 100) detrended_signal
  | None => zeros_like detrended_signal
  end.

(** Everything up to the downsampling: the full-length arrays. *)
Definition full_length (time_raw : list Q) (signal_raw : list float64)
    (control_raw : option (list float64)) (fs : Q) (cfg : config) : arrays :=
  let processed_signal := nan_to_zero signal_raw in
  let processed_control := option_map nan_to_zero control_raw in
  let mask :=
    match processed_control with
    | Some control => detect_artifacts control 3
    | None => zeros_like_bool processed_signal
    end in
  let original_signal := processed_signal in
  let original_control := processed_control in
  let '(filtered_signal, filtered_control) :=
    filtering cfg fs processed_signal processed_control in
  let motion_corrected := motion_correction filtered_signal filtered_control in
  let '(detrended_signal, drift_curve) := drift_removal cfg motion_corrected in
  let dff_signal := dff_of detrended_signal in
  {| time_ := time_raw;
     dff := dff_signal;
     raw1 := if filter_raw_signals cfg then filtered_signal else original_signal;
     raw2 := if filter_raw_signals cfg then filtered_control else original_control;
     drift := drift_curve;
     artifact_mask := mask |}.

(** [int(max(1, downsample_factor))] *)
Definition factor_of (cfg : config) : nat := Z.to_nat (Z.max 1 (downsample_factor cfg)).

Definition downsample (factor : nat) (a : arrays) : arrays :=
  {| time_ := stride factor (time_ a);
     dff := stride factor (dff a);
     raw1 := stride factor (raw1 a);
     raw2 := option_map (stride factor) (raw2 a);
     drift := option_map (stride factor) (drift a);
     artifact_mask := stride factor (artifact_mask a) |}.

(** [process_data_pipeline]; [None] is the six-fold [None] result. *)
Definition process_data_pipeline (time_raw : list Q)
    (signal_raw control_raw : option (list float64)) (fs : Q) (cfg : config)
  : option arrays :=
  if rejected signal_raw fs cfg then None
  else
    match signal_raw with
    | Some signal =>
        Some (downsample (factor_of cfg)
                (full_length time_raw signal control_raw fs cfg))
    | None => None
    end.

End Stages.

End SignalProcessing.

(** ** An exact-arithmetic instance of the interface

    Small rational-arithmetic routines with the interface of the SciPy ones,
    to run the pipeline on concrete recordings. *)

Module Reference.
Import Numpy SignalProcessing.
Local Open Scope Q_scope.

(** Ordinary least squares of [y] on [x]: slope and intercept.  As SciPy, it
    refuses arrays of different lengths, fewer than two points, and [x] values
    that are all the same. *)
Definition least_squares_line (x y : list Q) : option (Q * Q) :=
  if negb (Nat.eqb (length x) (length y)) then None
  else if Nat.ltb (length x) 2 then None
  else
    let mx := mean x in
    let my := mean y in
    let sxx := sum (map (fun a => (a - mx) * (a - mx)) x) in
    let sxy := sum (zip_with (fun a b => (a - mx) * (b - my)) x y) in
    if Qeq_bool sxx 0 then None
    else Some (sxy / sxx, my - sxy / sxx * mx).

(** Least-squares polynomials of degree 0 and 1; other degrees are refused. *)
Definition low_degree_fit (x y : list Q) (deg : Z) : option (list Q) :=
  if Z.eqb deg 0 then Some [mean y]
  else if Z.eqb deg 1
  then match least_squares_line x y with
       | Some (slope, intercept) => Some [intercept; slope]
       | None => None
       end
  else None.

(** The piecewise-linear function through the points [(x_i, y_i)], [x]
    increasing, continued along its first and last segments. *)
Fixpoint interpolant (x y : list Q) (t : Q) : Q :=
  match x, y with
  | x0 :: ((x1 :: xr) as x'), y0 :: ((y1 :: _) as y') =>
      match xr with
      | [] => y0 + (y1 - y0) / (x1 - x0) * (t - x0)
      | _ :: _ =>
          if Qle_bool t x1 then y0 + (y1 - y0) / (x1 - x0) * (t - x0)
          else interpolant x' y' t
      end
  | _, y0 :: _ => y0
  | _, [] => 0
  end.

Definition linear_interpolation (x y : list Q) : option (Q -> Q) :=
  if Nat.eqb (length x) (length y) && negb (Nat.eqb (length x) 0)
  then Some (interpolant x y) else None.

(** A zero-phase filter that removes the mean of the trace: unit gain away
    from zero frequency, none at it. *)
Definition remove_mean (x : list Q) : list Q := map (fun v => v - mean x) x.

#[export] Instance exact : SciPy := {|
  sos := unit;
  butter := fun order _ _ => if Z.ltb 0 order then Some tt else None;
  sosfiltfilt := fun _ x _ => Some (remove_mean x);
  linregress := least_squares_line;
  polyfit := low_degree_fit;
  interp1d := linear_interpolation
|}.

(** A rational approximation of the square root: five Newton steps from 1. *)
Definition newton_sqrt (x : Q) : Q :=
  if Qle_bool x 0 then 0
  else Nat.iter 5 (fun y => Qred ((y + x / y) / 2)) 1.

(** A process without the accelerated backend. *)
Definition cpu_only : Runtime :=
  {| GPU_AVAILABLE := false; gpu_available := false; recursion_limit := 1000 |}.

End Reference.

(** ** Sample recordings *)

Module Samples.
Import Numpy SignalProcessing.
Local Open Scope Q_scope.

Definition five_times : list Q := [0; 0.01; 0.02; 0.03; 0.04].
Definition five_samples : list float64 :=
  [Finite 1; Finite 3; Finite 2; Finite 5; Finite 4].

(** The default configuration with a downsample factor of two. *)
Definition by_two : config := {|
  low_cutoff := 0.001; high_cutoff := 5; drift_correction := true;
  drift_degree := 2; downsample_factor := 2; edge_protection := true;
  filter_kind := Bandpass; filter_order := 2; zero_phase := true;
  filter_raw_signals := true |}.


(** Twelve samples of the constant 3. *)
Definition constant_trace : list float64 := repeat (Finite 3) 12.

End Samples.

(** ** analysis/peak_analysis.py *)

Module PeakAnalysis.
Import Numpy.
Local Open Scope Q_scope.

(** [idx.any()] on an array of integers: some element is not zero. *)
Definition any_nonzero (idx : list Z) : bool :=
  existsb (fun i => negb (Z.eqb i 0)) idx.

(** [idx[-1]] *)
Definition last_item (idx : list Z) : option Z :=
  match idx with [] => None | i :: r => Some (last r i) end.

(** [np.diff] *)
Definition diff (x : list Q) : list Q := zip_with (fun a b => b - a) x (tl x).

(** [scipy.integrate.trapezoid(y, x)]: the sum of
    [diff(x) * (y[1:] + y[:-1]) / 2]; ValueError when the shapes do not
    broadcast. *)
Definition trapezoid (y x : list Q) : option Q :=
  let d := diff x in
  let s := zip_with Qplus (tl y) (removelast y) in
  match broadcast Qmult d s with
  | Some products => Some (sum (map (fun v => v / 2) products))
  | None => None
  end.

(** The [metrics] dictionary: four lists, [None] for nan. *)
Record metrics : Type := {
  area : list (option Q);
  fwhm : list (option Q);
  rise_time : list (option Q);
  decay_time : list (option Q)
}.

Definition no_metrics : metrics :=
  {| area := []; fwhm := []; rise_time := []; decay_time := [] |}.

(** The handler: [for k in metrics: metrics[k].append(np.nan)]. *)
Definition append_nan (m : metrics) : metrics :=
  {| area := area m ++ [None]; fwhm := fwhm m ++ [None];
     rise_time := rise_time m ++ [None]; decay_time := decay_time m ++ [None] |}.

Definition append_fwhm (m : metrics) (v : Q) : metrics :=
  {| area := area m; fwhm := fwhm m ++ [Some v];
     rise_time := rise_time m; decay_time := decay_time m |}.

Definition append_rise_time (m : metrics) (v : Q) : metrics :=
  {| area := area m; fwhm := fwhm m;
     rise_time := rise_time m ++ [Some v]; decay_time := decay_time m |}.

Definition append_decay_time (m : metrics) (v : Q) : metrics :=
  {| area := area m; fwhm := fwhm m;
     rise_time := rise_time m; decay_time := decay_time m ++ [Some v] |}.

Definition append_area (m : metrics) (v : Q) : metrics :=
  {| area := area m ++ [Some v]; fwhm := fwhm m;
     rise_time := rise_time m; decay_time := decay_time m |}.

(** The positions of a slice of [signal] starting at [start] whose sample is
    at least [half_height], as indices into the whole array:
    [np.where(segment >= half_height)[0] + start]. *)
Definition at_or_above (half_height : Q) (segment : list Q) (start : Z) : list Z :=
  map (fun k => (Z.of_nat k + start)%Z)
      (where_ (map (fun s => Qle_bool half_height s) segment)).

(** One turn of the loop over the peaks: the try block, and the handler that
    appends nan to every list when ValueError or IndexError is raised. *)
Definition peak_step (valley_indices : list Z) (signal time : list Q)
    (m : metrics) (peak_idx : Z) : metrics :=
  let preceding_valleys := filter (fun v => (v <? peak_idx)%Z) valley_indices in
  let following_valleys := filter (fun v => (peak_idx <? v)%Z) valley_indices in
  if negb (any_nonzero preceding_valleys) || negb (any_nonzero following_valleys)
  then append_nan m
  else
    match last_item preceding_valleys, hd_error following_valleys with
    | Some pre_v_idx, Some post_v_idx =>
        match getitem signal pre_v_idx, getitem signal post_v_idx,
              getitem signal peak_idx with
        | Some pre_level, Some post_level, Some peak_height =>
            let base_level := py_min pre_level post_level in
            let half_height := base_level + (peak_height - base_level) / 2 in
            let rise_indices :=
              at_or_above half_height (slice signal pre_v_idx (peak_idx + 1)) pre_v_idx in
            let decay_indices :=
              at_or_above half_height (slice signal peak_idx (post_v_idx + 1)) peak_idx in
            if negb (any_nonzero rise_indices) || negb (any_nonzero decay_indices)
            then append_nan m
            else
              match hd_error rise_indices, last_item decay_indices with
              | Some rise_t_idx, Some decay_t_idx =>
                  match getitem time decay_t_idx, getitem time rise_t_idx with
                  | Some t_decay, Some t_rise =>
                      let m1 := append_fwhm m (t_decay - t_rise) in
                      match getitem time peak_idx with
                      | Some t_peak =>
                          let m2 := append_rise_time m1 (t_peak - t_rise) in
                          let m3 := append_decay_time m2 (t_decay - t_peak) in
                          let time_segment := slice time pre_v_idx (post_v_idx + 1) in
                          let signal_segment := slice signal pre_v_idx (post_v_idx + 1) in
                          match trapezoid (map (fun s => s - base_level) signal_segment)
                                          time_segment with
                          | Some a => append_area m3 a
                          | None => append_nan m3
                          end
                      | None => append_nan m1
                      end
                  | _, _ => append_nan m
                  end
              | _, _ => append_nan m
              end
        | _, _, _ => append_nan m
        end
    | _, _ => append_nan m
    end.

(** The valley indices the loop works with: those given, or the first and
    last sample when none is given or none is non-zero. *)
Definition effective_valleys (valley_data : option (list Z)) (signal : list Q)
  : list Z :=
  let ends := [0%Z; (Z.of_nat (length signal) - 1)%Z] in
  match valley_data with
  | Some valley_indices => if any_nonzero valley_indices then valley_indices else ends
  | None => ends
  end.

(** [calculate_peak_metrics(peak_data, valley_data, signal, time)]; a data
    argument is the ['indices'] array of the dictionary, [None] for a missing
    or empty dictionary. *)
Definition calculate_peak_metrics (peak_data valley_data : option (list Z))
    (signal time : list Q) : option metrics :=
  match peak_data with
  | None => None
  | Some peak_indices =>
      if negb (any_nonzero peak_indices) then None
      else
        Some (fold_left (peak_step (effective_valleys valley_data signal) signal time)
                        peak_indices no_metrics)
  end.

(** *** The crossings as the specification words them *)





End PeakAnalysis.

(** ** gui/main_window.py: the peri-event histogram *)

Module Psth.
Import Numpy.
Local Open Scope Q_scope.

(** [np.searchsorted(a, v)] on a sorted array: the number of elements
    below [v]. *)
Definition searchsorted (a : list Q) (v : Q) : nat :=
  length (filter (fun x => Qltb x v) a).

(** [np.min] and [np.max] of an array that is not empty. *)
Definition np_min (a : list Q) : Q :=
  match a with [] => 0 | x :: r => fold_left Qmin r x end.
Definition np_max (a : list Q) : Q :=
  match a with [] => 0 | x :: r => fold_left Qmax r x end.

(** [np.arange(start, stop, step)] for a positive step. *)
Definition arange (start stop step : Q) : list Q :=
  map (fun i => start + of_nat i * step)
      (seq 0 (Z.to_nat (Qceiling ((stop - start) / step)))).

(** One value of [np.interp] beyond the first sample point, [xp] increasing. *)
Fixpoint interp_from (xp fp : list Q) (x : Q) : Q :=
  match xp, fp with
  | x0 :: ((x1 :: _) as xp'), y0 :: ((y1 :: _) as fp') =>
      if Qltb x x1 then (y1 - y0) / (x1 - x0) * (x - x0) + y0
      else interp_from xp' fp' x
  | _, y0 :: _ => y0
  | _, [] => 0
  end.

(** [np.interp(x, xp, fp)]: linear between the sample points, the end values
    outside them; ValueError on no sample point or on different lengths. *)
Definition interp (x xp fp : list Q) : option (list Q) :=
  match xp, fp with
  | x0 :: _, y0 :: _ =>
      if Nat.eqb (length xp) (length fp)
      then Some (map (fun v => if Qle_bool v x0 then y0 else interp_from xp fp v) x)
      else None
  | _, _ => None
  end.

(** Column [j] of a matrix given by its rows. *)
Definition column (matrix : list (list Q)) (j : nat) : list Q :=
  map (fun row => nth j row 0) matrix.

Inductive message : Type :=
| not_positive          (* "Time windows and bin size must be positive values." *)
| no_processed_data     (* "No processed ... data available." *)
| no_events_detected    (* "No peaks detected ..." and its variants *)
| invalid_signal        (* "Invalid ... signal data." *)
| none_in_range         (* "No ... are within the valid time range." *)
| no_valid_events       (* "No valid events found for PSTH analysis." *)
| failed.               (* "Failed to generate PSTH: ..." *)

(** What is plotted. *)
Record psth : Type := {
  time_centers : list Q;
  psth_mean : list Q;
  psth_sem : list Q;
  valid_events : nat
}.

Inductive outcome : Type :=
| showerror (msg : message)
| showinfo (msg : message)
| plotted (result : psth).

Section Builder.
(** [np.sqrt], to the precision of the arithmetic. *)
Variable sqrt : Q -> Q.

(** The test applied to each event time. *)
Definition in_range (time_min time_max pre_time post_time : Q) (event_time : Q)
  : bool :=
  Qle_bool (time_min + pre_time) event_time && Qle_bool event_time (time_max - post_time).

(** The rows of [psth_matrix]: one per event that passes the loop's own
    tests; [None] when [np.interp] raises. *)
Fixpoint rows (time signal centers : list Q) (pre_time post_time : Q)
    (event_times : list Q) : option (list (list Q)) :=
  match event_times with
  | [] => Some []
  | event_time :: rest =>
      let start_idx := searchsorted time (event_time - pre_time) in
      let end_idx := searchsorted time (event_time + post_time) in
      if Nat.leb (length time) end_idx then rows time signal centers pre_time post_time rest
      else
        let event_time_rel :=
          map (fun t => t - event_time)
              (firstn (end_idx - start_idx) (skipn start_idx time)) in
        let event_signal := firstn (end_idx - start_idx) (skipn start_idx signal) in
        if Nat.ltb 1 (length event_time_rel)
        then
          match interp centers event_time_rel event_signal with
          | Some interp_signal =>
              match rows time signal centers pre_time post_time rest with
              | Some matrix => Some (interp_signal :: matrix)
              | None => None
              end
          | None => None
          end
        else rows time signal centers pre_time post_time rest
  end.

(** [generate_psth], from the parameter checks to the plotted curves;
    [signal] and [time] are the ['dff'] and ['time'] entries of the selected
    data, [event_times] the times of the selected events. *)
Definition generate_psth (pre_time post_time bin_size : Q)
    (time signal event_times : option (list Q)) : outcome :=
  if Qle_bool pre_time 0 || Qle_bool post_time 0 || Qle_bool bin_size 0
  then showerror not_positive
  else
    match signal with
    | None => showinfo no_processed_data
    | Some signal =>
        match event_times with
        | None | Some [] => showinfo no_events_detected
        | Some event_times =>
            match time with
            | None | Some [] => showerror invalid_signal
            | Some time =>
                match signal with
                | [] => showerror invalid_signal
                | _ :: _ =>
                    let time_min := np_min time in
                    let time_max := np_max time in
                    let valid :=
                      map (in_range time_min time_max pre_time post_time) event_times in
                    if negb (any valid) then showinfo none_in_range
                    else
                      let event_times :=
                        filter (in_range time_min time_max pre_time post_time)
                               event_times in
                      let time_bins := arange (- pre_time) (post_time + bin_size) bin_size in
                      let centers :=
                        map (fun b => b + bin_size / 2) (removelast time_bins) in
                      match rows time signal centers pre_time post_time event_times with
                      | None => showerror failed
                      | Some psth_matrix =>
                          let n := length psth_matrix in
                          if Nat.eqb n 0 then showinfo no_valid_events
                          else
                            let columns :=
                              map (column psth_matrix) (seq 0 (length centers)) in
                            plotted
                              {| time_centers := centers;
                                 psth_mean := map mean columns;
                                 psth_sem :=
                                   map (fun c => sqrt (var c) / sqrt (of_nat n)) columns;
                                 valid_events := n |}
                    end
                end
            end
        end
    end.

End Builder.


End Psth.

(** ** gui/main_window.py: the correlation analyses, over the reals *)

Module Correlation.
Local Open Scope R_scope.

(** The float64 arithmetic NumPy computes with, on finite values: each
    operation stands for the float64 it returns, whatever the rounding makes
    of the exact result. *)
Class Float64 : Type := {
  fadd : R -> R -> R;
  fsub : R -> R -> R;
  fmul : R -> R -> R;
  fdiv : R -> R -> R;
  fsqrt : R -> R;
  (** [np.add.reduce], the sum of an array *)
  fsum : list R -> R;
  (** the inner product of two arrays of one length *)
  fdot : list R -> list R -> R
}.

Definition sum (xs : list R) : R := fold_right Rplus 0 xs.

(** The sum of the products of corresponding elements. *)
Definition dot (a b : list R) : R := sum (Numpy.zip_with Rmult a b).

(** The operations without rounding. *)
Definition unrounded : Float64 := {|
  fadd := Rplus; fsub := Rminus; fmul := Rmult; fdiv := Rdiv; fsqrt := sqrt;
  fsum := sum; fdot := dot |}.

(** A float64 that need not be finite. *)
Inductive result : Type :=
| number (r : R)
| infinity (positive : bool)
| not_a_number.

(** Python's [max(a, b)] and [min(a, b)]. *)
Definition py_max (a b : R) : R := if Rlt_dec a b then b else a.
Definition py_min (a b : R) : R := if Rlt_dec b a then b else a.

(** [int(x)]: truncation toward zero. *)
Definition py_int (x : R) : Z :=
  if Rle_dec 0 x then Int_part x else (- Int_part (- x))%Z.

(** [np.abs] *)
Definition magnitude (x : result) : result :=
  match x with
  | number r => number (Rabs r)
  | infinity _ => infinity true
  | not_a_number => not_a_number
  end.

(** [a < b] on float64 values; false when either is nan. *)
Definition below (a b : result) : bool :=
  match a, b with
  | number x, number y => if Rlt_dec x y then true else false
  | number _, infinity positive => positive
  | infinity positive, number _ => negb positive
  | infinity p, infinity q => negb p && q
  | _, _ => false
  end.

(** [np.argmax] after the first element: the first nan wins, else the first
    largest. *)
Fixpoint argmax_from (xs : list result) (i best : nat) (best_value : result) : nat :=
  match xs with
  | [] => best
  | not_a_number :: _ => i
  | v :: r =>
      if below best_value v then argmax_from r (S i) i v
      else argmax_from r (S i) best best_value
  end.

(** [np.argmax]; ValueError on an empty array. *)
Definition argmax (xs : list result) : option nat :=
  match xs with
  | [] => None
  | not_a_number :: _ => Some 0%nat
  | v :: r => Some (argmax_from r 1 0 v)
  end.

(** A selected signal: its time axis and its values. *)
Definition trace : Type := (list R * list R)%type.

Inductive pearson_outcome : Type :=
| pearson_error
| pearson_reported (correlation : option R).

Inductive cross_outcome : Type :=
| cross_error
| cross_reported (peak_lag : R) (peak_corr : result).

Section Analyses.
Context {ops : Float64}.

(** [np.mean] *)
Definition mean (xs : list R) : R := fdiv (fsum xs) (INR (length xs)).

(** [np.linalg.norm]: the square root of the inner product. *)
Definition norm (a : list R) : R := fsqrt (fdot a a).

(** A float64 quotient: over a zero divisor nan for a zero dividend, else
    inf with the sign of the dividend. *)
Definition divide (a b : R) : result :=
  if Req_dec_T b 0
  then if Req_dec_T a 0 then not_a_number
       else infinity (if Rlt_dec 0 a then true else false)
  else number (fdiv a b).

(** The quotient of a float64 that need not be finite by a divisor [b >= 0]. *)
Definition divide_on (a : result) (b : R) : result :=
  match a with
  | number r => divide r b
  | infinity positive => infinity positive
  | not_a_number => not_a_number
  end.

(** [np.clip(c, -1, 1)]; [None] is nan. *)
Definition clip (c : result) : option R :=
  match c with
  | number r => Some (Rmin (Rmax r (-1)) 1)
  | infinity true => Some 1
  | infinity false => Some (-1)
  | not_a_number => None
  end.

(** [np.linspace(start, stop, num)]: the steps from [start], the last sample
    set to [stop]. *)
Definition linspace (start stop : R) (num : nat) : list R :=
  let div := (num - 1)%nat in
  let delta := fsub stop start in
  let y :=
    if Nat.ltb 0 div
    then
      let step := fdiv delta (INR div) in
      if Req_dec_T step 0
      then map (fun i => fadd (fmul (fdiv (INR i) (INR div)) delta) start) (seq 0 num)
      else map (fun i => fadd (fmul (INR i) step) start) (seq 0 num)
    else map (fun i => fadd (fmul (INR i) delta) start) (seq 0 num) in
  if Nat.ltb 1 num then removelast y ++ [stop] else y.

(** [np.interp] at one point at or after the first sample point: the sample
    itself at a sample point, the last sample from the last point on, else
    the line through the two neighbours. *)
Fixpoint interp_from (xp fp : list R) (x : R) : R :=
  match xp, fp with
  | x0 :: ((x1 :: _) as xp'), y0 :: ((y1 :: _) as fp') =>
      if Rlt_dec x x1
      then if Req_dec_T x x0 then y0
           else fadd (fmul (fdiv (fsub y1 y0) (fsub x1 x0)) (fsub x x0)) y0
      else interp_from xp' fp' x
  | _, y0 :: _ => y0
  | _, [] => 0
  end.

(** [np.interp(x, xp, fp)], [xp] increasing; ValueError on no sample point or
    on different lengths. *)
Definition interp (x xp fp : list R) : option (list R) :=
  match xp, fp with
  | x0 :: _, y0 :: _ =>
      if Nat.eqb (length xp) (length fp)
      then Some (map (fun v => if Rlt_dec v x0 then y0 else interp_from xp fp v) x)
      else None
  | _, _ => None
  end.

(** The rows of [np.cov] less their means. *)
Definition deviations (x : list R) : list R :=
  let avg := mean x in map (fun a => fsub a avg) x.

(** An entry of [np.cov] for rows of [n >= 2] samples: the inner product of
    the deviations, times [1 / (n - 1)]. *)
Definition cov_entry (dx dy : list R) (n : nat) : R :=
  fmul (fdot dx dy) (fdiv 1 (INR n - 1)).

(** [np.corrcoef(x, y)[0, 1]] for two arrays of one length: the covariance
    divided by one standard deviation, then by the other, then clipped to
    [-1, 1].  One sample leaves no degree of freedom: the covariances are
    nan. *)
Definition corrcoef (x y : list R) : option R :=
  let n := length x in
  if Nat.ltb n 2 then None
  else
    let dx := deviations x in
    let dy := deviations y in
    let stddev0 := fsqrt (cov_entry dx dx n) in
    let stddev1 := fsqrt (cov_entry dy dy n) in
    clip (divide_on (divide (cov_entry dx dy n) stddev0) stddev1).

(** [np.correlate(a, v, mode='full')] for two arrays of one length: entry
    [j] is the inner product of the parts of [a] and [v] that overlap at
    the lag [k = j - (len(v) - 1)]. *)
Definition correlate_full (a v : list R) : list R :=
  map (fun j =>
         let '(a', v') :=
           if Nat.ltb j (length v - 1)
           then (a, skipn (length v - 1 - j) v)
           else (skipn (j - (length v - 1)) a, v) in
         let m := Nat.min (length a') (length v') in
         fdot (firstn m a') (firstn m v'))
      (seq 0 (length a + length v - 1)).

(** Both signals on the common grid; [None] when an exception is raised. *)
Definition on_common_grid (t1 t2 : trace) : option (list R * list R * list R) :=
  let '(time1, signal1) := t1 in
  let '(time2, signal2) := t2 in
  match time1, time2 with
  | first1 :: _, first2 :: _ =>
      let common_time :=
        linspace (py_max first1 first2)
                 (py_min (last time1 0) (last time2 0))
                 (Nat.min (length time1) (length time2)) in
      match interp common_time time1 signal1, interp common_time time2 signal2 with
      | Some signal1_interp, Some signal2_interp =>
          Some (common_time, signal1_interp, signal2_interp)
      | _, _ => None
      end
  | _, _ => None
  end.

(** [calculate_pearson_correlation] on the two selected signals. *)
Definition calculate_pearson_correlation (selection1 selection2 : option trace)
  : pearson_outcome :=
  match selection1, selection2 with
  | Some t1, Some t2 =>
      match on_common_grid t1 t2 with
      | Some (_, signal1_interp, signal2_interp) =>
          pearson_reported (corrcoef signal1_interp signal2_interp)
      | None => pearson_error
      end
  | _, _ => pearson_error
  end.

(** An entry of [np.arange(lag_start - center, lag_end - center) * dt]; no
    steps times a finite [dt] is 0. *)
Definition lag_time (k : Z) (dt : R) : R :=
  if Z.eqb k 0 then 0 else fmul (IZR k) dt.

(** The lags and the correlations of the window
    [cross_corr[lag_start:lag_end]], once both signals are on the grid;
    [None] when an exception is raised. *)
Definition lag_window (common_time signal1_interp signal2_interp : list R)
    (max_lag : R) : option (list R * list result) :=
  let scale := fmul (norm signal1_interp) (norm signal2_interp) in
  let cross_corr :=
    map (fun c => divide c scale) (correlate_full signal1_interp signal2_interp) in
  match common_time with
  | c0 :: c1 :: _ =>
      let dt := fsub c1 c0 in
      if Req_dec_T dt 0 then None
      else
        let max_lag_samples := py_int (fdiv max_lag dt) in
        let center := (Z.of_nat (length cross_corr) / 2)%Z in
        let lag_start := Z.max 0 (center - max_lag_samples) in
        let lag_end :=
          Z.min (Z.of_nat (length cross_corr)) (center + max_lag_samples + 1) in
        let cross_corr_trimmed := Numpy.slice cross_corr lag_start lag_end in
        let lags :=
          map (fun i => lag_time (lag_start - center + Z.of_nat i) dt)
              (seq 0 (Z.to_nat ((lag_end - center) - (lag_start - center)))) in
        Some (lags, cross_corr_trimmed)
  | _ => None
  end.

(** The peak the analysis reports from the window. *)
Definition peak_of (window : option (list R * list result)) : cross_outcome :=
  match window with
  | Some (lags, cross_corr_trimmed) =>
      match argmax (map magnitude cross_corr_trimmed) with
      | Some peak_idx =>
          match nth_error lags peak_idx, nth_error cross_corr_trimmed peak_idx with
          | Some peak_lag, Some peak_corr => cross_reported peak_lag peak_corr
          | _, _ => cross_error
          end
      | None => cross_error
      end
  | None => cross_error
  end.

(** [calculate_cross_correlation] on the two selected signals. *)
Definition calculate_cross_correlation (selection1 selection2 : option trace)
    (max_lag : R) : cross_outcome :=
  match selection1, selection2 with
  | Some t1, Some t2 =>
      match on_common_grid t1 t2 with
      | Some (common_time, signal1_interp, signal2_interp) =>
          peak_of (lag_window common_time signal1_interp signal2_interp max_lag)
      | None => cross_error
      end
  | _, _ => cross_error
  end.

End Analyses.

End Correlation.

(** ** The vocabulary of the properties *)

Section PipelineVocabulary.
Import Numpy SignalProcessing.
Local Open Scope Q_scope.

Definition ceil_div (n k : nat) : nat := (n + k - 1) / k.

(** A cutoff outside the open interval from zero to the Nyquist frequency. *)
Definition outside_nyquist (cutoff : cutoff_t) (fs : Q) : Prop :=
  match cutoff with
  | Scalar c => c <= 0 \/ fs / 2 <= c
  | Sequence cs => Exists (fun c => c <= 0 \/ fs / 2 <= c) cs
  end.

(** The inputs the filter does not filter. *)
Definition degenerate (raw : list float64) (cutoff : cutoff_t) (fs : Q) (order : Z)
  : Prop :=
  raw = [] \/ (Z.of_nat (length raw) < min_length order)%Z \/ outside_nyquist cutoff fs.

(** The median absolute deviation of the reference channel. *)
Definition mad_of (control : list Q) : Q :=
  median (map (fun x => Qabs (x - median control)) control).

(** A decimated array against the full-length array it was taken from. *)
Definition aligned {A} (N k : nat) (full out : list A) : Prop :=
  length full = N /\
  length out = ceil_div N k /\
  forall i, (i < ceil_div N k)%nat ->
            nth_error out i = nth_error full (i * k) /\ nth_error out i <> None.

Definition aligned_opt {A} (N k : nat) (full out : option (list A)) : Prop :=
  match full, out with
  | Some f, Some o => aligned N k f o
  | None, None => True
  | _, _ => False
  end.

(** The normalisation as the specification words it: the 10th percentile F0
    is subtracted, and the difference is divided by max(|F0|, eps). *)
Definition dff_as_specified (detrended_signal : list Q) : option (list Q) :=
  match percentile detrended_signal 10 with
  | Some F0 =>
      Some (map (fun x => (x - F0) / Qmax (Qabs F0) 1e-9 * 100) detrended_signal)
  | None => None
  end.



(** The number of samples the mask leaves clean. *)
Definition unmasked (mask : list bool) : nat := length (filter negb mask).

Section WithLibrary.
Context {lib : SciPy} (rt : Runtime).

(** The accelerated path is the one taken. *)
Definition accelerated (raw : list float64) : Prop :=
  (GPU_AVAILABLE rt && over_10_mb (length raw))%bool = true.

(** Why a call of the filter gives its input back. *)
Definition not_filtered (raw : list float64) (cutoff : cutoff_t) (fs : Q)
    (bt : btype) (order : Z) : Prop :=
  raw = [] \/
  cutoff_invalid cutoff fs = true \/
  (Z.of_nat (length raw) < min_length order)%Z \/
  butter order (normalize cutoff ((1 # 2) * fs)) bt = None \/
  min_cutoff cutoff = None \/
  (exists s p, butter order (normalize cutoff ((1 # 2) * fs)) bt = Some s /\
               sosfiltfilt s (nan_to_zero raw) p = None) \/
  accelerated raw.

(** What a call of the filter can return: the sanitised input, or the output
    of SciPy's filter on the sanitised input. *)
Inductive filter_result (raw : list float64) (cutoff : cutoff_t) (fs : Q)
    (bt : btype) (order : Z) (out : list Q) : Prop :=
| returned_input :
    out = nan_to_zero raw -> not_filtered raw cutoff fs bt order ->
    filter_result raw cutoff fs bt order out
| returned_filtered (s : sos) (p : option Z) :
    butter order (normalize cutoff ((1 # 2) * fs)) bt = Some s ->
    sosfiltfilt s (nan_to_zero raw) p = Some out ->
    filter_result raw cutoff fs bt order out.

(** The detrended trace of the pipeline, the one its dF/F stage works on. *)
Definition detrended (signal_raw : list float64)
    (control_raw : option (list float64)) (fs : Q) (cfg : config) : list Q :=
  let '(filtered_signal, filtered_control) :=
    filtering rt cfg fs (nan_to_zero signal_raw) (option_map nan_to_zero control_raw) in
  fst (drift_removal cfg (motion_correction filtered_signal filtered_control)).

End WithLibrary.

End PipelineVocabulary.

Section PeakVocabulary.
Import Numpy PeakAnalysis.
Local Open Scope Q_scope.

(** Sample [i] of an array, for an index within it. *)
Definition sample (x : list Q) (i : Z) : Q := nth (Z.to_nat i) x 0.


(** The try block once the two enclosing valleys are chosen. *)
Definition enclosed_step (signal time : list Q) (m : metrics)
    (pre_v_idx post_v_idx peak_idx : Z) : metrics :=
  match getitem signal pre_v_idx, getitem signal post_v_idx,
        getitem signal peak_idx with
  | Some pre_level, Some post_level, Some peak_height =>
      let base_level := py_min pre_level post_level in
      let half_height := base_level + (peak_height - base_level) / 2 in
      let rise_indices :=
        at_or_above half_height (slice signal pre_v_idx (peak_idx + 1)) pre_v_idx in
      let decay_indices :=
        at_or_above half_height (slice signal peak_idx (post_v_idx + 1)) peak_idx in
      if negb (any_nonzero rise_indices) || negb (any_nonzero decay_indices)
      then append_nan m
      else
        match hd_error rise_indices, last_item decay_indices with
        | Some rise_t_idx, Some decay_t_idx =>
            match getitem time decay_t_idx, getitem time rise_t_idx with
            | Some t_decay, Some t_rise =>
                let m1 := append_fwhm m (t_decay - t_rise) in
                match getitem time peak_idx with
                | Some t_peak =>
                    let m2 := append_rise_time m1 (t_peak - t_rise) in
                    let m3 := append_decay_time m2 (t_decay - t_peak) in
                    let time_segment := slice time pre_v_idx (post_v_idx + 1) in
                    let signal_segment := slice signal pre_v_idx (post_v_idx + 1) in
                    match trapezoid (map (fun s => s - base_level) signal_segment)
                                    time_segment with
                    | Some a => append_area m3 a
                    | None => append_nan m3
                    end
                | None => append_nan m1
                end
            | _, _ => append_nan m
            end
        | _, _ => append_nan m
        end
  | _, _, _ => append_nan m
  end.




(** A trace with a bump on the rising flank of its peak: samples 2 and 3
    reach half height, sample 4 falls below it, sample 5 is the peak. *)
Definition bumpy_signal : list Q := [20; 0; 6; 6; 1; 10; 0; 20].
Definition bumpy_time : list Q := [0; 1; 2; 3; 4; 5; 6; 7].

End PeakVocabulary.

Section CorrelationVocabulary.
Import Correlation.
Local Open Scope R_scope.

(** A trace with one value throughout. *)
Definition constant (s : list R) : Prop := exists c, Forall (eq c) s.

(** A float64 result within the relative error [u] of the exact one. *)
Definition accurate (u approx exact : R) : Prop :=
  Rabs (approx - exact) <= u * Rabs exact.

(** The variance [np.cov] computes for a trace. *)
Definition variance {ops : Float64} (s : list R) : R :=
  cov_entry (deviations s) (deviations s) (length s).

(** Entry [t] of a window is a number and exceeds every other entry, all of
    them numbers, in magnitude. *)
Definition peaks_at (values : list result) (t : nat) : Prop :=
  exists top,
    nth_error values t = Some (number top) /\
    forall j w, nth_error values j = Some w -> j <> t ->
                exists v, w = number v /\ Rabs v < Rabs top.

End CorrelationVocabulary.

(** ** More vocabulary: the signal-processing stages *)

Section StageVocabulary.
Import Numpy SignalProcessing.
Local Open Scope Q_scope.


End StageVocabulary.

(** ** analysis/peak_analysis.py: valley metrics and event intervals *)

Module ValleyAnalysis.
Import Numpy PeakAnalysis.
Local Open Scope Q_scope.

(** The [metrics] dictionary of [calculate_valley_metrics]: two lists,
    [None] for nan. *)
Record metrics : Type := {
  area_above : list (option Q);
  fwhm : list (option Q)
}.

Definition no_metrics : metrics := {| area_above := []; fwhm := [] |}.

(** The handler: [for k in metrics: metrics[k].append(np.nan)]. *)
Definition append_nan (m : metrics) : metrics :=
  {| area_above := area_above m ++ [None]; fwhm := fwhm m ++ [None] |}.

Definition append_fwhm (m : metrics) (v : Q) : metrics :=
  {| area_above := area_above m; fwhm := fwhm m ++ [Some v] |}.

Definition append_area_above (m : metrics) (v : Q) : metrics :=
  {| area_above := area_above m ++ [Some v]; fwhm := fwhm m |}.

(** [np.where(segment <= half_depth)[0] + start] *)
Definition at_or_below (half_depth : Q) (segment : list Q) (start : Z) : list Z :=
  map (fun k => (Z.of_nat k + start)%Z)
      (where_ (map (fun s => Qle_bool s half_depth) segment)).

(** One turn of the loop over the valleys: the try block and its handler. *)
Definition valley_step (peak_indices : list Z) (signal time : list Q)
    (m : metrics) (valley_idx : Z) : metrics :=
  let preceding_peaks := filter (fun p => (p <? valley_idx)%Z) peak_indices in
  let following_peaks := filter (fun p => (valley_idx <? p)%Z) peak_indices in
  if negb (any_nonzero preceding_peaks) || negb (any_nonzero following_peaks)
  then append_nan m
  else
    match last_item preceding_peaks, hd_error following_peaks with
    | Some pre_p_idx, Some post_p_idx =>
        match getitem signal pre_p_idx, getitem signal post_p_idx,
              getitem signal valley_idx with
        | Some pre_level, Some post_level, Some valley_depth =>
            let peak_level := py_max pre_level post_level in
            let half_depth := peak_level - (peak_level - valley_depth) / 2 in
            let rise_indices :=
              at_or_below half_depth (slice signal pre_p_idx (valley_idx + 1)) pre_p_idx in
            let decay_indices :=
              at_or_below half_depth (slice signal valley_idx (post_p_idx + 1)) valley_idx in
            if negb (any_nonzero rise_indices) || negb (any_nonzero decay_indices)
            then append_nan m
            else
              match last_item decay_indices, hd_error rise_indices with
              | Some decay_t_idx, Some rise_t_idx =>
                  match getitem time decay_t_idx, getitem time rise_t_idx with
                  | Some t_decay, Some t_rise =>
                      let m1 := append_fwhm m (t_decay - t_rise) in
                      let time_segment := slice time pre_p_idx (post_p_idx + 1) in
                      let signal_segment := slice signal pre_p_idx (post_p_idx + 1) in
                      match trapezoid (map (fun s => peak_level - s) signal_segment)
                                      time_segment with
                      | Some a => append_area_above m1 a
                      | None => append_nan m1
                      end
                  | _, _ => append_nan m
                  end
              | _, _ => append_nan m
              end
        | _, _, _ => append_nan m
        end
    | _, _ => append_nan m
    end.

(** The peak indices the loop works with: those given, or the first and last
    sample when none is given or none is non-zero. *)
Definition effective_peaks (peak_data : option (list Z)) (signal : list Q)
  : list Z :=
  let ends := [0%Z; (Z.of_nat (length signal) - 1)%Z] in
  match peak_data with
  | Some peak_indices => if any_nonzero peak_indices then peak_indices else ends
  | None => ends
  end.

(** [calculate_valley_metrics(peak_data, valley_data, signal, time)], the
    data arguments as for [calculate_peak_metrics]. *)
Definition calculate_valley_metrics (peak_data valley_data : option (list Z))
    (signal time : list Q) : option metrics :=
  match valley_data with
  | None => None
  | Some valley_indices =>
      if negb (any_nonzero valley_indices) then None
      else
        Some (fold_left (valley_step (effective_peaks peak_data signal) signal time)
                        valley_indices no_metrics)
  end.

End ValleyAnalysis.

Module Intervals.
Local Open Scope Q_scope.

(** The dictionary [calculate_intervals] returns. *)
Record statistics : Type := {
  intervals : list Q;
  count : nat;
  mean : Q;
  median : Q;
  std : Q;
  min : Q;
  max : Q
}.

Section Builder.
(** [np.sqrt], to the precision of the arithmetic. *)
Variable sqrt : Q -> Q.

(** [calculate_intervals(times)]; [None] for fewer than two times. *)
Definition calculate_intervals (times : option (list Q)) : option statistics :=
  match times with
  | None => None
  | Some times =>
      if Nat.ltb (length times) 2 then None
      else
        let intervals := PeakAnalysis.diff (Numpy.sort times) in
        Some {| intervals := intervals;
                count := length intervals;
                mean := Numpy.mean intervals;
                median := Numpy.median intervals;
                std := sqrt (Numpy.var intervals);
                min := Psth.np_min intervals;
                max := Psth.np_max intervals |}
  end.

End Builder.

End Intervals.

Section EventVocabulary.
Local Open Scope Q_scope.

(** Two entries of a metrics list that hold the same value: both nan, or
    two equal numbers. *)
Definition same_value (a b : option Q) : Prop :=
  match a, b with
  | Some x, Some y => x == y
  | None, None => True
  | _, _ => False
  end.

(** The trace turned upside down. *)
Definition inverted (signal : list Q) : list Q := map Qopp signal.

(** Two metrics dictionaries that agree: the same widths, equal areas. *)
Definition mirrored (v : ValleyAnalysis.metrics) (p : PeakAnalysis.metrics) : Prop :=
  ValleyAnalysis.fwhm v = PeakAnalysis.fwhm p /\
  Forall2 same_value (ValleyAnalysis.area_above v) (PeakAnalysis.area p).

End EventVocabulary.

(** ** gpu_processing.py: the accelerator and its helpers *)

Module GpuProcessing.
Import Numpy.
Local Open Scope Q_scope.

(** The state of the [GPUAccelerator] instance [gpu_accel]: whether a device
    was initialised, and the device count and memory (in bytes) read then. *)
Record GPUAccelerator : Type := {
  gpu_available : bool;
  device_count : Z;
  gpu_memory_free : Z;
  gpu_memory_total : Z
}.

Inductive device_status : Type :=
| CPU_only          (* "CPU only" *)
| GPU_available     (* "GPU available" *)
| GPU_error.        (* "GPU error: ..." *)

(** The dictionary [get_device_info] returns; a key that is absent is
    [None]. *)
Record device_info : Type := {
  status : device_status;
  devices : Z;
  memory_free_gb : option Q;
  memory_total_gb : option Q;
  memory_used_percent : option Q
}.

Definition bytes_per_gb : Q := inject_Z (1024 ^ 3).

(** [get_device_info]: dividing by a total of zero bytes raises, and the
    handler returns the error dictionary. *)
Definition get_device_info (self : GPUAccelerator) : device_info :=
  if negb (gpu_available self)
  then {| status := CPU_only; devices := 0; memory_free_gb := None;
          memory_total_gb := None; memory_used_percent := None |}
  else if Z.eqb (gpu_memory_total self) 0
  then {| status := GPU_error; devices := 0; memory_free_gb := None;
          memory_total_gb := None; memory_used_percent := None |}
  else
    let free := inject_Z (gpu_memory_free self) in
    let total := inject_Z (gpu_memory_total self) in
    {| status := GPU_available; devices := device_count self;
       memory_free_gb := Some (free / bytes_per_gb);
       memory_total_gb := Some (total / bytes_per_gb);
       memory_used_percent := Some ((1 - free / total) * 100) |}.

Inductive memory_strategy_t : Type :=
| conservative | cpu_only | aggressive | balanced | cpu_fallback.

(** The [recommendations] dictionary. *)
Record recommendations : Type := {
  use_gpu : bool;
  batch_size : Z;
  memory_strategy : memory_strategy_t;
  downsample_factor : Z
}.

(** [optimize_gpu_processing(data_size_mb)] *)
Definition optimize_gpu_processing (gpu_accel : GPUAccelerator) (data_size_mb : Q)
  : recommendations :=
  if negb (gpu_available gpu_accel)
  then {| use_gpu := false; batch_size := 1; memory_strategy := cpu_only;
          downsample_factor := 1 |}
  else
    let device_info := get_device_info gpu_accel in
    let free_memory_gb :=
      match memory_free_gb device_info with Some v => v | None => 0 end in
    if Qltb data_size_mb 100
    then {| use_gpu := true; batch_size := 1; memory_strategy := aggressive;
            downsample_factor := 1 |}
    else if Qltb data_size_mb 500
    then {| use_gpu := true; batch_size := 2; memory_strategy := balanced;
            downsample_factor := 1 |}
    else if Qltb data_size_mb (free_memory_gb * 800)
    then {| use_gpu := true; batch_size := 4; memory_strategy := conservative;
            downsample_factor := 2 |}
    else {| use_gpu := false; batch_size := 1; memory_strategy := cpu_fallback;
            downsample_factor := 4 |}.

Section Downsample.
(** The try block of [gpu_downsample] on a device: the transfer, the slice
    [gpu_signal[::factor]] and the transfer back; [None] when it raises. *)
Variable on_device : list Q -> nat -> option (list Q).

(** [gpu_downsample(signal, factor)] *)
Definition gpu_downsample (gpu_accel : GPUAccelerator) (signal : list Q) (factor : Z)
  : list Q :=
  if (factor <=? 1)%Z then signal
  else
    let cpu := stride (Z.to_nat factor) signal in
    if gpu_available gpu_accel
    then match on_device signal (Z.to_nat factor) with
         | Some downsampled => downsampled
         | None => cpu
         end
    else cpu.

End Downsample.

End GpuProcessing.

(** *** The correlation helpers of gpu_processing.py *)

Module GpuCorrelation.
Import Correlation.
Local Open Scope R_scope.

Local Abbreviation zip_with := Numpy.zip_with.

(** A float64 matrix by rows; [None] is nan. *)
Definition matrix : Type := list (list (option R)).

(** [np.zeros((n, n))] *)
Definition zeros (n : nat) : matrix := repeat (repeat (Some 0) n) n.

(** [m[i, j] = v] *)
Definition set_entry (m : matrix) (i j : nat) (v : option R) : matrix :=
  match nth_error m i with
  | Some row => Numpy.set_nth m i (Numpy.set_nth row j v)
  | None => m
  end.

Definition entry (m : matrix) (i j : nat) : option (option R) :=
  match nth_error m i with
  | Some row => nth_error row j
  | None => None
  end.

(** The index pairs of the two loops: [i] in [range(n)], [j] in
    [range(i, n)]. *)
Definition upper_pairs (n : nat) : list (nat * nat) :=
  flat_map (fun i => map (fun j => (i, j)) (seq i (n - i))) (seq 0 n).

(** The double loop with the symmetric assignment
    [m[i, j] = m[j, i] = corr]; the flag tells whether it ran to its end, and
    the matrix is as the loop left it. *)
Fixpoint fill (corr : nat -> nat -> option (option R)) (pairs : list (nat * nat))
    (m : matrix) : matrix * bool :=
  match pairs with
  | [] => (m, true)
  | (i, j) :: rest =>
      match corr i j with
      | Some c => fill corr rest (set_entry (set_entry m i j c) j i c)
      | None => (m, false)
      end
  end.

Section Matrix.
Context {ops : Float64}.
(** The sum of an array in the compiled routine, in the order it adds. *)
Variable numba_sum : list R -> R.
(** Whether Numba could be imported, and the accelerator's device flag. *)
Variables NUMBA_AVAILABLE gpu_available : bool.
(** [cp.corrcoef(a, b)[0, 1]] on the device; [None] when it raises. *)
Variable cp_corrcoef : list R -> list R -> option (option R).

(** [numba_correlation(x, y)] as Numba compiles it; [None] is the
    ZeroDivisionError of its [np.mean] on an empty array. *)
Definition numba_correlation (x y : list R) : option R :=
  if negb (Nat.eqb (length x) (length y)) then Some 0
  else
    match x with
    | [] => None
    | _ :: _ =>
        let mean_x := fdiv (numba_sum x) (INR (length x)) in
        let mean_y := fdiv (numba_sum y) (INR (length y)) in
        let dx := map (fun a => fsub a mean_x) x in
        let dy := map (fun b => fsub b mean_y) y in
        let numerator := numba_sum (zip_with fmul dx dy) in
        let denominator :=
          fsqrt (fmul (numba_sum (map (fun d => fmul d d) dx))
                      (numba_sum (map (fun d => fmul d d) dy))) in
        if Req_dec_T denominator 0 then Some 0
        else Some (fdiv numerator denominator)
    end.

(** [np.corrcoef(a, b)[0, 1]]; ValueError on arrays of different lengths. *)
Definition np_corrcoef (a b : list R) : option (option R) :=
  if Nat.eqb (length a) (length b) then Some (corrcoef a b) else None.

(** [gpu_correlation_matrix(signals)]; [None] when an exception leaves it. *)
Definition gpu_correlation_matrix (signals : list (list R)) : option matrix :=
  let n_signals := length signals in
  let corr_matrix := zeros n_signals in
  let of_signals (f : list R -> list R -> option (option R)) (i j : nat) :=
    f (nth i signals []) (nth j signals []) in
  let cpu (m : matrix) :=
    let corr :=
      if NUMBA_AVAILABLE
      then of_signals (fun a b => option_map Some (numba_correlation a b))
      else of_signals np_corrcoef in
    match fill corr (upper_pairs n_signals) m with
    | (filled, true) => Some filled
    | (_, false) => None
    end in
  if gpu_available
  then match fill (of_signals cp_corrcoef) (upper_pairs n_signals) corr_matrix with
       | (filled, true) => Some filled
       | (partly_filled, false) => cpu partly_filled
       end
  else cpu corr_matrix.

End Matrix.

End GpuCorrelation.

Section AcceleratorVocabulary.
Import GpuCorrelation.

(** An [n] by [n] matrix. *)
Definition square (n : nat) (m : matrix) : Prop :=
  length m = n /\ Forall (fun row => length row = n) m.

End AcceleratorVocabulary.

(** ** gui/main_window.py: blanking, the bin size and the zoom *)

Module Blanking.
Import Numpy.
Local Open Scope Q_scope.

(** A blanking region: the dictionary with its ['start'] and ['end']. *)
Record region : Type := {
  start : Q;
  end_ : Q
}.

(** The body of the loop over the regions, on the ['time'] and ['dff']
    arrays of one data set: the new ['dff'], [None] when an exception is
    raised (an index beyond the array, or a mask of another length). *)
Definition blank_region (time dff : list Q) (region : region) : option (list Q) :=
  let mask :=
    map (fun t => Qle_bool (start region) t && Qle_bool t (end_ region)) time in
  if negb (any mask) then Some dff
  else
    let pre_indices := where_ (map (fun t => Qltb t (start region)) time) in
    let post_indices := where_ (map (fun t => Qltb (end_ region) t) time) in
    if Nat.ltb 0 (length pre_indices) && Nat.ltb 0 (length post_indices)
    then
      match nth_error dff (last pre_indices 0%nat),
            nth_error dff (hd 0%nat post_indices) with
      | Some start_val, Some end_val =>
          if Nat.eqb (length mask) (length dff)
          then assign_at dff (where_ mask)
                         (linspace start_val end_val (length (where_ mask)))
          else None
      | _, _ => None
      end
    else Some dff.

(** The loop over the regions; it works on the array in place, so that when
    a region raises the array is left as the regions before it made it.  The
    flag tells whether the loop ran to its end. *)
Fixpoint blank_regions (time : list Q) (regions : list region) (dff : list Q)
  : list Q * bool :=
  match regions with
  | [] => (dff, true)
  | region :: rest =>
      match blank_region time dff region with
      | Some blanked => blank_regions time rest blanked
      | None => (dff, false)
      end
  end.

(** What the function reads of a data set: ['time'] and ['dff'] ([None]
    when the pipeline gave nothing). *)
Record dataset : Type := {
  time : list Q;
  dff : option (list Q)
}.

Definition blank_dataset (regions : list region) (data : option dataset)
  : option dataset * bool :=
  match data with
  | None => (None, true)
  | Some d =>
      match dff d with
      | None => (Some d, true)
      | Some x =>
          let '(blanked, finished) := blank_regions (time d) regions x in
          (Some {| time := time d; dff := Some blanked |}, finished)
      end
  end.

(** [reapply_all_blanking]: the primary and the secondary data afterwards,
    and whether the method returned without an exception. *)
Definition reapply_all_blanking (blanking_regions : list region)
    (primary_data secondary_data : option dataset)
  : option dataset * option dataset * bool :=
  match blanking_regions with
  | [] => (primary_data, secondary_data, true)
  | _ :: _ =>
      let '(primary, finished) := blank_dataset blanking_regions primary_data in
      if finished
      then
        let '(secondary, finished') := blank_dataset blanking_regions secondary_data in
        (primary, secondary, finished')
      else (primary, secondary_data, false)
  end.

End Blanking.

Module BinSize.
Import Numpy.
Local Open Scope Q_scope.

(** The sample rate [update_psth_bin_size] works with: the ['fs'] of the
    primary data, else of the secondary data, else 1000 Hz over the
    downsample factor. *)
Definition effective_fs (downsample_factor : Z) (primary_fs secondary_fs : option Q)
  : Q :=
  match primary_fs, secondary_fs with
  | Some fs, _ => fs
  | None, Some fs => fs
  | None, None => 1000 / inject_Z downsample_factor
  end.

(** [update_psth_bin_size]: the value it sets the bin size to, [None] when a
    division by zero is caught and the bin size is left alone. *)
Definition update_psth_bin_size (downsample_factor : Z)
    (primary_fs secondary_fs : option Q) : option Q :=
  if Z.eqb downsample_factor 0 then None
  else
    let effective_fs := effective_fs downsample_factor primary_fs secondary_fs in
    if Qeq_bool effective_fs 0 then None
    else
      let min_bin_size := 2 / effective_fs in
      let suggested_bin_size :=
        if Qle_bool 50 effective_fs then 0.1
        else if Qle_bool 20 effective_fs then 0.2
        else 0.5 in
      Some (py_max suggested_bin_size min_bin_size).

End BinSize.

Module Zoom.
Import Numpy.
Local Open Scope Q_scope.

(** The dictionary [get_data_bounds] returns. *)
Record bounds : Type := {
  x_min : Q;
  x_max : Q;
  y_min : Q;
  y_max : Q
}.

(** [get_data_bounds]: [primary_time] and [secondary_time] are the ['time']
    arrays of the primary and the secondary data ([None]: no such data, or no
    ['time'] in it), [max_scale] the plot manager's attribute when it has
    one. *)
Definition get_data_bounds (primary_time secondary_time : option (list Q))
    (max_scale : option Q) : bounds :=
  let '(x_min0, x_max0) :=
    match primary_time with
    | Some ((_ :: _) as time_data) => (Psth.np_min time_data, Psth.np_max time_data)
    | _ => (0, 100)
    end in
  let x_max1 :=
    match secondary_time with
    | Some ((_ :: _) as time_data) => py_max x_max0 (Psth.np_max time_data)
    | _ => x_max0
    end in
  let '(y_min0, y_max0) :=
    match max_scale with
    | Some max_scale => (-4 * max_scale, 6 * max_scale)
    | None => (-50, 50)
    end in
  {| x_min := x_min0; x_max := x_max1; y_min := y_min0; y_max := y_max0 |}.

(** The new limits of one axis: the zoom about the cursor, held within ten
    times and a thousandth of the upper data bound. *)
Definition new_lim (factor data cur_lo cur_hi bound_min bound_max : Q) : Q * Q :=
  let lo := data - (data - cur_lo) * factor in
  let hi := data + (cur_hi - data) * factor in
  let range := hi - lo in
  if Qltb (bound_max * 10) range
  then (bound_min - bound_max, bound_max + bound_max)
  else if Qltb range (bound_max * 0.001)
  then
    let center := (lo + hi) / 2 in
    let half_range := bound_max * 0.0005 in
    (center - half_range, center + half_range)
  else (lo, hi).

Inductive axis : Type := x_axis | y_axis.

(** [on_scroll]: which axis gets which limits; nothing outside the axes.
    [up] is [event.button == 'up'], [data_bounds] the result of
    [get_data_bounds]. *)
Definition on_scroll (inaxes ctrl_pressed up : bool) (xdata ydata : Q)
    (cur_xlim cur_ylim : Q * Q) (data_bounds : bounds) : option (axis * (Q * Q)) :=
  if negb inaxes then None
  else
    let factor := if up then 0.9 else 1.1 in
    if ctrl_pressed
    then Some (y_axis, new_lim factor ydata (fst cur_ylim) (snd cur_ylim)
                               (y_min data_bounds) (y_max data_bounds))
    else Some (x_axis, new_lim factor xdata (fst cur_xlim) (snd cur_xlim)
                               (x_min data_bounds) (x_max data_bounds)).

End Zoom.

Section WindowVocabulary.
Local Open Scope Q_scope.

(** A time that no blanking region covers. *)
Definition outside_regions (regions : list Blanking.region) (t : Q) : Prop :=
  Forall (fun r => ~ (Blanking.start r <= t /\ t <= Blanking.end_ r)) regions.

(** The width of an interval of axis limits. *)
Definition width (lim : Q * Q) : Q := snd lim - fst lim.

End WindowVocabulary.

(** ** data_io.py: decoding a recording *)

Module DataIO.
Import Numpy.
Local Open Scope Q_scope.

(** What [float()] makes of the header's sample-rate entry. *)
Inductive rate : Type :=
| Rate (q : Q)
| RateNaN
| RateInf (positive : bool).

(** What [parse_ppd_data] reads of the header dictionary: the value under the
    first sample-rate key present ([None]: no such key, or a null value;
    [Some None]: a value [float()] rejects), and the list of numbers under
    ['volts_per_division'] when there is one. *)
Record header : Type := {
  sampling_rate : option (option rate);
  volts_per_division : option (list Q)
}.

(** The sample rate after validation, 1000 Hz being the default; [None] is
    nan, which passes both comparisons. *)
Definition validated (entry : option (option rate)) : option Q :=
  match entry with
  | None | Some None => Some 1000
  | Some (Some (Rate q)) =>
      if Qle_bool q 0 || Qltb 100000 q then Some 1000 else Some q
  | Some (Some RateNaN) => None
  | Some (Some (RateInf _)) => Some 1000
  end.

(** [header.get('volts_per_division', [1.0, 1.0])] *)
Definition volts (h : header) : list Q :=
  match volts_per_division h with
  | Some v => v
  | None => [1; 1]
  end.

Definition byte_value (b : Byte.byte) : Z := Z.of_N (Byte.to_N b).

(** [np.frombuffer(data_bytes, dtype='<u2')]: little-endian 16-bit words;
    ValueError when a byte is left over. *)
Fixpoint frombuffer (data_bytes : list Byte.byte) : option (list Z) :=
  match data_bytes with
  | [] => Some []
  | [_] => None
  | lo :: hi :: rest =>
      match frombuffer rest with
      | Some words => Some ((byte_value lo + 256 * byte_value hi)%Z :: words)
      | None => None
      end
  end.

(** A channel: 16-bit integers as decoded, or float64 once scaled. *)
Inductive channel : Type :=
| Integers (a : list Z)
| Floats (a : list Q).

Definition samples (c : channel) : list Q :=
  match c with
  | Integers a => map inject_Z a
  | Floats a => a
  end.

(** [np.mean(analog_1[start:end])] around sample [i]; nan on an empty
    window. *)
Definition window_mean (a : list Q) (half_window : Z) (i : nat) : float64 :=
  let start := Z.max 0 (Z.of_nat i - half_window) in
  let stop := Z.min (Z.of_nat (length a)) (Z.of_nat i + half_window + 1) in
  match slice a start stop with
  | [] => NonFinite
  | w => Finite (mean w)
  end.

(** The baseline and the dF/F of a float64 channel; a zero or nan baseline
    gives inf or nan. *)
Definition float_baseline (a : list Q) (half_window : Z) : list float64 :=
  map (window_mean a half_window) (seq 0 (length a)).

Definition float_dff (a : list Q) (baseline : list float64) : list float64 :=
  zip_with (fun x b =>
              match b with
              | Finite b => if Qeq_bool b 0 then NonFinite
                            else Finite ((x - b) / b * 100)
              | NonFinite => NonFinite
              end) a baseline.

(** The baseline of an integer channel: each mean, a float64, is cast into
    the 16-bit array, which truncates it; the cast of a nan mean stores 0. *)
Definition integer_baseline (a : list Z) (half_window : Z) : list Z :=
  map (fun i =>
         match window_mean (map inject_Z a) half_window i with
         | Finite m => py_int m
         | NonFinite => 0%Z
         end)
      (seq 0 (length a)).

(** The dF/F of an integer channel: the difference wraps around in 16 bits
    before the division. *)
Definition integer_dff (a baseline : list Z) : list float64 :=
  zip_with (fun x b =>
              if Z.eqb b 0 then NonFinite
              else Finite (inject_Z ((x - b) mod 65536) / inject_Z b * 100))
           a baseline.

(** The returned dictionary.  ['time'], ['raw1'], ['raw2'] and ['fit'] hold
    the same arrays as ['time_raw'], ['analog_1_raw'], ['analog_2_raw'] and
    ['drift']; ['peaks'] and ['valleys'] are empty. *)
Record parsed : Type := {
  time_raw : list Q;
  analog_1_raw : channel;
  analog_2_raw : channel;
  digital1 : list Z;
  digital2 : list Z;
  dff : list float64;
  fs : Q;
  fs_original : Q;
  downsample_factor : Z;
  drift : list float64;
  artifact_mask : list bool
}.

(** [x[::downsample_factor]] when the factor exceeds one. *)
Definition decimate {A} (downsample_factor : Z) (x : list A) : list A :=
  if (1 <? downsample_factor)%Z then stride (Z.to_nat downsample_factor) x else x.

(** [parse_ppd_data(data_bytes, header, downsample_factor)] *)
Definition parse_ppd_data (data_bytes : option (list Byte.byte))
    (header : option header) (downsample_factor : Z) : option parsed :=
  match header, data_bytes with
  | Some header, Some ((_ :: _) as data_bytes) =>
      let sampling_rate := validated (sampling_rate header) in
      let volts_per_division := volts header in
      match frombuffer data_bytes with
      | None | Some [] => None
      | Some data =>
          let analog := map (fun w => Z.shiftr w 1) data in
          let digital := map (fun w => Z.land w 1) data in
          let analog_1 := stride 2 analog in
          let analog_2 := stride 2 (tl analog) in
          let digital_1 := stride 2 digital in
          let digital_2 := stride 2 (tl digital) in
          let min_len :=
            Nat.min (Nat.min (length analog_1) (length analog_2))
                    (Nat.min (length digital_1) (length digital_2)) in
          if Nat.eqb min_len 0 then None
          else
            match sampling_rate with
            | Some sampling_rate =>
                let analog_1 := firstn min_len analog_1 in
                let analog_2 := firstn min_len analog_2 in
                let digital_1 := firstn min_len digital_1 in
                let digital_2 := firstn min_len digital_2 in
                let time_raw := map (fun i => of_nat i / sampling_rate) (seq 0 min_len) in
                let scaled (k : nat) (a : list Z) : channel :=
                  if Nat.leb 2 (length volts_per_division)
                  then Floats (map (fun x => inject_Z x * nth k volts_per_division 0) a)
                  else Integers a in
                let pick (c : channel) : channel :=
                  match c with
                  | Integers a => Integers (decimate downsample_factor a)
                  | Floats a => Floats (decimate downsample_factor a)
                  end in
                let time_raw := decimate downsample_factor time_raw in
                let analog_1 := pick (scaled 0%nat analog_1) in
                let analog_2 := pick (scaled 1%nat analog_2) in
                let digital_1 := decimate downsample_factor digital_1 in
                let digital_2 := decimate downsample_factor digital_2 in
                if Z.eqb downsample_factor 0 then None
                else
                  let window_size := py_int (sampling_rate / inject_Z downsample_factor) in
                  let half_window := (window_size / 2)%Z in
                  let finish (baseline dff : list float64) : option parsed :=
                    Some {| time_raw := time_raw;
                            analog_1_raw := analog_1;
                            analog_2_raw := analog_2;
                            digital1 := digital_1;
                            digital2 := digital_2;
                            dff := dff;
                            fs := sampling_rate / inject_Z downsample_factor;
                            fs_original := sampling_rate;
                            downsample_factor := downsample_factor;
                            drift := baseline;
                            artifact_mask := zeros_like_bool time_raw |} in
                  match analog_1 with
                  | Floats a =>
                      let baseline := float_baseline a half_window in
                      finish baseline (float_dff a baseline)
                  | Integers a =>
                      let baseline := integer_baseline a half_window in
                      finish (map (fun b => Finite (inject_Z b)) baseline)
                             (integer_dff a baseline)
                  end
            | None => None
            end
      end
  | _, _ => None
  end.

End DataIO.

Section RecordingVocabulary.
Import Numpy DataIO.
Local Open Scope Q_scope.

(** The 16-bit word of a recording at position [k], from its two bytes. *)
Definition word_at (data_bytes : list Byte.byte) (k : nat) : Z :=
  (byte_value (nth (2 * k) data_bytes Byte.x00)
   + 256 * byte_value (nth (2 * k + 1) data_bytes Byte.x00))%Z.

End RecordingVocabulary.

(** ** gui/main_window.py: denoising the processed data *)

Module Denoising.
Import Numpy SignalProcessing.

Section Run.
Context {lib : SciPy}.

(** One half of [run_advanced_denoising]: the data set afterwards ([None]
    for no data, or data whose ['dff'] is [None]); the outer [None] is an
    exception raised by the denoiser. *)
Definition denoise_data (aggressive : bool) (data : option arrays)
  : option (option arrays) :=
  match data with
  | None => Some None
  | Some d =>
      match advanced_denoise_signal (dff d) (time_ d) (artifact_mask d) (raw2 d)
                                    aggressive with
      | Some denoised =>
          Some (Some {| time_ := time_ d; dff := denoised; raw1 := raw1 d;
                        raw2 := raw2 d; drift := drift d;
                        artifact_mask := artifact_mask d |})
      | None => None
      end
  end.

(** [run_advanced_denoising]: the primary data, then the secondary data. *)
Definition run_advanced_denoising (denoise_aggressive : bool)
    (primary_data secondary_data : option arrays)
  : option (option arrays * option arrays) :=
  match denoise_data denoise_aggressive primary_data with
  | Some primary =>
      match denoise_data denoise_aggressive secondary_data with
      | Some secondary => Some (primary, secondary)
      | None => None
      end
  | None => None
  end.

End Run.

End Denoising.

(* ================================================================== *)
(** * Part II: properties *)
(* ================================================================== *)

(** ** Arrays *)

Section ArrayFacts.
Import Numpy.

Lemma nth_error_stride_from {A} (k : nat) (l : list A) :
  (1 <= k)%nat ->
  forall skip i, nth_error (stride_from k skip l) i = nth_error l (skip + i * k).
Proof.
  intros Hk. induction l as [|x r IH]; intros skip i.
  - destruct i; simpl; now destruct (skip + _)%nat.
  - destruct skip as [|s]; simpl.
    + destruct i as [|i]; simpl; [reflexivity|].
      rewrite IH. destruct k as [|k']; [lia|].
      simpl. f_equal. lia.
    + apply IH.
Qed.

Lemma nth_error_stride {A} (k : nat) (l : list A) (i : nat) :
  (1 <= k)%nat -> nth_error (stride k l) i = nth_error l (i * k).
Proof. intros Hk. unfold stride. now rewrite nth_error_stride_from. Qed.

Lemma length_stride {A} (k : nat) (l : list A) :
  (1 <= k)%nat -> length (stride k l) = ceil_div (length l) k.
Proof.
  intros Hk. unfold ceil_div.
  set (L := length (stride k l)).
  assert (Hup : (length l <= L * k)%nat).
  { apply nth_error_None. rewrite <- nth_error_stride by exact Hk.
    apply nth_error_None. unfold L. lia. }
  assert (Hlow : (L = 0 \/ (L - 1) * k < length l)%nat).
  { destruct L as [|L'] eqn:E; [now left|right].
    apply nth_error_Some. rewrite <- nth_error_stride by exact Hk.
    apply nth_error_Some. fold L in E. simpl. lia. }
  apply Nat.div_unique with (r := (length l + k - 1 - k * L)%nat); nia.
Qed.

Lemma length_zip_with {A B C} (f : A -> B -> C) (a : list A) (b : list B) :
  length a = length b -> length (zip_with f a b) = length a.
Proof.
  revert b. induction a as [|x a IH]; intros [|y b] H; simpl in *; try lia.
  now rewrite IH by lia.
Qed.

Lemma length_broadcast (f : Q -> Q -> Q) (a b r : list Q) :
  length a = length b -> broadcast f a b = Some r -> length r = length a.
Proof.
  intros H. unfold broadcast.
  destruct (Nat.eqb_spec (length a) (length b)) as [_|Hne]; [|contradiction].
  intros [= <-]. now apply length_zip_with.
Qed.

Lemma length_insert (x : Q) (l : list Q) : length (insert x l) = S (length l).
Proof.
  induction l as [|y r IH]; simpl; [reflexivity|].
  destruct (Qle_bool x y); simpl; now rewrite ?IH.
Qed.

Lemma length_sort (l : list Q) : length (sort l) = length l.
Proof.
  induction l as [|x r IH]; simpl; [reflexivity|].
  now rewrite length_insert, IH.
Qed.

Lemma Forall_insert (P : Q -> Prop) (x : Q) (l : list Q) :
  P x -> Forall P l -> Forall P (insert x l).
Proof.
  intros Hx. induction 1 as [|y r Hy Hr IH]; simpl.
  - now constructor.
  - destruct (Qle_bool x y); repeat constructor; assumption.
Qed.



End ArrayFacts.

(** ** The filter stage *)

Section FilterFacts.
Import Numpy SignalProcessing.
Context {lib : SciPy} (rt : Runtime).
Local Open Scope Q_scope.

Lemma nan_to_zero_Finite (x : list Q) : nan_to_zero (map Finite x) = x.
Proof.
  unfold nan_to_zero. rewrite map_map. induction x as [|a x IH]; simpl; congruence.
Qed.

Lemma length_nan_to_zero (raw : list float64) : length (nan_to_zero raw) = length raw.
Proof. apply length_map. Qed.

Lemma nan_to_zero_finite (raw : list float64) :
  all_finite raw = true -> map Finite (nan_to_zero raw) = raw.
Proof.
  unfold all_finite, nan_to_zero. induction raw as [|[q|] r IH]; simpl; intros H.
  - reflexivity.
  - now rewrite IH.
  - discriminate.
Qed.

Lemma butter_filter_depth_unfold (frames : nat) raw cutoff fs bt order :
  butter_filter_depth rt frames raw cutoff fs bt order =
  butter_filter_body rt
    (fun d c f b o =>
       match frames with
       | O => None
       | S n =>
           gpu_butter_filter_body rt
             (fun d' c' f' b' o' =>
                match n with
                | O => None
                | S m => Some (butter_filter_depth rt m d' c' f' b' o')
                end)
             d c f b o
       end)
    raw cutoff fs bt order.
Proof. destruct frames; reflexivity. Qed.

Lemma butter_filter_depth_result (frames : nat) :
  forall raw cutoff fs bt order,
    filter_result rt raw cutoff fs bt order
      (butter_filter_depth rt frames raw cutoff fs bt order).
Proof.
  induction frames as [frames IH] using (well_founded_induction lt_wf).
  intros raw cutoff fs bt order.
  rewrite butter_filter_depth_unfold. unfold butter_filter_body.
  destruct raw as [|a raw']; [apply returned_input; [reflexivity|left; reflexivity]|].
  set (raw := a :: raw'). set (data := nan_to_zero raw).
  destruct (cutoff_invalid cutoff fs) eqn:Hinv;
    [apply returned_input; [reflexivity|right; left; exact Hinv]|].
  destruct (Z.ltb_spec (Z.of_nat (length data)) (min_length order)) as [Hshort|_].
  { apply returned_input; [reflexivity|]. right; right; left.
    unfold data in Hshort. now rewrite length_nan_to_zero in Hshort. }
  destruct (GPU_AVAILABLE rt && over_10_mb (length data))%bool eqn:Hacc.
  - assert (Hdata : filter_result rt raw cutoff fs bt order data).
    { apply returned_input; [reflexivity|]. do 6 right.
      unfold accelerated. unfold data in Hacc.
      now rewrite length_nan_to_zero in Hacc. }
    destruct frames as [|n]; [exact Hdata|].
    unfold gpu_butter_filter_body.
    assert (Hrec :
      match (match n with
             | O => None
             | S m => Some (butter_filter_depth rt m (map Finite data) cutoff fs bt order)
             end) with
      | Some y => y
      | None => data
      end = data \/
      exists s p, butter order (normalize cutoff ((1 # 2) * fs)) bt = Some s /\
                  sosfiltfilt s data p =
                  Some match (match n with
                              | O => None
                              | S m => Some (butter_filter_depth rt m (map Finite data)
                                               cutoff fs bt order)
                              end) with
                       | Some y => y
                       | None => data
                       end).
    { destruct n as [|m]; [now left|].
      specialize (IH m ltac:(lia) (map Finite data) cutoff fs bt order).
      destruct IH as [E _|s p Hb Hf]; rewrite nan_to_zero_Finite in *.
      - now left.
      - right. exists s, p. split; assumption. }
    assert (Hback : filter_result rt raw cutoff fs bt order
      match (match n with
             | O => None
             | S m => Some (butter_filter_depth rt m (map Finite data) cutoff fs bt order)
             end) with
      | Some y => y
      | None => data
      end).
    { destruct Hrec as [->|(s & p & Hb & Hf)]; [exact Hdata|].
      eapply returned_filtered; eassumption. }
    destruct (gpu_available rt); cbn [negb].
    + destruct (butter _ _ _) as [s|] eqn:Hb.
      * destruct (sosfiltfilt s data None) as [y|] eqn:Hf.
        -- eapply returned_filtered; eassumption.
        -- destruct n; exact Hback.
      * destruct n; exact Hback.
    + destruct n; exact Hback.
  - destruct (butter _ _ _) as [s|] eqn:Hb;
      [|apply returned_input; [reflexivity|right; right; right; left; exact Hb]].
    destruct (min_cutoff cutoff) as [mc|] eqn:Hmc;
      [|apply returned_input; [reflexivity|right; right; right; right; left; exact Hmc]].
    destruct (sosfiltfilt s data _) as [y|] eqn:Hf.
    + eapply returned_filtered; eassumption.
    + apply returned_input; [reflexivity|].
      right; right; right; right; right; left. exists s. eexists. split; eassumption.
Qed.

Lemma length_butter_filter `{!SciPyLaws lib} raw cutoff fs bt order zp :
  length (butter_filter rt raw cutoff fs bt order zp) = length raw.
Proof.
  unfold butter_filter.
  destruct (butter_filter_depth_result (recursion_limit rt) raw cutoff fs bt order)
    as [E _|s p _ Hf].
  - rewrite E. apply length_nan_to_zero.
  - apply sosfiltfilt_length in Hf. rewrite Hf. apply length_nan_to_zero.
Qed.

Lemma cutoff_invalid_iff (cutoff : cutoff_t) (fs : Q) :
  cutoff_invalid cutoff fs = true <-> outside_nyquist cutoff fs.
Proof.
  destruct cutoff as [c|cs]; simpl.
  - rewrite orb_true_iff, !Qle_bool_iff. tauto.
  - rewrite orb_true_iff, !existsb_exists, Exists_exists. split.
    + intros [[c [Hin H]]|[c [Hin H]]]; exists c; rewrite Qle_bool_iff in H; tauto.
    + intros [c [Hin [H|H]]]; [left|right]; exists c; now rewrite Qle_bool_iff.
Qed.

Lemma butter_filter_degenerate raw cutoff fs bt order zp :
  degenerate raw cutoff fs order ->
  butter_filter rt raw cutoff fs bt order zp = nan_to_zero raw.
Proof.
  intros H. unfold butter_filter. rewrite butter_filter_depth_unfold.
  unfold butter_filter_body. destruct raw as [|a raw']; [reflexivity|].
  destruct (cutoff_invalid cutoff fs) eqn:Hc; [reflexivity|].
  destruct H as [H|[H|H]].
  - discriminate.
  - rewrite length_nan_to_zero. apply Z.ltb_lt in H. now rewrite H.
  - apply cutoff_invalid_iff in H. congruence.
Qed.

End FilterFacts.

#[export] Instance exact_laws : SignalProcessing.SciPyLaws Reference.exact.
Proof.
  constructor. intros s x p y [= <-]. apply length_map.
Qed.

(** ** The stages of the pipeline *)

Section StageFacts.
Import Numpy SignalProcessing.
Context {lib : SciPy} (rt : Runtime).
Local Open Scope Q_scope.

Lemma Qltb_lt (x y : Q) : Qltb x y = true <-> x < y.
Proof.
  unfold Qltb. rewrite negb_true_iff, <- not_true_iff_false, Qle_bool_iff.
  split; [apply Qnot_le_lt | apply Qlt_not_le].
Qed.

Lemma Qltb_ge (x y : Q) : Qltb x y = false <-> y <= x.
Proof. unfold Qltb. now rewrite negb_false_iff, Qle_bool_iff. Qed.

Lemma length_detect_artifacts (control : list Q) (threshold : Q) :
  length (detect_artifacts control threshold) = length control.
Proof.
  unfold detect_artifacts, zeros_like_bool.
  destruct (Nat.ltb _ 2); apply length_map.
Qed.



Lemma length_dff_of (detrended : list Q) : length (dff_of detrended) = length detrended.
Proof.
  unfold dff_of, zeros_like. destruct (percentile detrended 10); apply length_map.
Qed.

Lemma length_fit_bleaching_correction (signal control fit : list Q) :
  length control = length signal ->
  fit_bleaching_correction signal (Some control) = Some fit ->
  length fit = length signal.
Proof.
  intros Hlen. unfold fit_bleaching_correction, zeros_like.
  destruct (_ || _)%bool.
  - intros [= <-]. apply length_map.
  - destruct (_ || _)%bool.
    + intros [= <-]. now rewrite length_map.
    + destruct (linregress control signal) as [[slope intercept]|]; [|discriminate].
      intros [= <-]. now rewrite length_map.
Qed.

Lemma length_motion_correction (signal : list Q) (control : option (list Q)) :
  (forall c, control = Some c -> length c = length signal) ->
  length (motion_correction signal control) = length signal.
Proof.
  intros Hc. unfold motion_correction.
  destruct control as [c|]; [|reflexivity].
  destruct (fit_bleaching_correction signal (Some c)) as [fit|] eqn:Hfit; [|reflexivity].
  destruct (broadcast Qminus signal fit) as [m|] eqn:Hb; [|reflexivity].
  apply length_broadcast in Hb; [exact Hb|].
  symmetry. eapply length_fit_bleaching_correction; [|exact Hfit]. now apply Hc.
Qed.

Lemma length_linspace (a b : Q) (n : nat) : length (linspace a b n) = n.
Proof. unfold linspace. now rewrite length_map, length_seq. Qed.

Lemma length_drift_removal (cfg : config) (m : list Q) :
  length (fst (drift_removal cfg m)) = length m /\
  forall d, snd (drift_removal cfg m) = Some d -> length d = length m.
Proof.
  unfold drift_removal. destruct (drift_correction cfg); [|now split].
  destruct (polyfit _ m _) as [coeffs|]; [|now split].
  assert (Hp : length (polyval (linspace 0 1 (length m)) coeffs) = length m).
  { unfold polyval. now rewrite length_map, length_linspace. }
  destruct (broadcast _ _ _) as [d|] eqn:Hb; simpl; [|now split].
  split.
  - apply length_broadcast in Hb; [exact Hb|now rewrite Hp].
  - now intros d' [= <-].
Qed.

Lemma length_filtering `{!SciPyLaws lib} (cfg : config) (fs : Q)
    (signal : list Q) (control : option (list Q)) :
  length (fst (filtering rt cfg fs signal control)) = length signal /\
  forall c', snd (filtering rt cfg fs signal control) = Some c' ->
             exists c, control = Some c /\ length c' = length c.
Proof.
  assert (Hrun : forall cutoff bt x,
    length (butter_filter rt (map Finite x) cutoff fs bt (filter_order cfg) (zero_phase cfg))
    = length x).
  { intros. now rewrite length_butter_filter, length_map. }
  unfold filtering.
  destruct (filter_kind cfg); simpl; (split; [now rewrite ?Hrun|]);
    destruct control as [c|]; simpl; try discriminate;
    intros c' [= <-]; exists c; now rewrite ?Hrun.
Qed.

End StageFacts.

(** ** The pipeline *)

Section PipelineFacts.
Import Numpy SignalProcessing.
Local Open Scope Q_scope.

Lemma stride_aligned {A} (N k : nat) (full : list A) :
  (1 <= k)%nat -> length full = N -> aligned N k full (stride k full).
Proof.
  intros Hk HN. split; [exact HN|]. split.
  - now rewrite length_stride, HN.
  - intros i Hi. split; [now apply nth_error_stride|].
    apply nth_error_Some. now rewrite length_stride, HN.
Qed.

Lemma full_length_shape {lib : SciPy} `{!SciPyLaws lib} (rt : Runtime)
    (time_raw : list Q) (signal : list float64) (control : option (list float64))
    (fs : Q) (cfg : config) (N : nat) :
  length time_raw = N -> length signal = N ->
  (forall c, control = Some c -> length c = N) ->
  let full := full_length rt time_raw signal control fs cfg in
  length (time_ full) = N /\ length (dff full) = N /\ length (raw1 full) = N /\
  (forall r, raw2 full = Some r -> length r = N) /\
  (forall d, drift full = Some d -> length d = N) /\
  length (artifact_mask full) = N.
Proof.
  intros Ht Hs Hc. unfold full_length.
  set (ps := nan_to_zero signal). set (pc := option_map nan_to_zero control).
  assert (Hps : length ps = N) by (unfold ps; now rewrite length_nan_to_zero).
  assert (Hpc : forall c, pc = Some c -> length c = N).
  { unfold pc. destruct control as [c0|]; simpl; [|discriminate].
    intros c [= <-]. rewrite length_nan_to_zero. now apply Hc. }
  pose proof (length_filtering rt cfg fs ps pc) as [Hf1 Hf2].
  destruct (filtering rt cfg fs ps pc) as [fsig fctl]. simpl in Hf1, Hf2.
  assert (Hfc : forall c, fctl = Some c -> length c = N).
  { intros c E. destruct (Hf2 c E) as [c0 [E0 Hl]]. rewrite Hl. now apply Hpc. }
  assert (Hm : length (motion_correction fsig fctl) = N).
  { rewrite length_motion_correction; [lia|].
    intros c E. rewrite (Hfc c E). lia. }
  pose proof (length_drift_removal cfg (motion_correction fsig fctl)) as [Hd1 Hd2].
  destruct (drift_removal cfg (motion_correction fsig fctl)) as [det dc].
  simpl in Hd1, Hd2. simpl.
  repeat split.
  - exact Ht.
  - rewrite length_dff_of. lia.
  - destruct (filter_raw_signals cfg); lia.
  - destruct (filter_raw_signals cfg); auto.
  - intros d E. rewrite (Hd2 d E). exact Hm.
  - destruct pc as [c|].
    + rewrite length_detect_artifacts. now apply Hpc.
    + unfold zeros_like_bool. now rewrite length_map.
Qed.

(** C1.  A call with no signal, an empty signal, a non-positive sampling rate
    or a low cutoff not below the high cutoff returns the failure result,
    whatever the other arguments, the SciPy routines and the runtime are; any
    other call passes the three checks and returns the decimated arrays. *)
Theorem C1_invalid_input_rejected_up_front :
  forall (lib : SciPy) (rt : Runtime) (time_raw : list Q)
         (signal_raw control_raw : option (list float64)) (fs : Q) (cfg : config),
    ((signal_raw = None \/ signal_raw = Some [] \/ fs <= 0 \/
      high_cutoff cfg <= low_cutoff cfg) ->
     process_data_pipeline rt time_raw signal_raw control_raw fs cfg = None) /\
    (forall signal,
       signal_raw = Some signal -> signal <> [] -> 0 < fs ->
       low_cutoff cfg < high_cutoff cfg ->
       rejected signal_raw fs cfg = false /\
       process_data_pipeline rt time_raw signal_raw control_raw fs cfg =
       Some (downsample (factor_of cfg)
               (full_length rt time_raw signal control_raw fs cfg))).
Proof.
  intros lib rt time_raw signal_raw control_raw fs cfg. split.
  - intros H. unfold process_data_pipeline.
    assert (Hr : rejected signal_raw fs cfg = true).
    { unfold rejected. destruct signal_raw as [[|a s]|]; try reflexivity.
      destruct H as [H|[H|[H|H]]]; try discriminate;
        apply orb_true_iff; [left|right]; now apply Qle_bool_iff. }
    now rewrite Hr.
  - intros signal -> Hne Hfs Hcut.
    assert (Hr : rejected (Some signal) fs cfg = false).
    { unfold rejected. destruct signal as [|a s]; [contradiction|].
      apply orb_false_iff. split; apply not_true_iff_false;
        rewrite Qle_bool_iff; apply Qlt_not_le; assumption. }
    split; [exact Hr|]. unfold process_data_pipeline. now rewrite Hr.
Qed.

Lemma C1_witness :
  process_data_pipeline (lib := Reference.exact) Reference.cpu_only
    [0; 1] (Some [Finite 1; Finite 2]) None 0 default_config = None /\
  rejected (Some [Finite 1; Finite 2]) 1 default_config = false.
Proof.
  split.
  - apply (C1_invalid_input_rejected_up_front Reference.exact Reference.cpu_only
             [0; 1] (Some [Finite 1; Finite 2]) None 0 default_config).
    right. right. left. apply Qle_refl.
  - apply (C1_invalid_input_rejected_up_front Reference.exact Reference.cpu_only
             [0; 1] (Some [Finite 1; Finite 2]) None 1 default_config)
      with (signal := [Finite 1; Finite 2]).
    + reflexivity.
    + discriminate.
    + reflexivity.
    + reflexivity.
Defined.

(** C2.  On arrays of length N and with a downsample factor k >= 1, each
    returned array has length ceil(N / k) and its element i is element i * k
    of the full-length array it was decimated from, which has length N. *)
Theorem C2_decimation_alignment :
  forall (lib : SciPy) (rt : Runtime) (time_raw : list Q) (signal : list float64)
         (control : option (list float64)) (fs : Q) (cfg : config) (N : nat)
         (out : arrays),
    SciPyLaws lib ->
    length time_raw = N -> length signal = N ->
    (forall c, control = Some c -> length c = N) ->
    (1 <= downsample_factor cfg)%Z ->
    process_data_pipeline rt time_raw (Some signal) control fs cfg = Some out ->
    let k := Z.to_nat (downsample_factor cfg) in
    let full := full_length rt time_raw signal control fs cfg in
    aligned N k (time_ full) (time_ out) /\
    aligned N k (dff full) (dff out) /\
    aligned N k (raw1 full) (raw1 out) /\
    aligned_opt N k (raw2 full) (raw2 out) /\
    aligned_opt N k (drift full) (drift out) /\
    aligned N k (artifact_mask full) (artifact_mask out).
Proof.
  intros lib rt time_raw signal control fs cfg N out Hlaws Ht Hs Hc Hk Hrun k full.
  unfold process_data_pipeline in Hrun.
  destruct (rejected (Some signal) fs cfg); [discriminate|].
  injection Hrun as <-.
  assert (Hfac : factor_of cfg = k).
  { unfold factor_of, k. f_equal. lia. }
  rewrite Hfac. fold full.
  assert (Hk1 : (1 <= k)%nat) by (unfold k; lia).
  destruct (full_length_shape rt time_raw signal control fs cfg N Ht Hs Hc)
    as (H1 & H2 & H3 & H4 & H5 & H6).
  fold full in H1, H2, H3, H4, H5, H6.
  unfold downsample; simpl.
  split; [now apply stride_aligned|].
  split; [now apply stride_aligned|].
  split; [now apply stride_aligned|].
  split; [|split; [|now apply stride_aligned]].
  - destruct (raw2 full) as [r|]; simpl; [|exact I].
    apply stride_aligned; auto.
  - destruct (drift full) as [d|]; simpl; [|exact I].
    apply stride_aligned; auto.
Qed.

End PipelineFacts.

Section PipelineClaims.
Import Numpy SignalProcessing.
Local Open Scope Q_scope.

Lemma C2_witness :
  aligned 5 2
    (dff (full_length (lib := Reference.exact) Reference.cpu_only
            Samples.five_times Samples.five_samples None 100 Samples.by_two))
    (dff (downsample 2
            (full_length (lib := Reference.exact) Reference.cpu_only
               Samples.five_times Samples.five_samples None 100 Samples.by_two))).
Proof.
  apply (C2_decimation_alignment Reference.exact Reference.cpu_only
           Samples.five_times Samples.five_samples None 100 Samples.by_two 5
           (downsample 2
              (full_length (lib := Reference.exact) Reference.cpu_only
                 Samples.five_times Samples.five_samples None 100 Samples.by_two))).
  - exact exact_laws.
  - reflexivity.
  - reflexivity.
  - discriminate.
  - simpl. lia.
  - reflexivity.
Defined.

Lemma py_max_Qmax (a b : Q) : py_max a b == Qmax a b.
Proof.
  unfold py_max. destruct (Qltb a b) eqn:E.
  - apply Qltb_lt in E. symmetry. apply Q.max_r. lra.
  - apply Qltb_ge in E. symmetry. now apply Q.max_l.
Qed.

Lemma py_max_eps_pos (a : Q) : 0 < py_max a 1e-9.
Proof.
  unfold py_max. destruct (Qltb a 1e-9) eqn:E.
  - reflexivity.
  - apply Qltb_ge in E. eapply Qlt_le_trans; [|exact E]. reflexivity.
Qed.

(** C3, at a negative baseline: on the one-sample trace [-1] the code gives
    -200 where the specified formula gives 0. *)
Lemma C3_counterexample_negative_baseline :
  exists specified,
    dff_as_specified [-1] = Some specified /\
    ~ Forall2 Qeq (dff_of [-1]) specified.
Proof.
  eexists. split; [reflexivity|].
  intros H. inversion H as [|x y l l' Hxy _]; subst.
  vm_compute in Hxy. discriminate.
Qed.

(** C3, as the code has it.  With F0 the 10th percentile of the detrended
    trace and G = max(|F0|, eps), G is positive and every output sample is
    (x - G) / G * 100; for a baseline F0 >= eps this is the specified
    (x - F0) / max(|F0|, eps) * 100. *)
Theorem C3_dff_normalisation :
  forall (detrended : list Q) (F0 : Q),
    percentile detrended 10 = Some F0 ->
    let G := py_max (Qabs F0) 1e-9 in
    0 < G /\ G == Qmax (Qabs F0) 1e-9 /\
    length (dff_of detrended) = length detrended /\
    (forall i x, nth_error detrended i = Some x ->
                 nth_error (dff_of detrended) i = Some ((x - G) / G * 100)) /\
    (1e-9 <= F0 ->
     forall i x, nth_error detrended i = Some x ->
       exists y, nth_error (dff_of detrended) i = Some y /\
                 y == (x - F0) / Qmax (Qabs F0) 1e-9 * 100).
Proof.
  intros detrended F0 Hp G.
  assert (Hnth : forall i x, nth_error detrended i = Some x ->
                 nth_error (dff_of detrended) i = Some ((x - G) / G * 100)).
  { intros i x Hx. unfold dff_of. rewrite Hp. fold G.
    rewrite nth_error_map, Hx. reflexivity. }
  split; [apply py_max_eps_pos|].
  split; [apply py_max_Qmax|].
  split; [apply length_dff_of|].
  split; [exact Hnth|].
  intros Hge i x Hx. eexists. split; [apply Hnth, Hx|].
  assert (Heps : 0 < 1e-9) by reflexivity.
  assert (Habs : Qabs F0 == F0) by (apply Qabs_pos; lra).
  assert (HG : G == F0).
  { unfold G, py_max. destruct (Qltb (Qabs F0) 1e-9) eqn:E; [|exact Habs].
    apply Qltb_lt in E. lra. }
  assert (HM : Qmax (Qabs F0) 1e-9 == F0).
  { transitivity G; [symmetry; apply py_max_Qmax | exact HG]. }
  rewrite HG, HM. reflexivity.
Qed.

Lemma C3_witness :
  percentile [2; 4] 10 = Some (2 + (4 - 2) * (inject_Z 1 * (10 / 100) - inject_Z 0)) /\
  length (dff_of [2; 4]) = 2%nat.
Proof.
  split; [reflexivity|].
  destruct (C3_dff_normalisation [2; 4] _ eq_refl) as (_ & _ & H & _).
  exact H.
Defined.

End PipelineClaims.

(** ** The artifact detector *)

Section ArtifactFacts.
Import Numpy SignalProcessing.
Local Open Scope Q_scope.

Lemma nth_error_zeros_like_bool {A} (xs : list A) (i : nat) :
  nth_error (zeros_like_bool xs) i <> Some true.
Proof.
  unfold zeros_like_bool. rewrite nth_error_map.
  destruct (nth_error xs i); discriminate.
Qed.

Lemma flag_iff (control : list Q) (theta : Q) (i : nat) (x : Q) :
  nth_error control i = Some x ->
  (nth_error (detect_artifacts control theta) i = Some true <->
   theta * mad_of control * mad_to_std < Qabs (x - median control)).
Proof.
  intros Hx. unfold detect_artifacts.
  destruct (Nat.ltb_spec (length control) 2) as [Hshort|Hlong].
  - split; [intros H; now apply nth_error_zeros_like_bool in H|].
    destruct control as [|a [|b r]]; simpl in Hshort; try lia.
    + destruct i; discriminate.
    + destruct i as [|i]; [|destruct i; discriminate].
      injection Hx as <-. unfold mad_of, median. simpl.
      assert (E : Qabs (a - a) == 0).
      { assert (E0 : a - a == 0) by ring. rewrite E0. reflexivity. }
      rewrite E. intros H. exfalso. revert H. apply Qle_not_lt.
      assert (E1 : theta * 0 * mad_to_std == 0) by ring. rewrite E1. apply Qle_refl.
  - rewrite nth_error_map, Hx. unfold option_map. fold (mad_of control).
    rewrite <- Qltb_lt. split; [intros [= H]; exact H | intros H; now f_equal].
Qed.



End ArtifactFacts.

(** ** The filter stage: degenerate inputs *)

Section FilterClaims.
Import Numpy SignalProcessing.
Local Open Scope Q_scope.

(** C7, with a non-finite sample: a one-sample trace holding nan is too short
    to filter, and what comes back is not the input but [0.0]. *)
Lemma C7_counterexample_nonfinite_sample :
  degenerate [NonFinite] (Scalar 10) 1000 2 /\
  map Finite
    (butter_filter (lib := Reference.exact) Reference.cpu_only
       [NonFinite] (Scalar 10) 1000 low 2 true) <> [NonFinite].
Proof.
  split.
  - right. left. reflexivity.
  - vm_compute. discriminate.
Qed.

(** C7, as the code has it.  The filter always returns: on an empty trace, a
    trace shorter than the minimum length for the order, or a cutoff outside
    (0, fs/2) it returns the input with its non-finite samples replaced by
    zero, which is the input itself when all samples are finite; and whatever
    it returns has the length of the input. *)
Theorem C7_filter_degenerate_inputs :
  forall (lib : SciPy) (rt : Runtime) (raw : list float64) (cutoff : cutoff_t)
         (fs : Q) (bt : btype) (order : Z) (zp : bool),
    (degenerate raw cutoff fs order ->
     butter_filter rt raw cutoff fs bt order zp = nan_to_zero raw /\
     (all_finite raw = true ->
      map Finite (butter_filter rt raw cutoff fs bt order zp) = raw)) /\
    (SciPyLaws lib ->
     length (butter_filter rt raw cutoff fs bt order zp) = length raw).
Proof.
  intros lib rt raw cutoff fs bt order zp. split.
  - intros Hd. pose proof (butter_filter_degenerate rt raw cutoff fs bt order zp Hd) as E.
    split; [exact E|]. intros Hfin. rewrite E. now apply nan_to_zero_finite.
  - intros Hlaws. now apply length_butter_filter.
Qed.

Lemma C7_witness :
  butter_filter (lib := Reference.exact) Reference.cpu_only
    [Finite 1; Finite 2; Finite 3; Finite 4; Finite 5] (Scalar 10) 1000 low 2 true
  = [1; 2; 3; 4; 5] /\
  length (butter_filter (lib := Reference.exact) Reference.cpu_only
            Samples.constant_trace (Scalar 10) 1000 low 2 true) = 12%nat.
Proof.
  destruct (C7_filter_degenerate_inputs Reference.exact Reference.cpu_only
              [Finite 1; Finite 2; Finite 3; Finite 4; Finite 5]
              (Scalar 10) 1000 low 2 true) as [H _].
  destruct (C7_filter_degenerate_inputs Reference.exact Reference.cpu_only
              Samples.constant_trace (Scalar 10) 1000 low 2 true) as [_ H'].
  split.
  - apply H. right. left. reflexivity.
  - apply H'. exact exact_laws.
Defined.

End FilterClaims.

(** ** A constant trace through a band-pass configuration *)

Section ConstantTrace.
Import Numpy SignalProcessing.
Local Open Scope Q_scope.



Section WithLibrary.
Context {lib : SciPy} (rt : Runtime).










End WithLibrary.

End ConstantTrace.

Section ConstantTraceClaims.
Import Numpy SignalProcessing.
Local Open Scope Q_scope.





End ConstantTraceClaims.

(** ** The denoiser *)

Section DenoiserFacts.
Import Numpy SignalProcessing.
Local Open Scope Q_scope.

Lemma length_set_nth {A} (x : list A) (i : nat) (v : A) :
  length (set_nth x i v) = length x.
Proof.
  revert i. induction x as [|y r IH]; intros [|i]; simpl; auto.
Qed.

Lemma nth_error_set_nth_other {A} (x : list A) (i j : nat) (v : A) :
  i <> j -> nth_error (set_nth x i v) j = nth_error x j.
Proof.
  revert i j. induction x as [|y r IH]; intros [|i] [|j] H; simpl; auto.
  contradiction.
Qed.

Lemma assign_at_frame {A} (idx : list nat) :
  forall (x values out : list A),
    assign_at x idx values = Some out ->
    length out = length x /\
    forall j, ~ In j idx -> nth_error out j = nth_error x j.
Proof.
  induction idx as [|i idx IH]; intros x [|v values] out H; simpl in H;
    try discriminate.
  - injection H as <-. auto.
  - destruct (Nat.ltb i (length x)); [|discriminate].
    apply IH in H. destruct H as [Hlen Hnth].
    rewrite length_set_nth in Hlen. split; [exact Hlen|].
    intros j Hj. rewrite Hnth by (intros Hin; apply Hj; now right).
    apply nth_error_set_nth_other. intros ->. apply Hj. now left.
Qed.

Lemma In_where_from (mask : list bool) :
  forall i j, In j (where_from i mask) ->
              exists k, j = (i + k)%nat /\ nth_error mask k = Some true.
Proof.
  induction mask as [|b r IH]; intros i j H; simpl in H; [contradiction|].
  destruct b.
  - destruct H as [<-|H].
    + exists 0%nat. split; [lia|reflexivity].
    + apply IH in H. destruct H as [k [-> Hk]]. exists (S k). split; [lia|exact Hk].
  - apply IH in H. destruct H as [k [-> Hk]]. exists (S k). split; [lia|exact Hk].
Qed.

Lemma In_where (mask : list bool) (j : nat) :
  In j (where_ mask) -> nth_error mask j = Some true.
Proof.
  intros H. apply In_where_from in H. destruct H as [k [-> Hk]]. exact Hk.
Qed.

Lemma length_where_from_negb (mask : list bool) (i : nat) :
  length (where_from i (map negb mask)) = unmasked mask.
Proof.
  unfold unmasked. revert i.
  induction mask as [|b r IH]; intros i; simpl; [reflexivity|].
  destruct b; simpl; now rewrite IH.
Qed.

Lemma take_in_range {A} (x : list A) (idx : list nat) :
  Forall (fun i => (i < length x)%nat) idx ->
  exists v, take x idx = Some v /\ length v = length idx.
Proof.
  induction 1 as [|i idx Hi _ IH]; simpl.
  - now exists [].
  - destruct IH as [v [-> Hv]].
    destruct (nth_error x i) as [a|] eqn:Ha.
    + exists (a :: v). simpl. now rewrite Hv.
    + apply nth_error_None in Ha. lia.
Qed.

Lemma assign_at_in_range {A} (idx : list nat) :
  forall (x values : list A),
    Forall (fun i => (i < length x)%nat) idx -> length values = length idx ->
    exists out, assign_at x idx values = Some out.
Proof.
  induction idx as [|i idx IH]; intros x [|v values] Hidx Hlen; simpl in Hlen;
    try lia.
  - now exists x.
  - inversion Hidx as [|? ? Hi Hrest]; subst. simpl.
    apply Nat.ltb_lt in Hi. rewrite Hi.
    apply IH; [|lia]. now rewrite length_set_nth.
Qed.

Lemma where_in_range (mask : list bool) :
  Forall (fun i => (i < length mask)%nat) (where_ mask).
Proof.
  apply Forall_forall. intros j Hj. apply In_where in Hj.
  apply nth_error_Some. congruence.
Qed.

Section WithLibrary.
Context {lib : SciPy}.

Lemma denoise_returns (signal time : list Q) (mask : list bool)
    (control : option (list Q)) (aggressive : bool) :
  length time = length signal -> length mask = length signal ->
  (forall x y, length x = length y -> interp1d x y <> None) ->
  exists out, advanced_denoise_signal signal time mask control aggressive = Some out.
Proof.
  intros Ht Hm Hinterp. unfold advanced_denoise_signal.
  destruct (negb (any mask)); [now exists signal|].
  destruct (Nat.ltb _ 2); [now exists signal|].
  assert (Hvalid : Forall (fun i => (i < length signal)%nat) (where_ (map negb mask))).
  { rewrite <- Hm, <- (length_map negb mask). apply where_in_range. }
  assert (Hart : Forall (fun i => (i < length signal)%nat) (where_ mask)).
  { rewrite <- Hm. apply where_in_range. }
  destruct (take_in_range time (where_ (map negb mask))) as [tv [-> Htv]];
    [now rewrite Ht|].
  destruct (take_in_range signal (where_ (map negb mask)) Hvalid) as [sv [-> Hsv]].
  simpl.
  destruct (interp1d tv sv) as [interp_func|] eqn:Hi;
    [|exfalso; apply (Hinterp tv sv); [lia|exact Hi]].
  simpl.
  assert (Hsimple : exists out,
            bind (take time (where_ mask))
                 (fun ta => assign_at signal (where_ mask) (map interp_func ta))
            = Some out).
  { destruct (take_in_range time (where_ mask)) as [ta [-> Hta]];
      [now rewrite Ht|].
    simpl. apply assign_at_in_range; [exact Hart|]. now rewrite length_map. }
  destruct control as [c|]; [|exact Hsimple].
  destruct (aggressive && _)%bool; [|exact Hsimple].
  match goal with
  | |- exists out, match ?b with _ => _ end = _ => destruct b as [r|]
  end; [now exists r|exact Hsimple].
Qed.

Lemma denoise_frame (signal time : list Q) (mask : list bool)
    (control : option (list Q)) (aggressive : bool) (out : list Q) :
  advanced_denoise_signal signal time mask control aggressive = Some out ->
  length out = length signal /\
  forall i, nth_error mask i <> Some true -> nth_error out i = nth_error signal i.
Proof.
  unfold advanced_denoise_signal.
  destruct (negb (any mask)); [intros [= <-]; auto|].
  destruct (Nat.ltb _ 2); [intros [= <-]; auto|].
  destruct (take time _) as [tv|]; simpl; [|discriminate].
  destruct (take signal _) as [sv|]; simpl; [|discriminate].
  destruct (interp1d tv sv) as [interp_func|]; simpl; [|discriminate].
  assert (Hassign : forall values r,
            assign_at signal (where_ mask) values = Some r ->
            length r = length signal /\
            forall i, nth_error mask i <> Some true ->
                      nth_error r i = nth_error signal i).
  { intros values r H. apply assign_at_frame in H. destruct H as [Hl Hn].
    split; [exact Hl|]. intros i Hi. apply Hn. intros Hin. apply Hi.
    now apply In_where. }
  assert (Hsimple : forall r,
            bind (take time (where_ mask))
                 (fun ta => assign_at signal (where_ mask) (map interp_func ta))
            = Some r ->
            length r = length signal /\
            forall i, nth_error mask i <> Some true ->
                      nth_error r i = nth_error signal i).
  { intros r. destruct (take time (where_ mask)) as [ta|]; simpl; [|discriminate].
    apply Hassign. }
  destruct control as [c|]; [|apply Hsimple].
  destruct (aggressive && _)%bool; [|apply Hsimple].
  match goal with
  | |- match ?b with _ => _ end = _ -> _ => destruct b as [r|] eqn:Hblend
  end; [|apply Hsimple].
  intros [= <-]. revert Hblend.
  destruct (take c _); simpl; [|discriminate].
  destruct (linregress _ _); simpl; [|discriminate].
  destruct (take c (where_ mask)); simpl; [|discriminate].
  destruct (take time (where_ mask)); simpl; [|discriminate].
  destruct (broadcast _ _ _); simpl; [|discriminate].
  apply Hassign.
Qed.

(** C10.  On a signal, a time axis and a mask of one length the denoiser
    returns a trace (the interpolant being constructible); whatever it
    returns has the length of the signal and agrees with it at every index
    the mask does not flag; and with fewer than two clean samples it returns
    the signal itself. *)
Theorem C10_denoiser_keeps_clean_samples :
  forall (signal time : list Q) (mask : list bool) (control : option (list Q))
         (aggressive : bool),
    (length time = length signal -> length mask = length signal ->
     (forall x y, length x = length y -> interp1d x y <> None) ->
     exists out,
       advanced_denoise_signal signal time mask control aggressive = Some out) /\
    (forall out,
       advanced_denoise_signal signal time mask control aggressive = Some out ->
       length out = length signal /\
       forall i, nth_error mask i = Some false ->
                 nth_error out i = nth_error signal i) /\
    ((unmasked mask < 2)%nat ->
     advanced_denoise_signal signal time mask control aggressive = Some signal).
Proof.
  intros signal time mask control aggressive. split; [|split].
  - apply denoise_returns.
  - intros out H. apply denoise_frame in H. destruct H as [Hl Hn].
    split; [exact Hl|]. intros i Hi. apply Hn. congruence.
  - intros Hfew. unfold advanced_denoise_signal.
    destruct (negb (any mask)); [reflexivity|].
    unfold where_. rewrite length_where_from_negb.
    apply Nat.ltb_lt in Hfew. now rewrite Hfew.
Qed.

End WithLibrary.

Lemma C10_witness :
  (exists out,
     advanced_denoise_signal (lib := Reference.exact)
       [1; 2; 100; 4] [0; 1; 2; 3] [false; false; true; false] None false
     = Some out /\
     nth_error out 1 = Some 2 /\ nth_error out 3 = Some 4) /\
  advanced_denoise_signal (lib := Reference.exact)
    [1; 2; 100] [0; 1; 2] [true; false; true] None false = Some [1; 2; 100].
Proof.
  destruct (C10_denoiser_keeps_clean_samples (lib := Reference.exact)
              [1; 2; 100; 4] [0; 1; 2; 3] [false; false; true; false] None false)
    as (_ & Hframe & _).
  destruct (C10_denoiser_keeps_clean_samples (lib := Reference.exact)
              [1; 2; 100] [0; 1; 2] [true; false; true] None false)
    as (_ & _ & Hfew).
  split.
  - eexists. split; [reflexivity|].
    split; [apply (proj2 (Hframe _ eq_refl) 1%nat)
           |apply (proj2 (Hframe _ eq_refl) 3%nat)]; reflexivity.
  - apply Hfew. unfold unmasked. simpl. lia.
Defined.

End DenoiserFacts.

(** ** The peri-event histogram *)

Section PsthFacts.
Import Numpy Psth.
Local Open Scope Q_scope.







End PsthFacts.

Section PsthClaims.
Import Numpy Psth.
Local Open Scope Q_scope.


End PsthClaims.

(** ** The event metrics *)

Section PeakFacts.
Import Numpy PeakAnalysis.
Local Open Scope Q_scope.



Lemma slice_in_range {A} (x : list A) (a b : Z) :
  (0 <= a <= b)%Z -> (b <= Z.of_nat (length x))%Z ->
  slice x a b = firstn (Z.to_nat (b - a)) (skipn (Z.to_nat a) x).
Proof.
  intros Hab Hb. unfold slice, slice_bound.
  destruct (Z.ltb_spec a 0); destruct (Z.ltb_spec b 0); try lia.
  rewrite !Z.min_l by lia. f_equal. lia.
Qed.

Lemma length_slice {A} (x : list A) (a b : Z) :
  (0 <= a <= b)%Z -> (b <= Z.of_nat (length x))%Z ->
  length (slice x a b) = Z.to_nat (b - a).
Proof.
  intros Hab Hb. rewrite slice_in_range by assumption.
  rewrite length_firstn, length_skipn. lia.
Qed.

Lemma nth_error_slice {A} (x : list A) (a b : Z) (k : nat) :
  (0 <= a <= b)%Z -> (b <= Z.of_nat (length x))%Z ->
  (k < Z.to_nat (b - a))%nat ->
  nth_error (slice x a b) k = nth_error x (Z.to_nat a + k).
Proof.
  intros Hab Hb Hk. rewrite slice_in_range by assumption.
  rewrite nth_error_firstn.
  destruct (Nat.ltb_spec k (Z.to_nat (b - a))); [|lia].
  apply nth_error_skipn.
Qed.















End PeakFacts.

Section PeakSteps.
Import Numpy PeakAnalysis.
Local Open Scope Q_scope.

Lemma peak_step_unfold (vs : list Z) (signal time : list Q) (m : metrics) (p : Z) :
  peak_step vs signal time m p =
  let preceding_valleys := filter (fun v => (v <? p)%Z) vs in
  let following_valleys := filter (fun v => (p <? v)%Z) vs in
  if negb (any_nonzero preceding_valleys) || negb (any_nonzero following_valleys)
  then append_nan m
  else
    match last_item preceding_valleys, hd_error following_valleys with
    | Some pre_v_idx, Some post_v_idx =>
        enclosed_step signal time m pre_v_idx post_v_idx p
    | _, _ => append_nan m
    end.
Proof. reflexivity. Qed.

Lemma length_zip_with_min {A B C} (f : A -> B -> C) (a : list A) (b : list B) :
  length (zip_with f a b) = Nat.min (length a) (length b).
Proof.
  revert b. induction a as [|x a IH]; intros [|y b]; simpl; auto.
Qed.

Lemma length_removelast_pred {A} (l : list A) :
  length (removelast l) = (length l - 1)%nat.
Proof.
  induction l as [|x [|y r] IH]; simpl in *; auto. rewrite IH. lia.
Qed.






Section Enclosed.
Variables signal time : list Q.
Variables pre post p : Z.
Hypothesis Hlen : length time = length signal.
Hypothesis Hpre : (0 <= pre < p)%Z.
Hypothesis Hpost : (p < post < Z.of_nat (length signal))%Z.

Let base := py_min (sample signal pre) (sample signal post).
Let half := base + (sample signal p - base) / 2.
Let rise_indices := at_or_above half (slice signal pre (p + 1)) pre.
Let decay_indices := at_or_above half (slice signal p (post + 1)) p.







End Enclosed.

End PeakSteps.

Section PeakLoop.
Import Numpy PeakAnalysis.
Local Open Scope Q_scope.

Variables signal time : list Q.
Variable vs : list Z.
Hypothesis Hlen : length time = length signal.
Hypothesis Hsorted : StronglySorted Z.lt vs.
Hypothesis Hrange : Forall (fun v => (0 <= v < Z.of_nat (length signal))%Z) vs.







End PeakLoop.

Section PeakClaims.
Import Numpy PeakAnalysis.
Local Open Scope Q_scope.






End PeakClaims.

(** ** The correlation analyses *)

(** ** The correlation analyses *)

Section RoundedCorrelation.
Import Correlation.
Context {ops : Float64}.
Local Open Scope R_scope.

Local Abbreviation slice := Numpy.slice.

Lemma slice_map {A B} (f : A -> B) (x : list A) (a b : Z) :
  slice (map f x) a b = map f (slice x a b).
Proof.
  unfold Numpy.slice. rewrite length_map, skipn_map, firstn_map. reflexivity.
Qed.

Lemma py_max_diag (a : R) : py_max a a = a.
Proof. unfold py_max. destruct (Rlt_dec a a); reflexivity. Qed.

Lemma py_min_diag (a : R) : py_min a a = a.
Proof. unfold py_min. destruct (Rlt_dec a a); reflexivity. Qed.

Lemma length_interp (x xp fp s : list R) :
  interp x xp fp = Some s -> length s = length x.
Proof.
  unfold interp. destruct xp as [|x0 xp]; [discriminate|].
  destruct fp as [|y0 fp]; [discriminate|].
  destruct (Nat.eqb _ _); [|discriminate].
  intros [= <-]. apply length_map.
Qed.

Lemma length_linspace_R (a b : R) (n : nat) : length (linspace a b n) = n.
Proof.
  unfold linspace.
  set (y := if Nat.ltb 0 (n - 1) then _ else _).
  assert (Hy : length y = n).
  { unfold y. destruct (Nat.ltb 0 (n - 1)); [destruct (Req_dec_T _ 0)|];
      now rewrite length_map, length_seq. }
  destruct (Nat.ltb_spec 1 n) as [H|H]; [|exact Hy].
  rewrite length_app, length_removelast_pred, Hy. simpl. lia.
Qed.

Lemma on_common_grid_self (time signal s : list R) (first : R) (rest : list R) :
  time = first :: rest ->
  interp (linspace first (last time 0) (length time)) time signal = Some s ->
  on_common_grid (time, signal) (time, signal) =
  Some (linspace first (last time 0) (length time), s, s).
Proof.
  intros E H. unfold on_common_grid.
  rewrite E in *. rewrite py_max_diag, py_min_diag, Nat.min_id, H. reflexivity.
Qed.

(** The coefficient is clipped. *)
Lemma clip_range (c : result) (r : R) : clip c = Some r -> -1 <= r <= 1.
Proof.
  destruct c as [q|[|]|]; simpl; intros [= <-]; try lra.
  unfold Rmin, Rmax.
  destruct (Rle_dec q (-1)); destruct (Rle_dec _ 1); lra.
Qed.

Lemma corrcoef_range (x y : list R) (r : R) : corrcoef x y = Some r -> -1 <= r <= 1.
Proof.
  unfold corrcoef. destruct (Nat.ltb _ 2); [discriminate|]. apply clip_range.
Qed.

Lemma accurate_bounds (u approx exact : R) :
  0 <= exact -> accurate u approx exact ->
  (1 - u) * exact <= approx <= (1 + u) * exact.
Proof.
  intros He H. unfold accurate in H. rewrite (Rabs_pos_eq exact He) in H.
  unfold Rabs in H. destruct (Rcase_abs (approx - exact)); lra.
Qed.

(** The coefficient of a trace with itself, from its variance. *)
Lemma corrcoef_self_value (s : list R) :
  (2 <= length s)%nat -> fsqrt (variance s) <> 0 ->
  corrcoef s s =
  Some (Rmin (Rmax (fdiv (fdiv (variance s) (fsqrt (variance s)))
                         (fsqrt (variance s))) (-1)) 1).
Proof.
  intros Hn Hsd. unfold corrcoef.
  destruct (Nat.ltb_spec (length s) 2) as [H|_]; [lia|].
  fold (variance s). unfold divide.
  destruct (Req_dec_T (fsqrt (variance s)) 0) as [E|_]; [contradiction|].
  cbn [divide_on]. unfold divide.
  destruct (Req_dec_T (fsqrt (variance s)) 0) as [E|_]; [contradiction|].
  reflexivity.
Qed.

(** Three roundings off the exact quotient 1. *)
Lemma self_quotient_near_one (u v sd q1 q2 : R) :
  0 < v -> 0 <= u <= 1 / 4 ->
  accurate u sd (sqrt v) -> accurate u q1 (v / sd) -> accurate u q2 (q1 / sd) ->
  sd <> 0 /\ 1 - 4 * u <= q2.
Proof.
  intros Hv Hu Hsd Hq1 Hq2.
  assert (He : 0 < sqrt v) by now apply sqrt_lt_R0.
  assert (Hee : sqrt v * sqrt v = v) by (apply sqrt_sqrt; lra).
  apply accurate_bounds in Hsd; [|lra].
  assert (Hsdpos : 0 < sd) by nra.
  assert (Ha : 0 < v / sd) by (apply Rdiv_lt_0_compat; lra).
  apply accurate_bounds in Hq1; [|lra].
  assert (Hq1pos : 0 < q1) by nra.
  assert (Hb : 0 < q1 / sd) by (apply Rdiv_lt_0_compat; lra).
  apply accurate_bounds in Hq2; [|lra].
  split; [lra|].
  assert (E1 : v / sd * sd = v) by (field; lra).
  assert (E2 : q1 / sd * sd = q1) by (field; lra).
  destruct Hsd as [_ Hsd]. destruct Hq1 as [Hq1 _]. destruct Hq2 as [Hq2 _].
  assert (Hu1 : 0 <= 1 - u) by lra.
  assert (H1 : (1 - u) * v <= q1 * sd).
  { apply (Rmult_le_compat_r sd) in Hq1; [|lra].
    rewrite Rmult_assoc, E1 in Hq1. exact Hq1. }
  assert (H2 : (1 - u) * q1 <= q2 * sd).
  { apply (Rmult_le_compat_r sd) in Hq2; [|lra].
    rewrite Rmult_assoc, E2 in Hq2. exact Hq2. }
  assert (H3 : (1 - u) * ((1 - u) * v) <= q2 * (sd * sd)).
  { apply (Rmult_le_compat_l (1 - u)) in H1; [|exact Hu1].
    apply (Rmult_le_compat_r sd) in H2; [|lra]. lra. }
  assert (H4 : sd * sd <= (1 + u) * (1 + u) * v).
  { assert (sd * sd <= (1 + u) * sqrt v * ((1 + u) * sqrt v))
      by (apply Rmult_le_compat; lra).
    assert (E : (1 + u) * sqrt v * ((1 + u) * sqrt v)
                = (1 + u) * (1 + u) * (sqrt v * sqrt v)) by ring.
    rewrite E, Hee in H. exact H. }
  destruct (Rle_dec (1 - 4 * u) q2) as [|Hlt]; [assumption|exfalso].
  assert (Hq : q2 < 1 - 4 * u) by lra.
  assert (Hss : 0 < sd * sd) by (apply Rmult_lt_0_compat; assumption).
  assert (H5 : q2 * (sd * sd) < (1 - 4 * u) * (sd * sd))
    by (apply Rmult_lt_compat_r; assumption).
  assert (H6 : (1 - 4 * u) * (sd * sd) <= (1 - 4 * u) * ((1 + u) * (1 + u) * v))
    by (apply Rmult_le_compat_l; lra).
  assert (H7 : (1 - 4 * u) * ((1 + u) * (1 + u)) <= (1 - u) * (1 - u)).
  { assert (0 <= u * u) by (apply Rmult_le_pos; lra).
    assert (0 <= u * u * u) by (apply Rmult_le_pos; lra).
    ring_simplify. lra. }
  assert (H8 : (1 - 4 * u) * ((1 + u) * (1 + u) * v) <= (1 - u) * ((1 - u) * v)).
  { apply (Rmult_le_compat_r v) in H7; lra. }
  lra.
Qed.

Lemma corrcoef_self_near_one (s : list R) (u : R) :
  (2 <= length s)%nat -> 0 < variance s -> 0 <= u <= 1 / 4 ->
  accurate u (fsqrt (variance s)) (sqrt (variance s)) ->
  accurate u (fdiv (variance s) (fsqrt (variance s)))
             (variance s / fsqrt (variance s)) ->
  accurate u (fdiv (fdiv (variance s) (fsqrt (variance s))) (fsqrt (variance s)))
             (fdiv (variance s) (fsqrt (variance s)) / fsqrt (variance s)) ->
  exists r, corrcoef s s = Some r /\ 1 - 4 * u <= r <= 1.
Proof.
  intros Hn Hv Hu H1 H2 H3.
  destruct (self_quotient_near_one u _ _ _ _ Hv Hu H1 H2 H3) as [Hsd Hq].
  rewrite (corrcoef_self_value s Hn Hsd). eexists. split; [reflexivity|].
  unfold Rmin, Rmax.
  destruct (Rle_dec _ (-1)); destruct (Rle_dec _ 1); lra.
Qed.

End RoundedCorrelation.

Section LagWindow.
Import Correlation.
Context {ops : Float64}.
Local Open Scope R_scope.

Local Abbreviation slice := Numpy.slice.

Lemma nth_error_seq_lt (a n i : nat) :
  (i < n)%nat -> nth_error (seq a n) i = Some (a + i)%nat.
Proof.
  revert a i. induction n as [|n IH]; intros a i H; [lia|].
  destruct i as [|i]; simpl; [f_equal; lia|].
  rewrite IH by lia. f_equal. lia.
Qed.

Lemma length_correlate_full (a v : list R) :
  length (correlate_full a v) = (length a + length v - 1)%nat.
Proof. unfold correlate_full. now rewrite length_map, length_seq. Qed.

(** The middle entry of the full self-correlation is the inner product of
    the trace with itself. *)
Lemma correlate_full_self_centre (s : list R) :
  (1 <= length s)%nat ->
  nth_error (correlate_full s s) (length s - 1) = Some (fdot s s).
Proof.
  intros H. unfold correlate_full.
  rewrite nth_error_map, nth_error_seq_lt by lia. cbn [option_map].
  destruct (Nat.ltb_spec (0 + (length s - 1)) (length s - 1)); [lia|].
  replace (0 + (length s - 1) - (length s - 1))%nat with 0%nat by lia.
  cbn [skipn]. rewrite Nat.min_id, firstn_all. reflexivity.
Qed.

(** [np.argmax] on an array of numbers whose largest value occurs once. *)
Lemma argmax_from_below (xs : list result) :
  forall i best bv,
    Forall (fun x => exists v, x = number v /\ v <= bv) xs ->
    argmax_from xs i best (number bv) = best.
Proof.
  induction xs as [|x xs IH]; intros i best bv H; [reflexivity|].
  inversion H as [|? ? [v [-> Hv]] Hxs]; subst.
  cbn [argmax_from below]. destruct (Rlt_dec bv v); [lra|]. now apply IH.
Qed.

Lemma argmax_from_unique (xs : list result) :
  forall i best bv t top,
    nth_error xs t = Some (number top) -> bv < top ->
    (forall j w, nth_error xs j = Some w -> j <> t ->
                 exists v, w = number v /\ v < top) ->
    argmax_from xs i best (number bv) = (i + t)%nat.
Proof.
  induction xs as [|x xs IH]; intros i best bv t top Ht Hbv Hothers.
  - destruct t; discriminate.
  - destruct t as [|t].
    + injection Ht as ->. cbn [argmax_from below].
      destruct (Rlt_dec bv top); [|lra].
      rewrite argmax_from_below; [lia|].
      apply Forall_forall. intros w Hw. apply In_nth_error in Hw.
      destruct Hw as [j Hj].
      destruct (Hothers (S j) w Hj ltac:(lia)) as [v [-> Hv]].
      exists v. split; [reflexivity|lra].
    + destruct (Hothers 0%nat x eq_refl ltac:(lia)) as [v [-> Hv]].
      assert (Hrest : forall j w, nth_error xs j = Some w -> j <> t ->
                                  exists v, w = number v /\ v < top).
      { intros j w Hj Hne. apply (Hothers (S j) w Hj). lia. }
      cbn [argmax_from below]. destruct (Rlt_dec bv v).
      * rewrite (IH (S i) i v t top Ht Hv Hrest). lia.
      * rewrite (IH (S i) best bv t top Ht Hbv Hrest). lia.
Qed.

Lemma argmax_unique (xs : list result) (t : nat) (top : R) :
  nth_error xs t = Some (number top) ->
  (forall j w, nth_error xs j = Some w -> j <> t ->
               exists v, w = number v /\ v < top) ->
  argmax xs = Some t.
Proof.
  intros Ht Hothers. destruct xs as [|x xs]; [destruct t; discriminate|].
  destruct t as [|t].
  - injection Ht as ->. cbn [argmax]. f_equal. apply argmax_from_below.
    apply Forall_forall. intros w Hw. apply In_nth_error in Hw.
    destruct Hw as [j Hj].
    destruct (Hothers (S j) w Hj ltac:(lia)) as [v [-> Hv]].
    exists v. split; [reflexivity|lra].
  - destruct (Hothers 0%nat x eq_refl ltac:(lia)) as [v [-> Hv]].
    cbn [argmax]. f_equal.
    rewrite (argmax_from_unique xs 1 0 v t top Ht Hv); [reflexivity|].
    intros j w Hj Hne. apply (Hothers (S j) w Hj). lia.
Qed.

(** The analysis reports the entry that exceeds the others in magnitude. *)
Lemma peak_of_peaks_at (lags : list R) (values : list result) (t : nat)
    (lag top : R) :
  nth_error lags t = Some lag ->
  nth_error values t = Some (number top) ->
  (forall j w, nth_error values j = Some w -> j <> t ->
               exists v, w = number v /\ Rabs v < Rabs top) ->
  peak_of (Some (lags, values)) = cross_reported lag (number top).
Proof.
  intros Hlag Htop Hothers. unfold peak_of.
  rewrite (argmax_unique (map magnitude values) t (Rabs top)).
  - now rewrite Hlag, Htop.
  - now rewrite nth_error_map, Htop.
  - intros j w Hj Hne. rewrite nth_error_map in Hj.
    destruct (nth_error values j) as [x|] eqn:Hx; [|discriminate].
    injection Hj as <-.
    destruct (Hothers j x Hx Hne) as [v [-> Hv]].
    exists (Rabs v). split; [reflexivity|exact Hv].
Qed.

(** A window of lags that is not empty is a stretch of the normalised
    correlation around its middle entry, which it holds at lag 0. *)
Lemma lag_window_shape (grid s1 s2 : list R) (max_lag : R)
    (lags : list R) (values : list result) :
  length s1 = length s2 -> (1 <= length s1)%nat ->
  lag_window grid s1 s2 max_lag = Some (lags, values) -> lags <> [] ->
  exists from t,
    length values = length lags /\
    (from + t = length s1 - 1)%nat /\
    nth_error lags t = Some 0 /\
    forall j, (j < length lags)%nat ->
      nth_error values j =
      nth_error (map (fun c => divide c (fmul (norm s1) (norm s2)))
                     (correlate_full s1 s2)) (from + j).
Proof.
  intros Hlen Hn. unfold lag_window.
  destruct grid as [|c0 [|c1 cs]]; try discriminate.
  destruct (Req_dec_T (fsub c1 c0) 0) as [|Hdt]; [discriminate|].
  set (cc := map _ (correlate_full s1 s2)).
  assert (Hcc : length cc = (length s1 + length s1 - 1)%nat).
  { unfold cc. rewrite length_map, length_correlate_full. lia. }
  set (mls := py_int (fdiv max_lag (fsub c1 c0))).
  set (center := (Z.of_nat (length cc) / 2)%Z).
  assert (Hcenter : center = (Z.of_nat (length s1) - 1)%Z).
  { unfold center. rewrite Hcc. symmetry.
    apply (Z.div_unique _ 2 _ 1); lia. }
  set (ls := Z.max 0 (center - mls)).
  set (le := Z.min (Z.of_nat (length cc)) (center + mls + 1)).
  intros [= <- <-] Hne.
  assert (Hlt : (ls < le)%Z).
  { destruct (Z_lt_dec ls le) as [|Hge]; [assumption|].
    exfalso. apply Hne.
    replace (Z.to_nat (le - center - (ls - center))) with 0%nat by lia.
    reflexivity. }
  assert (Hls : (0 <= ls <= center)%Z) by (unfold ls, le in *; lia).
  assert (Hle : (center < le <= Z.of_nat (length cc))%Z) by (unfold ls, le in *; lia).
  exists (Z.to_nat ls), (Z.to_nat (center - ls)).
  split; [rewrite length_slice, length_map, length_seq by lia; f_equal; lia|].
  split; [lia|]. split.
  - rewrite nth_error_map, nth_error_seq_lt by lia. cbn [option_map].
    f_equal. unfold lag_time.
    replace (ls - center + Z.of_nat (0 + Z.to_nat (center - ls)))%Z with 0%Z by lia.
    reflexivity.
  - intros j Hj. rewrite length_map, length_seq in Hj.
    apply nth_error_slice; lia.
Qed.

(** With it the middle entry: the inner product of the traces over the
    product of their norms. *)
Lemma lag_window_zero_lag (grid s : list R) (max_lag : R)
    (lags : list R) (values : list result) :
  (1 <= length s)%nat ->
  lag_window grid s s max_lag = Some (lags, values) -> lags <> [] ->
  exists t,
    nth_error lags t = Some 0 /\
    nth_error values t = Some (divide (fdot s s) (fmul (norm s) (norm s))).
Proof.
  intros Hn Hwin Hne.
  destruct (lag_window_shape grid s s max_lag lags values eq_refl Hn Hwin Hne)
    as (from & t & _ & Hmid & Hlag & Hvalues).
  exists t. split; [exact Hlag|].
  rewrite Hvalues by (apply nth_error_Some; congruence).
  rewrite Hmid, nth_error_map, correlate_full_self_centre by exact Hn.
  reflexivity.
Qed.

End LagWindow.

(** *** Without rounding *)

Section ExactCorrelation.
Import Correlation.
Local Open Scope R_scope.

Local Abbreviation zip_with := Numpy.zip_with.
Local Abbreviation slice := Numpy.slice.

Lemma zip_with_diag {A B} (f : A -> A -> B) (l : list A) :
  zip_with f l l = map (fun a => f a a) l.
Proof. induction l as [|a l IH]; simpl; congruence. Qed.

Lemma sum_nonneg (l : list R) : Forall (fun v => 0 <= v) l -> 0 <= sum l.
Proof. induction 1 as [|x r Hx Hr IH]; simpl; lra. Qed.

Lemma sum_zero_all_zero (l : list R) :
  Forall (fun v => 0 <= v) l -> sum l = 0 -> Forall (fun v => v = 0) l.
Proof.
  induction 1 as [|x r Hx Hr IH]; simpl; intros H; constructor.
  - pose proof (sum_nonneg r Hr). lra.
  - apply IH. pose proof (sum_nonneg r Hr). lra.
Qed.

Lemma squares_nonneg {A} (g : A -> R) (l : list A) :
  Forall (fun v => 0 <= v) (map (fun a => g a * g a) l).
Proof.
  apply Forall_forall. intros v Hv. apply in_map_iff in Hv.
  destruct Hv as [a [<- _]]. nra.
Qed.

Lemma sum_squares_zero {A} (g : A -> R) (l : list A) :
  sum (map (fun a => g a * g a) l) = 0 -> Forall (fun a => g a = 0) l.
Proof.
  intros H. pose proof (sum_zero_all_zero _ (squares_nonneg g l) H) as Hall.
  rewrite Forall_forall in *. intros a Ha.
  assert (Hin : In (g a * g a) (map (fun a => g a * g a) l))
    by (apply in_map_iff; now exists a).
  specialize (Hall _ Hin). nra.
Qed.

Lemma dot_diag (s : list R) : dot s s = sum (map (fun a => a * a) s).
Proof. unfold dot. now rewrite zip_with_diag. Qed.

Lemma dot_diag_nonneg (s : list R) : 0 <= dot s s.
Proof. rewrite dot_diag. apply sum_nonneg, (squares_nonneg (fun a => a)). Qed.

Lemma dot_diag_pos (s : list R) : ~ Forall (eq 0) s -> 0 < dot s s.
Proof.
  intros H. pose proof (dot_diag_nonneg s) as Hge.
  destruct (Req_dec (dot s s) 0) as [E|]; [|lra].
  exfalso. apply H. rewrite dot_diag in E.
  apply (sum_squares_zero (fun a => a)) in E.
  rewrite Forall_forall in *. intros a Ha. symmetry. now apply E.
Qed.

Lemma dot_comm (a b : list R) : dot a b = dot b a.
Proof.
  unfold dot. revert b. induction a as [|x a IH]; intros [|y b]; simpl; auto.
  rewrite Rmult_comm. f_equal. apply IH.
Qed.

Lemma dot_cons (x y : R) (a b : list R) : dot (x :: a) (y :: b) = x * y + dot a b.
Proof. reflexivity. Qed.

Lemma dot_zeros_l (k : nat) : forall u v, dot u (repeat 0 k ++ v) = dot (skipn k u) v.
Proof.
  induction k as [|k IH]; intros u v; [reflexivity|].
  destruct u as [|a u]; [reflexivity|].
  simpl repeat. simpl app. rewrite dot_cons, IH. simpl skipn. lra.
Qed.

Lemma dot_zeros_only (k : nat) (v : list R) : dot (repeat 0 k) v = 0.
Proof.
  revert v. induction k as [|k IH]; intros [|y v]; try reflexivity.
  simpl repeat. rewrite dot_cons, IH. lra.
Qed.

Lemma dot_app_zeros (u v : list R) (k : nat) : dot (u ++ repeat 0 k) v = dot u v.
Proof.
  revert v. induction u as [|a u IH]; intros v.
  - simpl app. rewrite dot_zeros_only. reflexivity.
  - destruct v as [|y v]; [reflexivity|].
    simpl app. rewrite !dot_cons, IH. reflexivity.
Qed.

Lemma dot_app (a b a' b' : list R) :
  length a = length b -> dot (a ++ a') (b ++ b') = dot a b + dot a' b'.
Proof.
  revert b. induction a as [|x a IH]; intros [|y b] H; simpl in H; try lia.
  - simpl. unfold dot at 2. simpl. lra.
  - simpl app. rewrite !dot_cons, IH by lia. lra.
Qed.

Lemma sum_square_difference (sign : R) (x y : list R) :
  length x = length y ->
  sum (zip_with (fun a b => (a - sign * b) * (a - sign * b)) x y) =
  dot x x - 2 * sign * dot x y + sign * sign * dot y y.
Proof.
  revert y. induction x as [|a x IH]; intros [|b y] H; simpl in H; try lia.
  - unfold dot. simpl. lra.
  - simpl zip_with. simpl sum. rewrite IH by lia. rewrite !dot_cons. lra.
Qed.

Lemma zip_squares_zero (sign : R) (x y : list R) :
  length x = length y ->
  sum (zip_with (fun a b => (a - sign * b) * (a - sign * b)) x y) = 0 ->
  x = map (fun b => sign * b) y.
Proof.
  revert y. induction x as [|a x IH]; intros [|b y] H Hs; simpl in H; try lia.
  - reflexivity.
  - simpl in Hs.
    assert (Hrest : 0 <= sum (zip_with (fun a b => (a - sign * b) * (a - sign * b)) x y)).
    { apply sum_nonneg, Forall_forall. intros v Hv. clear -Hv.
      revert y Hv. induction x as [|a x IH]; intros [|b y] Hv; simpl in Hv;
        try contradiction.
      destruct Hv as [<-|Hv]; [apply (Rle_0_sqr (a - sign * b))|eauto]. }
    pose proof (Rle_0_sqr (a - sign * b)) as Hsq. unfold Rsqr in Hsq.
    assert (Ha : (a - sign * b) * (a - sign * b) = 0) by lra.
    assert (Ha' : a - sign * b = 0)
      by (destruct (Rmult_integral _ _ Ha); assumption).
    simpl. f_equal; [lra|]. apply IH; [lia|lra].
Qed.

Lemma shifted_copy_zero (f : R -> R) (k : nat) :
  f 0 = 0 -> (1 <= k)%nat ->
  forall s, s ++ repeat 0 k = map f (repeat 0 k ++ s) -> Forall (eq 0) s.
Proof.
  intros Hf Hk. induction s as [|a s IH]; intros H; [constructor|].
  destruct k as [|k]; [lia|].
  simpl in H. rewrite Hf in H. injection H as Ha Hrest.
  subst a. constructor; [reflexivity|]. apply IH.
  simpl. rewrite Hf.
  rewrite Hrest. rewrite !map_app. simpl map. rewrite Hf.
  replace (map f (repeat 0 k) ++ 0 :: map f s)
    with ((map f (repeat 0 k) ++ [0]) ++ map f s) by (rewrite <- app_assoc; reflexivity).
  replace (0 :: map f (repeat 0 k) ++ map f s)
    with ((0 :: map f (repeat 0 k)) ++ map f s) by reflexivity.
  f_equal.
  assert (Hz : map f (repeat 0 k) = repeat 0 k).
  { clear -Hf. induction k; simpl; congruence. }
  rewrite Hz. clear. induction k; simpl; congruence.
Qed.

Lemma skipn_repeat (j k : nat) : skipn j (repeat 0 k) = repeat 0 (k - j).
Proof.
  revert j. induction k as [|k IH]; intros [|j]; simpl; auto.
Qed.

Lemma zip_squares_nonneg (sign : R) (x y : list R) :
  0 <= sum (zip_with (fun a b => (a - sign * b) * (a - sign * b)) x y).
Proof.
  apply sum_nonneg, Forall_forall. intros v Hv.
  revert y Hv. induction x as [|a x IH]; intros [|b y] Hv; simpl in Hv;
    try contradiction.
  destruct Hv as [<-|Hv]; [apply (Rle_0_sqr (a - sign * b))|eauto].
Qed.

(** A trace that is not zero correlates with a shifted copy of itself
    strictly less than with itself. *)
Lemma shifted_dot_strict (s : list R) (k : nat) :
  (1 <= k)%nat -> ~ Forall (eq 0) s -> Rabs (dot (skipn k s) s) < dot s s.
Proof.
  intros Hk Hs.
  set (x := s ++ repeat 0 k). set (y := repeat 0 k ++ s).
  assert (Hlen : length x = length y)
    by (unfold x, y; rewrite !length_app; lia).
  assert (Hxy : dot x y = dot (skipn k s) s).
  { unfold x, y. rewrite dot_zeros_l, skipn_app, skipn_repeat.
    apply dot_app_zeros. }
  assert (Hxx : dot x x = dot s s).
  { unfold x. rewrite dot_app by reflexivity.
    rewrite dot_zeros_only. lra. }
  assert (Hyy : dot y y = dot s s).
  { unfold y. rewrite dot_app by reflexivity.
    rewrite dot_zeros_only. lra. }
  assert (Hstrict : forall sign,
            sign * sign = 1 ->
            0 < dot s s - 2 * sign * dot (skipn k s) s + dot s s).
  { intros sign Hsign.
    pose proof (sum_square_difference sign x y Hlen) as E.
    rewrite Hxx, Hxy, Hyy, Hsign in E.
    pose proof (zip_squares_nonneg sign x y) as Hge.
    destruct (Req_dec
                (sum (zip_with (fun a b => (a - sign * b) * (a - sign * b)) x y)) 0)
      as [Z|NZ]; [|lra].
    exfalso. apply Hs. apply (zip_squares_zero sign x y Hlen) in Z.
    apply (shifted_copy_zero (fun b => sign * b) k); [lra|exact Hk|exact Z]. }
  pose proof (Hstrict 1 ltac:(lra)) as H1.
  pose proof (Hstrict (-1) ltac:(lra)) as H2.
  apply Rabs_def1; lra.
Qed.

Lemma py_int_nonneg (x : R) : 0 <= x -> (0 <= py_int x)%Z.
Proof.
  intros Hx. unfold py_int. destruct (Rle_dec 0 x); [|contradiction].
  destruct (base_Int_part x) as [_ Hlow].
  assert (H : -1 < IZR (Int_part x)) by lra.
  apply lt_IZR in H. lia.
Qed.

Lemma not_constant_long (s : list R) : ~ constant s -> (2 <= length s)%nat.
Proof.
  intros H. destruct s as [|a [|b s]]; simpl; try lia; exfalso; apply H.
  - exists 0. constructor.
  - exists a. repeat constructor.
Qed.


Lemma accurate_exact (u x : R) : 0 <= u -> accurate u x x.
Proof.
  intros Hu. unfold accurate. rewrite Rminus_diag, Rabs_R0.
  apply Rmult_le_pos; [exact Hu|apply Rabs_pos].
Qed.

Lemma dot_firstn_min (a b : list R) :
  dot (firstn (Nat.min (length a) (length b)) a)
      (firstn (Nat.min (length a) (length b)) b) = dot a b.
Proof.
  revert b. induction a as [|x a IH]; intros [|y b]; try reflexivity.
  cbn [length Nat.min firstn]. rewrite !dot_cons, IH. reflexivity.
Qed.

(** The variance of a trace, the rounding left out. *)
Lemma variance_unrounded (s : list R) :
  variance (ops := unrounded) s =
  sum (map (fun a => (a - mean (ops := unrounded) s) * (a - mean (ops := unrounded) s)) s)
  * (1 / (INR (length s) - 1)).
Proof.
  unfold variance, cov_entry, deviations.
  cbn [fmul fdiv fdot fsub unrounded]. rewrite dot_diag, map_map. reflexivity.
Qed.

Lemma variance_positive (s : list R) :
  ~ constant s -> 0 < variance (ops := unrounded) s.
Proof.
  intros Hs. pose proof (not_constant_long s Hs) as Hn.
  rewrite variance_unrounded. set (m := mean s).
  set (SS := sum (map (fun a => (a - m) * (a - m)) s)).
  assert (Hden : 0 < INR (length s) - 1).
  { assert (H2 : INR 2 <= INR (length s)) by (apply le_INR; exact Hn).
    simpl in H2. lra. }
  assert (Hpos : 0 < SS).
  { assert (Hge : 0 <= SS)
      by (apply sum_nonneg, (squares_nonneg (fun a => a - m))).
    destruct (Req_dec SS 0) as [E|]; [|lra].
    exfalso. apply Hs. exists m.
    apply (sum_squares_zero (fun a => a - m)) in E.
    rewrite Forall_forall in *. intros a Ha. specialize (E a Ha). simpl in E. lra. }
  apply Rmult_lt_0_compat; [exact Hpos|].
  apply Rdiv_lt_0_compat; lra.
Qed.

(** The Pearson coefficient of a trace with itself, the rounding left
    out. *)
Lemma corrcoef_self (s : list R) :
  ~ constant s -> corrcoef (ops := unrounded) s s = Some 1.
Proof.
  intros Hs.
  destruct (corrcoef_self_near_one (ops := unrounded) s 0) as (r & Hr & Hlo & Hhi).
  - now apply not_constant_long.
  - now apply variance_positive.
  - lra.
  - apply accurate_exact. lra.
  - apply accurate_exact. lra.
  - apply accurate_exact. lra.
  - rewrite Hr. f_equal. lra.
Qed.

Lemma sum_repeat (c : R) (k : nat) : sum (repeat c k) = INR k * c.
Proof.
  induction k as [|k IH]; [simpl; lra|].
  rewrite S_INR. simpl repeat. simpl sum. rewrite IH. lra.
Qed.

Lemma variance_constant (c : R) (n : nat) :
  variance (ops := unrounded) (repeat c n) = 0.
Proof.
  rewrite variance_unrounded.
  assert (Hnum : sum (map (fun a => (a - mean (ops := unrounded) (repeat c n))
                                    * (a - mean (ops := unrounded) (repeat c n)))
                          (repeat c n)) = 0).
  { destruct n as [|n']; [reflexivity|].
    assert (Hm : mean (ops := unrounded) (repeat c (S n')) = c).
    { unfold mean. cbn [fdiv fsum unrounded]. rewrite repeat_length, sum_repeat.
      field. rewrite S_INR. pose proof (pos_INR n'). lra. }
    rewrite Hm. generalize (S n'). intros k.
    induction k as [|k IH]; simpl; [reflexivity|]. rewrite IH. lra. }
  rewrite Hnum. apply Rmult_0_l.
Qed.

Lemma corrcoef_constant (c : R) (n : nat) :
  corrcoef (ops := unrounded) (repeat c n) (repeat c n) = None.
Proof.
  unfold corrcoef. destruct (Nat.ltb _ 2); [reflexivity|].
  fold (variance (ops := unrounded) (repeat c n)). rewrite variance_constant.
  cbn [fsqrt unrounded]. rewrite sqrt_0. unfold divide.
  destruct (Req_dec_T 0 0) as [_|H]; [|contradiction]. reflexivity.
Qed.

(** The entries of the full self-correlation. *)
Lemma correlate_full_self_other (s : list R) (i : nat) (c : R) :
  ~ Forall (eq 0) s ->
  nth_error (correlate_full (ops := unrounded) s s) i = Some c ->
  i <> (length s - 1)%nat ->
  Rabs c < dot s s.
Proof.
  intros Hs Hc Hi. unfold correlate_full in Hc.
  rewrite nth_error_map in Hc.
  destruct (nth_error (seq 0 (length s + length s - 1)) i) as [j|] eqn:Hj;
    [|discriminate].
  assert (Hlt : (i < length (seq 0 (length s + length s - 1)))%nat)
    by (apply nth_error_Some; congruence).
  rewrite length_seq in Hlt.
  rewrite nth_error_seq_lt in Hj by exact Hlt. injection Hj as <-.
  cbn [option_map] in Hc. injection Hc as <-.
  destruct (Nat.ltb_spec i (length s - 1)); cbv beta iota zeta;
    cbn [fdot unrounded]; rewrite dot_firstn_min.
  - rewrite dot_comm. apply shifted_dot_strict; [lia|exact Hs].
  - apply shifted_dot_strict; [lia|exact Hs].
Qed.

End ExactCorrelation.

Section CorrelationClaims.
Import Correlation.
Local Open Scope R_scope.

Local Abbreviation slice := Numpy.slice.

Lemma int_part_one : py_int 1 = 1%Z.
Proof.
  unfold py_int. destruct (Rle_dec 0 1); [|lra].
  symmetry. apply Int_part_spec. simpl. lra.
Qed.

Lemma calculate_cross_correlation_unfold {ops : Float64} (t1 t2 : trace) (max_lag : R) :
  calculate_cross_correlation (Some t1) (Some t2) max_lag =
  match on_common_grid t1 t2 with
  | Some (common_time, s1, s2) => peak_of (lag_window common_time s1 s2 max_lag)
  | None => cross_error
  end.
Proof.
  unfold calculate_cross_correlation.
  destruct (on_common_grid t1 t2) as [[[c a] b]|]; reflexivity.
Qed.

(** The grid of two samples, and the first step of a longer one, the
    rounding left out. *)
Lemma linspace_pair (a b : R) : linspace (ops := unrounded) a b 2 = [a; b].
Proof.
  unfold linspace. cbn [Nat.sub Nat.ltb Nat.leb seq map fadd fmul fdiv fsub unrounded].
  destruct (Req_dec_T _ 0); cbn [map removelast app]; f_equal; simpl; field.
Qed.

Lemma linspace_two (a b : R) (n : nat) :
  a < b ->
  exists c0 c1 cs,
    linspace (ops := unrounded) a b (S (S n)) = c0 :: c1 :: cs /\ c0 < c1.
Proof.
  intros Hab. destruct n as [|n].
  - exists a, b, []. split; [apply linspace_pair|exact Hab].
  - unfold linspace. replace (S (S (S n)) - 1)%nat with (S (S n)) by lia.
    cbn [Nat.ltb Nat.leb fadd fmul fdiv fsub unrounded].
    set (step := (b - a) / INR (S (S n))).
    assert (Hstep : 0 < step).
    { apply Rdiv_lt_0_compat; [lra|]. apply lt_0_INR. lia. }
    destruct (Req_dec_T step 0) as [E|_]; [lra|].
    cbn [seq map removelast].
    eexists _, _, _. split; [reflexivity|].
    change (INR 0) with 0. change (INR 1) with 1. lra.
Qed.

(** Resampling a constant signal gives the constant back. *)
Lemma interp_from_constant (c : R) (xp : list R) (v : R) :
  xp <> [] -> interp_from (ops := unrounded) xp (repeat c (length xp)) v = c.
Proof.
  induction xp as [|x0 xp IH]; intros H; [contradiction|].
  destruct xp as [|x1 xp]; [reflexivity|].
  cbn [length repeat interp_from]. cbn [length repeat] in IH.
  destruct (Rlt_dec v x1).
  - destruct (Req_dec_T v x0); [reflexivity|].
    cbn [fadd fmul fdiv fsub unrounded]. unfold Rdiv. ring.
  - apply IH. discriminate.
Qed.

Lemma interp_constant (c : R) (x xp : list R) :
  xp <> [] ->
  interp (ops := unrounded) x xp (repeat c (length xp)) = Some (repeat c (length x)).
Proof.
  intros H. unfold interp. destruct xp as [|x0 xp]; [contradiction|].
  simpl repeat. simpl length. rewrite repeat_length, Nat.eqb_refl. f_equal.
  induction x as [|v x IH]; simpl; [reflexivity|]. f_equal; [|exact IH].
  destruct (Rlt_dec v x0); [reflexivity|].
  apply (interp_from_constant c (x0 :: xp) v). discriminate.
Qed.

Lemma resampled_ramp : interp (ops := unrounded) [0; 1] [0; 1] [0; 1] = Some [0; 1].
Proof.
  unfold interp. cbn [length Nat.eqb map interp_from]. f_equal.
  destruct (Rlt_dec 0 0); [lra|]. destruct (Rlt_dec 0 1); [|lra].
  destruct (Req_dec_T 0 0); [|lra].
  destruct (Rlt_dec 1 0); [lra|]. destruct (Rlt_dec 1 1); [lra|]. reflexivity.
Qed.

(** The self-correlation of a trace that is not zero, the rounding left
    out: every entry of the window but the one at lag 0 is below 1 in
    magnitude. *)
Lemma window_self_unrounded (c0 c1 : R) (cs s : list R) (max_lag : R) :
  c0 < c1 -> 0 <= max_lag -> ~ Forall (eq 0) s ->
  exists lags values t,
    lag_window (ops := unrounded) (c0 :: c1 :: cs) s s max_lag = Some (lags, values) /\
    nth_error lags t = Some 0 /\
    nth_error values t = Some (number 1) /\
    forall j w, nth_error values j = Some w -> j <> t ->
                exists v, w = number v /\ Rabs v < Rabs 1.
Proof.
  intros Hdt Hlag Hs.
  pose proof (dot_diag_pos s Hs) as HS.
  assert (Hn : (1 <= length s)%nat).
  { destruct s; [exfalso; apply Hs; constructor|simpl; lia]. }
  assert (Hscale : @fmul unrounded (norm (ops := unrounded) s)
                        (norm (ops := unrounded) s) = dot s s).
  { unfold norm. cbn [fmul fsqrt fdot unrounded]. apply sqrt_sqrt; lra. }
  assert (Hcc : map (fun c => divide (ops := unrounded) c (dot s s))
                    (correlate_full (ops := unrounded) s s)
                = map (fun c => number (c / dot s s))
                      (correlate_full (ops := unrounded) s s)).
  { apply map_ext. intros c. unfold divide.
    destruct (Req_dec_T (dot s s) 0); [lra|reflexivity]. }
  destruct (lag_window (ops := unrounded) (c0 :: c1 :: cs) s s max_lag)
    as [[lags values]|] eqn:Hwin.
  2:{ exfalso. unfold lag_window in Hwin. cbn [fsub unrounded] in Hwin.
      destruct (Req_dec_T (c1 - c0) 0); [lra|discriminate]. }
  assert (Hlags : (0 < length lags)%nat).
  { pose proof Hwin as Hw. unfold lag_window in Hw. cbn [fsub fdiv unrounded] in Hw.
    destruct (Req_dec_T (c1 - c0) 0) as [|_]; [lra|].
    injection Hw as Hl _. rewrite <- Hl.
    rewrite length_map, length_seq, length_map, length_correlate_full.
    assert (Hmls : (0 <= py_int (max_lag / (c1 - c0)))%Z).
    { apply py_int_nonneg. apply Rmult_le_pos; [exact Hlag|].
      apply Rlt_le, Rinv_0_lt_compat. lra. }
    set (mls := py_int (max_lag / (c1 - c0))) in *.
    assert (Hc : (Z.of_nat (length s + length s - 1) / 2
                  = Z.of_nat (length s) - 1)%Z).
    { symmetry. apply (Z.div_unique _ 2 _ 1); lia. }
    rewrite Hc. lia. }
  assert (Hne : lags <> []) by (intros E; rewrite E in Hlags; simpl in Hlags; lia).
  destruct (lag_window_shape _ s s max_lag lags values eq_refl Hn Hwin Hne)
    as (from & t & Hlen & Hmid & Hlag0 & Hvalues).
  rewrite Hscale, Hcc in Hvalues.
  assert (Hone : dot s s / dot s s = 1) by (field; lra).
  assert (Ht : (t < length lags)%nat) by (apply nth_error_Some; congruence).
  exists lags, values, t. split; [reflexivity|]. split; [exact Hlag0|]. split.
  - rewrite Hvalues by exact Ht.
    rewrite Hmid, nth_error_map, correlate_full_self_centre by exact Hn.
    cbn [option_map fdot unrounded]. now rewrite Hone.
  - intros j w Hj Hne'.
    assert (Hjlt : (j < length lags)%nat)
      by (rewrite <- Hlen; apply nth_error_Some; congruence).
    rewrite Hvalues, nth_error_map in Hj by exact Hjlt.
    destruct (nth_error (correlate_full (ops := unrounded) s s) (from + j))
      as [c|] eqn:Hc; [|discriminate].
    injection Hj as <-. exists (c / dot s s). split; [reflexivity|].
    apply (correlate_full_self_other s _ c Hs) in Hc; [|lia].
    rewrite Rabs_R1. unfold Rdiv. rewrite Rabs_mult.
    rewrite (Rabs_pos_eq (/ dot s s)) by (apply Rlt_le, Rinv_0_lt_compat; lra).
    apply (Rmult_lt_reg_r (dot s s)); [lra|].
    rewrite Rmult_assoc, Rinv_l by lra. lra.
Qed.

Lemma cross_self_unrounded (c0 c1 : R) (cs s : list R) (max_lag : R) :
  c0 < c1 -> 0 <= max_lag -> ~ Forall (eq 0) s ->
  peak_of (lag_window (ops := unrounded) (c0 :: c1 :: cs) s s max_lag)
  = cross_reported 0 (number 1).
Proof.
  intros Hdt Hlag Hs.
  destruct (window_self_unrounded c0 c1 cs s max_lag Hdt Hlag Hs)
    as (lags & values & t & -> & Hlag0 & Htop & Hothers).
  now apply (peak_of_peaks_at lags values t 0 1).
Qed.

(** The zero trace on the grid [0, 1], with a maximum lag of one. *)
Lemma window_of_zero_trace :
  peak_of (lag_window (ops := unrounded) [0; 1] [0; 0] [0; 0] 1)
  = cross_reported (-1) not_a_number.
Proof.
  unfold lag_window. cbn [fsub fdiv unrounded].
  destruct (Req_dec_T (1 - 0) 0) as [E|_]; [lra|].
  replace (1 / (1 - 0)) with 1 by field. rewrite int_part_one.
  assert (Hnorm : norm (ops := unrounded) [0; 0] = 0).
  { unfold norm, dot. cbn [fsqrt fdot unrounded]. unfold dot. simpl.
    replace (0 * 0 + (0 * 0 + 0)) with 0 by ring. apply sqrt_0. }
  rewrite Hnorm. cbn [fmul unrounded]. rewrite Rmult_0_l.
  assert (Hcc : map (fun c => divide (ops := unrounded) c 0)
                    (correlate_full (ops := unrounded) [0; 0] [0; 0])
                = [not_a_number; not_a_number; not_a_number]).
  { unfold correlate_full. cbn [length Nat.add Nat.sub seq map Nat.ltb Nat.leb
                                skipn Nat.min firstn fdot unrounded].
    unfold dot, divide. cbn [Numpy.zip_with sum fold_right].
    destruct (Req_dec_T 0 0) as [_|H]; [|contradiction].
    repeat (match goal with
            | |- context [Req_dec_T ?c 0] =>
                destruct (Req_dec_T c 0) as [_|H]; [|exfalso; apply H; ring]
            end).
    reflexivity. }
  rewrite Hcc. cbv [peak_of]. simpl. unfold lag_time. simpl.
  cbn [fmul unrounded]. f_equal. ring.
Qed.

(** C9, on degenerate traces.  The constant trace 1, 1 has no Pearson
    coefficient (nan), and the zero trace has its reported peak, nan, at the
    first lag of the window, not at lag 0.  The arithmetic is exact on these
    inputs. *)
Lemma C9_counterexample_degenerate_traces :
  calculate_pearson_correlation (ops := unrounded)
    (Some ([0; 1], [1; 1])) (Some ([0; 1], [1; 1]))
  = pearson_reported None /\
  calculate_cross_correlation (ops := unrounded)
    (Some ([0; 1], [0; 0])) (Some ([0; 1], [0; 0])) 1
  = cross_reported (-1) not_a_number.
Proof.
  split.
  - unfold calculate_pearson_correlation.
    rewrite (on_common_grid_self (ops := unrounded) [0; 1] [1; 1] (repeat 1 2) 0 [1] eq_refl).
    + simpl repeat. f_equal. apply (corrcoef_constant 1 2).
    + pose proof (interp_constant 1 (linspace (ops := unrounded) 0 (last [0; 1] 0) 2)
                    [0; 1] ltac:(discriminate)) as H.
      rewrite length_linspace_R in H. exact H.
  - rewrite calculate_cross_correlation_unfold.
    rewrite (on_common_grid_self (ops := unrounded) [0; 1] [0; 0] (repeat 0 2) 0 [1] eq_refl).
    2:{ pose proof (interp_constant 0 (linspace (ops := unrounded) 0 (last [0; 1] 0) 2)
                      [0; 1] ltac:(discriminate)) as H.
        rewrite length_linspace_R in H. exact H. }
    change (length [0; 1]) with 2%nat. change (last [0; 1] 0) with 1.
    rewrite linspace_pair. apply window_of_zero_trace.
Qed.

(** C9, as the code has it.  A trace is resampled onto the grid of its own
    time axis and correlated with itself.  In float64, whatever the
    rounding: the Pearson analysis reports [np.corrcoef] of the resampled
    trace with itself, never above 1, and within [4 u] of 1 when the
    variance is positive and the square root and the two divisions are each
    within the relative error [u <= 1/4]; the cross-correlation analysis
    reports the peak of the lag window, which holds lag 0 with the inner
    product of the trace over the product of its norms whenever it is not
    empty, and that lag and entry when the entry exceeds the others in
    magnitude.  Without rounding: the coefficient is 1 for a trace that is
    not constant, and the peak is 1 at lag 0 for a trace that is not zero,
    on an axis that runs forward, for a maximum lag that is not negative. *)
Theorem C9_self_correlation :
  (forall (ops : Float64) (time signal : list R) (first : R) (rest s : list R)
          (max_lag : R),
     time = first :: rest ->
     let grid := linspace first (last time 0) (length time) in
     interp grid time signal = Some s ->
     let v := variance s in
     let sd := fsqrt v in
     let zero_lag := divide (fdot s s) (fmul (norm s) (norm s)) in
     calculate_pearson_correlation (Some (time, signal)) (Some (time, signal))
     = pearson_reported (corrcoef s s) /\
     (forall r, corrcoef s s = Some r -> r <= 1) /\
     (forall u,
        (2 <= length s)%nat -> 0 < v -> 0 <= u <= 1 / 4 ->
        accurate u sd (sqrt v) ->
        accurate u (fdiv v sd) (v / sd) ->
        accurate u (fdiv (fdiv v sd) sd) (fdiv v sd / sd) ->
        exists r, corrcoef s s = Some r /\ 1 - 4 * u <= r <= 1) /\
     calculate_cross_correlation (Some (time, signal)) (Some (time, signal)) max_lag
     = peak_of (lag_window grid s s max_lag) /\
     (forall lags values,
        lag_window grid s s max_lag = Some (lags, values) -> lags <> [] ->
        exists t,
          nth_error lags t = Some 0 /\
          nth_error values t = Some zero_lag /\
          (peaks_at values t ->
           calculate_cross_correlation (Some (time, signal)) (Some (time, signal))
             max_lag
           = cross_reported 0 zero_lag))) /\
  (forall (time signal : list R) (first : R) (rest s : list R) (max_lag : R),
     time = first :: rest ->
     interp (ops := unrounded)
       (linspace (ops := unrounded) first (last time 0) (length time)) time signal
     = Some s ->
     (~ constant s ->
      calculate_pearson_correlation (ops := unrounded)
        (Some (time, signal)) (Some (time, signal))
      = pearson_reported (Some 1)) /\
     (~ Forall (eq 0) s -> first < last time 0 -> 0 <= max_lag ->
      calculate_cross_correlation (ops := unrounded)
        (Some (time, signal)) (Some (time, signal)) max_lag
      = cross_reported 0 (number 1))).
Proof.
  split.
  - intros ops time signal first rest s max_lag Htime grid Hs v sd zero_lag.
    assert (Hlen : (1 <= length s)%nat).
    { apply length_interp in Hs. unfold grid in Hs.
      rewrite length_linspace_R, Htime in Hs. simpl in Hs. lia. }
    assert (Hpearson :
      calculate_pearson_correlation (Some (time, signal)) (Some (time, signal))
      = pearson_reported (corrcoef s s)).
    { unfold calculate_pearson_correlation.
      now rewrite (on_common_grid_self time signal s first rest Htime Hs). }
    assert (Hcross :
      calculate_cross_correlation (Some (time, signal)) (Some (time, signal)) max_lag
      = peak_of (lag_window grid s s max_lag)).
    { rewrite calculate_cross_correlation_unfold.
      now rewrite (on_common_grid_self time signal s first rest Htime Hs). }
    split; [exact Hpearson|].
    split; [intros r Hr; apply (corrcoef_range s s r Hr)|].
    split; [intros u; apply corrcoef_self_near_one|].
    split; [exact Hcross|].
    intros lags values Hwin Hne.
    destruct (lag_window_zero_lag grid s max_lag lags values Hlen Hwin Hne)
      as (t & Hlag & Hval).
    exists t. split; [exact Hlag|]. split; [exact Hval|].
    intros (top & Htop & Hothers). rewrite Hcross, Hwin.
    fold zero_lag in Hval. rewrite Htop in Hval. injection Hval as <-.
    now apply (peak_of_peaks_at lags values t 0 top).
  - intros time signal first rest s max_lag Htime Hs. split.
    + intros Hnc. unfold calculate_pearson_correlation.
      rewrite (on_common_grid_self (ops := unrounded) time signal s first rest Htime Hs).
      f_equal. now apply corrcoef_self.
    + intros Hnz Hspan Hlag. rewrite calculate_cross_correlation_unfold.
      rewrite (on_common_grid_self (ops := unrounded) time signal s first rest Htime Hs).
      assert (Hlong : exists n, length time = S (S n)).
      { rewrite Htime in *. destruct rest as [|r0 rest']; [simpl in Hspan; lra|].
        simpl. eauto. }
      destruct Hlong as [n Hn]. rewrite Hn.
      destruct (linspace_two first (last time 0) n Hspan) as (c0 & c1 & cs & -> & Hc).
      now apply cross_self_unrounded.
Qed.

Lemma C9_witness :
  (exists r,
     calculate_pearson_correlation (ops := unrounded)
       (Some ([0; 1], [0; 1])) (Some ([0; 1], [0; 1])) = pearson_reported (Some r) /\
     1 - 4 * 0 <= r <= 1) /\
  calculate_cross_correlation (ops := unrounded)
    (Some ([0; 1], [0; 1])) (Some ([0; 1], [0; 1])) 1
  = cross_reported 0 (number 1).
Proof.
  assert (Hgrid : interp (ops := unrounded)
                    (linspace (ops := unrounded) 0 (last [0; 1] 0) (length [0; 1]))
                    [0; 1] [0; 1] = Some [0; 1]).
  { change (length [0; 1]) with 2%nat. change (last [0; 1] 0) with 1.
    rewrite linspace_pair. exact resampled_ramp. }
  assert (Hnc : ~ constant [0; 1]).
  { intros [c Hall]. inversion Hall as [|? ? H0 Hrest]; subst.
    inversion Hrest as [|? ? H1 _]; subst. lra. }
  destruct C9_self_correlation as [Hrounded Hexact].
  destruct (Hrounded unrounded [0; 1] [0; 1] 0 [1] [0; 1] 1 eq_refl Hgrid)
    as (Hp & _ & Hnear & _).
  destruct (Hexact [0; 1] [0; 1] 0 [1] [0; 1] 1 eq_refl Hgrid) as [_ Hc].
  split.
  - destruct (Hnear 0) as (r & Hr & Hrange).
    + simpl. lia.
    + now apply variance_positive.
    + lra.
    + apply accurate_exact. lra.
    + apply accurate_exact. lra.
    + apply accurate_exact. lra.
    + exists r. split; [|exact Hrange]. rewrite Hp. now f_equal.
  - apply Hc.
    + intros Hall. inversion Hall as [|? ? _ Hrest]; subst.
      inversion Hrest as [|? ? H1 _]; subst. lra.
    + simpl. lra.
    + lra.
Defined.

End CorrelationClaims.

(** ** The filter's guards *)

Section FilterGuards.
Import Numpy SignalProcessing.
Local Open Scope Q_scope.

Lemma py_min_cases (a b : Q) : py_min a b = a \/ py_min a b = b.
Proof. unfold py_min. destruct (Qltb b a); auto. Qed.

Lemma fold_py_min_In (cs : list Q) : forall c, In (fold_left py_min cs c) (c :: cs).
Proof.
  induction cs as [|x cs IH]; intros c; simpl.
  - now left.
  - destruct (IH (py_min c x)) as [H|H].
    + destruct (py_min_cases c x) as [E|E]; rewrite E in *; auto.
    + auto.
Qed.

Lemma min_cutoff_positive (cutoff : cutoff_t) (fs mc : Q) :
  cutoff_invalid cutoff fs = false -> min_cutoff cutoff = Some mc -> 0 < mc.
Proof.
  intros Hv Hm. destruct cutoff as [c|cs]; simpl in *.
  - injection Hm as <-. apply orb_false_elim in Hv as [Hv _].
    apply Qltb_lt. unfold Qltb. now rewrite Hv.
  - destruct cs as [|c cs]; [discriminate|]. injection Hm as <-.
    apply orb_false_elim in Hv as [Hv _].
    assert (Hall : forall x, In x (c :: cs) -> 0 < x).
    { intros x Hx. apply Qltb_lt. unfold Qltb.
      destruct (Qle_bool x 0) eqn:E; [|reflexivity].
      exfalso. assert (existsb (fun c0 => Qle_bool c0 0) (c :: cs) = true).
      { apply existsb_exists. now exists x. }
      congruence. }
    apply Hall, fold_py_min_In.
Qed.

(** X1.  When [butter_filter] gets as far as its call of [sosfiltfilt] (the
    cutoff passed the range check, the trace is at least [max(6 * order, 9)]
    samples long), the smallest cutoff is positive and the [padlen] it passes
    is at least 1 and at most [len(data) - 1], as SciPy requires. *)
Theorem X1_padlen_within_bounds :
  forall (cutoff : cutoff_t) (fs mc : Q) (order : Z) (n : nat),
    cutoff_invalid cutoff fs = false ->
    min_cutoff cutoff = Some mc ->
    (min_length order <= Z.of_nat n)%Z ->
    0 < mc /\ (1 <= padlen n fs mc <= Z.of_nat n - 1)%Z.
Proof.
  intros cutoff fs mc order n Hv Hm Hn.
  pose proof (min_cutoff_positive _ _ _ Hv Hm) as Hpos.
  split; [exact Hpos|].
  unfold padlen. apply Qltb_lt in Hpos. rewrite Hpos.
  unfold min_length in Hn. lia.
Qed.

Lemma X1_witness :
  cutoff_invalid (Sequence [1; 5]) 100 = false /\
  min_cutoff (Sequence [1; 5]) = Some 1 /\
  (min_length 2 <= Z.of_nat 12)%Z /\
  0 < 1 /\ (1 <= padlen 12 100 1 <= Z.of_nat 12 - 1)%Z.
Proof.
  refine (conj eq_refl (conj eq_refl (conj _
            (X1_padlen_within_bounds (Sequence [1; 5]) 100 1 2 12
                                     eq_refl eq_refl _))));
    vm_compute; discriminate.
Defined.

End FilterGuards.

(** ** The bleaching fit and the normalisation *)

Section BleachingFacts.
Import Numpy SignalProcessing.
Local Open Scope Q_scope.
Context {lib : SciPy}.




End BleachingFacts.

Section NormalisationFacts.
Import Numpy SignalProcessing.
Local Open Scope Q_scope.


(** X3.  The dF/F stage keeps the order of the samples: its divisor is the
    positive baseline, so of two samples of the detrended trace the larger
    has the larger dF/F value. *)
Theorem X3_dff_keeps_order :
  forall (detrended : list Q) (i j : nat) (a b : Q),
    nth_error detrended i = Some a ->
    nth_error detrended j = Some b ->
    a <= b ->
    exists a' b',
      nth_error (dff_of detrended) i = Some a' /\
      nth_error (dff_of detrended) j = Some b' /\
      a' <= b'.
Proof.
  intros detrended i j a b Hi Hj Hab. unfold dff_of.
  destruct (percentile detrended 10) as [p|] eqn:Hp.
  - set (f0 := py_max (Qabs p) 1e-9).
    assert (Hpos : 0 < f0) by apply py_max_eps_pos.
    exists ((a - f0) / f0 * 100), ((b - f0) / f0 * 100).
    rewrite !nth_error_map, Hi, Hj. repeat split.
    apply Qmult_le_compat_r; [|discriminate].
    unfold Qdiv. apply Qmult_le_compat_r.
    + unfold Qminus. apply Qplus_le_compat; [exact Hab|apply Qle_refl].
    + apply Qlt_le_weak, Qinv_lt_0_compat, Hpos.
  - destruct detrended; [destruct i; discriminate|discriminate].
Qed.

Lemma X3_witness :
  exists a' b',
    nth_error (dff_of [4; 2; 6]) 1 = Some a' /\
    nth_error (dff_of [4; 2; 6]) 2 = Some b' /\
    a' <= b'.
Proof.
  apply (X3_dff_keeps_order [4; 2; 6] 1 2 2 6); try reflexivity.
  vm_compute. discriminate.
Defined.

End NormalisationFacts.

(** ** Order statistics and the artifact mask *)

Section OrderStatistics.
Import Numpy SignalProcessing.
Local Open Scope Q_scope.



Lemma insert_sorted (x : Q) (l : list Q) :
  StronglySorted Qle l -> StronglySorted Qle (insert x l).
Proof.
  induction 1 as [|y l Hs IH Hy]; simpl.
  - constructor; constructor.
  - destruct (Qle_bool x y) eqn:E.
    + apply Qle_bool_iff in E. constructor; [now constructor|].
      constructor; [exact E|].
      eapply Forall_impl; [|exact Hy]. intros z Hz. now apply Qle_trans with y.
    + assert (Hyx : y <= x).
      { apply Qlt_le_weak, Qnot_le_lt. intros H. apply Qle_bool_iff in H. congruence. }
      constructor; [exact IH|].
      apply Forall_insert; assumption.
Qed.

Lemma sort_sorted (l : list Q) : StronglySorted Qle (sort l).
Proof.
  induction l as [|x l IH]; simpl; [constructor|].
  now apply insert_sorted.
Qed.







Lemma Qabs_zero_iff (x : Q) : Qabs x == 0 <-> x == 0.
Proof.
  split; intros H.
  - apply Qle_antisym.
    + rewrite <- H. apply Qle_Qabs.
    + assert (Hn : - x <= 0).
      { rewrite <- H, <- Qabs_opp. apply Qle_Qabs. }
      lra.
  - rewrite H. reflexivity.
Qed.

(** X5.  When the median absolute deviation of the reference channel is
    zero, the threshold has no effect: [detect_artifacts] flags exactly the
    samples that differ from the median. *)
Theorem X5_zero_mad_flags_all_deviations :
  forall (control : list Q) (threshold : Q) (i : nat) (x : Q),
    mad_of control == 0 ->
    nth_error control i = Some x ->
    (nth_error (detect_artifacts control threshold) i = Some true <->
     ~ x == median control).
Proof.
  intros control threshold i x Hmad Hx.
  rewrite (flag_iff control threshold i x Hx).
  assert (E : threshold * mad_of control * mad_to_std == 0).
  { rewrite Hmad. ring. }
  rewrite E. split.
  - intros H Heq. rewrite Heq in H.
    assert (E0 : median control - median control == 0) by ring.
    rewrite E0 in H. vm_compute in H. discriminate.
  - intros Hne. destruct (Qlt_le_dec 0 (Qabs (x - median control))) as [H|H]; [exact H|].
    exfalso. apply Hne.
    assert (Hz : Qabs (x - median control) == 0).
    { apply Qle_antisym; [exact H|apply Qabs_nonneg]. }
    apply (proj1 (Qabs_zero_iff _)) in Hz.
    assert (Hx' : x == (x - median control) + median control) by ring.
    rewrite Hx', Hz. ring.
Qed.

Lemma X5_witness :
  mad_of [1; 1; 1; 1; 2] == 0 /\
  nth_error [1; 1; 1; 1; 2] 4 = Some 2 /\
  (nth_error (detect_artifacts [1; 1; 1; 1; 2] 1000) 4 = Some true <->
   ~ 2 == median [1; 1; 1; 1; 2]).
Proof.
  refine (conj _ (conj eq_refl
            (X5_zero_mad_flags_all_deviations [1; 1; 1; 1; 2] 1000 4 2 _ eq_refl)));
    reflexivity.
Defined.

End OrderStatistics.

(** ** analysis/peak_analysis.py beyond the peak metrics *)

Section NoValleys.
Import Numpy PeakAnalysis.
Local Open Scope Q_scope.

Lemma fold_append_nan (f : metrics -> Z -> metrics) (peaks : list Z) :
  (forall m p, f m p = append_nan m) ->
  forall m,
    fold_left f peaks m =
    {| area := area m ++ repeat None (length peaks);
       fwhm := fwhm m ++ repeat None (length peaks);
       rise_time := rise_time m ++ repeat None (length peaks);
       decay_time := decay_time m ++ repeat None (length peaks) |}.
Proof.
  intros Hf. induction peaks as [|p peaks IH]; intros m; simpl.
  - rewrite !app_nil_r. now destruct m.
  - rewrite IH, Hf. simpl. now rewrite <- !app_assoc.
Qed.

Lemma ends_never_enclose (n p : Z) (signal time : list Q) (m : metrics) :
  peak_step [0%Z; n] signal time m p = append_nan m.
Proof.
  rewrite peak_step_unfold. cbv zeta.
  assert (H : negb (any_nonzero (filter (fun v => (v <? p)%Z) [0%Z; n]))
              || negb (any_nonzero (filter (fun v => (p <? v)%Z) [0%Z; n])) = true).
  { simpl.
    destruct (Z.ltb_spec 0 p), (Z.ltb_spec n p), (Z.ltb_spec p 0), (Z.ltb_spec p n);
      simpl; try lia; try reflexivity;
      destruct (Z.eqb_spec n 0); simpl; try reflexivity; lia. }
  now rewrite H.
Qed.

(** X6.  Without valley indices (no valley data, or none that is not zero)
    [calculate_peak_metrics] falls back on the first and last sample, which
    never count as enclosing valleys: every metric of every peak is nan,
    whatever the trace. *)
Theorem X6_no_valleys_no_metrics :
  forall (peaks : list Z) (valley_data : option (list Z)) (signal time : list Q),
    any_nonzero peaks = true ->
    match valley_data with
    | Some vs => any_nonzero vs = false
    | None => True
    end ->
    calculate_peak_metrics (Some peaks) valley_data signal time =
    Some {| area := repeat None (length peaks);
            fwhm := repeat None (length peaks);
            rise_time := repeat None (length peaks);
            decay_time := repeat None (length peaks) |}.
Proof.
  intros peaks valley_data signal time Hp Hv.
  unfold calculate_peak_metrics. rewrite Hp. cbn [negb]. f_equal.
  assert (E : effective_valleys valley_data signal
              = [0%Z; (Z.of_nat (length signal) - 1)%Z]).
  { unfold effective_valleys. destruct valley_data as [vs|]; [now rewrite Hv|reflexivity]. }
  rewrite E, fold_append_nan; [reflexivity|].
  intros m p. apply ends_never_enclose.
Qed.

Lemma X6_witness :
  any_nonzero [5%Z] = true /\
  calculate_peak_metrics (Some [5%Z]) (Some []) bumpy_signal bumpy_time =
  Some {| area := [None]; fwhm := [None]; rise_time := [None]; decay_time := [None] |}.
Proof.
  split; [reflexivity|].
  exact (X6_no_valleys_no_metrics [5%Z] (Some []) bumpy_signal bumpy_time
           eq_refl eq_refl).
Defined.

End NoValleys.

(** ** Valley metrics as peak metrics of the inverted trace *)

Section ValleyMirror.
Import Numpy PeakAnalysis.
Local Open Scope Q_scope.

Lemma getitem_map {A B} (f : A -> B) (x : list A) (i : Z) :
  getitem (map f x) i = option_map f (getitem x i).
Proof.
  unfold getitem. rewrite length_map.
  destruct (_ && _)%bool; [apply nth_error_map|].
  destruct (_ && _)%bool; [apply nth_error_map|reflexivity].
Qed.

Lemma py_min_opp (a b : Q) : py_min (- a) (- b) = - py_max a b.
Proof.
  unfold py_min, py_max.
  assert (E : Qltb (- b) (- a) = Qltb a b).
  { destruct (Qltb a b) eqn:H.
    - apply Qltb_lt. apply Qltb_lt in H. lra.
    - apply Qltb_ge. apply Qltb_ge in H. lra. }
  rewrite E. now destruct (Qltb a b).
Qed.

Lemma Qle_bool_mirror (s h h' : Q) :
  h' == - h -> Qle_bool h' (- s) = Qle_bool s h.
Proof.
  intros E. destruct (Qle_bool s h) eqn:H.
  - apply Qle_bool_iff. apply Qle_bool_iff in H. lra.
  - destruct (Qle_bool h' (- s)) eqn:H'; [|reflexivity].
    apply Qle_bool_iff in H'.
    assert (Hs : s <= h) by lra. apply Qle_bool_iff in Hs. congruence.
Qed.

Lemma at_or_above_inverted (h h' : Q) (segment : list Q) (start : Z) :
  h' == - h ->
  at_or_above h' (map Qopp segment) start = ValleyAnalysis.at_or_below h segment start.
Proof.
  intros E. unfold at_or_above, ValleyAnalysis.at_or_below.
  rewrite map_map. f_equal. f_equal. apply map_ext.
  intros s. now apply Qle_bool_mirror.
Qed.

Lemma sum_pointwise (a b : list Q) : Forall2 Qeq a b -> sum a == sum b.
Proof.
  induction 1 as [|x y a b Hxy _ IH]; simpl; [reflexivity|].
  now rewrite Hxy, IH.
Qed.

Lemma zip_with_pointwise (f : Q -> Q -> Q) (a b a' b' : list Q) :
  (forall x x' y y', x == x' -> y == y' -> f x y == f x' y') ->
  Forall2 Qeq a a' -> Forall2 Qeq b b' ->
  Forall2 Qeq (zip_with f a b) (zip_with f a' b').
Proof.
  intros Hf Ha. revert b b'.
  induction Ha as [|x x' a a' Hx _ IH]; intros b b' Hb; simpl; [constructor|].
  destruct Hb as [|y y' b b' Hy Hb]; [constructor|].
  constructor; [now apply Hf|now apply IH].
Qed.

Lemma Forall2_Qeq_refl (l : list Q) : Forall2 Qeq l l.
Proof. induction l; constructor; [reflexivity|assumption]. Qed.

Lemma Forall2_tl (a b : list Q) : Forall2 Qeq a b -> Forall2 Qeq (tl a) (tl b).
Proof. destruct 1; simpl; [constructor|assumption]. Qed.

Lemma Forall2_removelast (a b : list Q) :
  Forall2 Qeq a b -> Forall2 Qeq (removelast a) (removelast b).
Proof.
  induction 1 as [|x y a b Hxy Hab IH]; simpl; [constructor|].
  destruct Hab as [|x' y' a b Hx' Hab]; [constructor|].
  constructor; [exact Hxy|exact IH].
Qed.

Lemma Forall2_map_Qeq (f g : Q -> Q) (l : list Q) :
  (forall x, f x == g x) -> Forall2 Qeq (map f l) (map g l).
Proof.
  intros H. induction l; simpl; constructor; auto.
Qed.

Lemma broadcast_pointwise (d s s' : list Q) :
  Forall2 Qeq s s' ->
  match broadcast Qmult d s, broadcast Qmult d s' with
  | Some p, Some p' => Forall2 Qeq p p'
  | None, None => True
  | _, _ => False
  end.
Proof.
  intros Hs. unfold broadcast.
  pose proof (Forall2_length Hs) as Hl. rewrite <- Hl.
  destruct (Nat.eqb (length d) (length s)).
  - apply zip_with_pointwise;
      [intros ? ? ? ? -> ->; reflexivity|apply Forall2_Qeq_refl|exact Hs].
  - destruct d as [|d0 [|d1 dr]].
    + destruct Hs as [|u u' s s' Hu Hs]; [exact I|].
      destruct Hs; [constructor|exact I].
    + clear Hl. induction Hs as [|u u' p p' Hu _ IH]; cbn [map]; constructor;
        [now rewrite Hu|exact IH].
    + destruct Hs as [|u u' s s' Hu Hs]; [exact I|].
      destruct Hs; [|exact I].
      apply Forall2_map_Qeq. intros x. now rewrite Hu.
Qed.

(** The trapezoidal rule gives equal areas on equal ordinates. *)
Lemma trapezoid_pointwise (y y' x : list Q) :
  Forall2 Qeq y y' ->
  same_value (trapezoid y x) (trapezoid y' x).
Proof.
  intros H. unfold trapezoid.
  assert (Hs : Forall2 Qeq (zip_with Qplus (tl y) (removelast y))
                           (zip_with Qplus (tl y') (removelast y'))).
  { apply zip_with_pointwise;
      [intros ? ? ? ? -> ->; reflexivity|now apply Forall2_tl|now apply Forall2_removelast]. }
  pose proof (broadcast_pointwise (diff x) _ _ Hs) as Hb.
  destruct (broadcast Qmult (diff x) (zip_with Qplus (tl y) (removelast y))) as [p|],
           (broadcast Qmult (diff x) (zip_with Qplus (tl y') (removelast y'))) as [p'|];
    try contradiction; [|exact I].
  cbn [same_value]. apply sum_pointwise.
  induction Hb as [|u u' p p' Hu _ IH]; cbn [map]; constructor; [now rewrite Hu|exact IH].
Qed.

Lemma getitem_same_length {A B} (a : list A) (b : list B) (i : Z) (v : A) :
  length b = length a -> getitem a i = Some v -> exists w, getitem b i = Some w.
Proof.
  intros Hl. unfold getitem. rewrite Hl.
  assert (Hn : forall k, nth_error a k = Some v -> exists w, nth_error b k = Some w).
  { intros k Hk.
    assert (Hlt : (k < length b)%nat).
    { rewrite Hl. apply nth_error_Some. congruence. }
    destruct (nth_error b k) as [w|] eqn:E; [now exists w|].
    apply nth_error_None in E. lia. }
  destruct (_ && _)%bool; [apply Hn|].
  destruct (_ && _)%bool; [apply Hn|discriminate].
Qed.

Lemma mirrored_nan (v : ValleyAnalysis.metrics) (p : metrics) :
  mirrored v p -> mirrored (ValleyAnalysis.append_nan v) (append_nan p).
Proof.
  intros [Hf Ha]. split; simpl; [now rewrite Hf|].
  apply Forall2_app; [exact Ha|]. repeat constructor.
Qed.

Lemma step_mirror (ps : list Z) (signal time : list Q) :
  length time = length signal ->
  forall (vm : ValleyAnalysis.metrics) (pm : metrics) (x : Z),
    mirrored vm pm ->
    mirrored (ValleyAnalysis.valley_step ps signal time vm x)
             (peak_step ps (inverted signal) time pm x).
Proof.
  intros Hlen vm pm x Hm.
  pose proof (mirrored_nan vm pm Hm) as Hnan.
  unfold ValleyAnalysis.valley_step, peak_step, inverted. cbv zeta.
  destruct (negb _ || negb _)%bool; [exact Hnan|].
  destruct (last_item _) as [pre|]; [|exact Hnan].
  destruct (hd_error _) as [post|]; [|exact Hnan].
  rewrite !getitem_map.
  destruct (getitem signal pre) as [a|]; [|exact Hnan].
  destruct (getitem signal post) as [b|]; [|exact Hnan].
  destruct (getitem signal x) as [d|] eqn:Hx; [|exact Hnan].
  cbn [option_map].
  rewrite !slice_map, py_min_opp.
  set (peak_level := py_max a b).
  assert (Ehalf : - peak_level + (- d - - peak_level) / 2
                  == - (peak_level - (peak_level - d) / 2)) by field.
  rewrite !(at_or_above_inverted _ _ _ _ Ehalf).
  destruct (negb _ || negb _)%bool; [exact Hnan|].
  destruct (last_item _) as [dt|]; [|destruct (hd_error _); exact Hnan].
  destruct (hd_error _) as [rt|]; [|exact Hnan].
  destruct (getitem time dt) as [t_decay|]; [|exact Hnan].
  destruct (getitem time rt) as [t_rise|]; [|exact Hnan].
  destruct (getitem_same_length signal time x d Hlen Hx) as [t_valley ->].
  destruct Hm as [Hf Ha].
  pose proof (trapezoid_pointwise
                (map (fun s => peak_level - s) (slice signal pre (post + 1)))
                (map (fun s => s - - peak_level) (map Qopp (slice signal pre (post + 1))))
                (slice time pre (post + 1))) as Ht.
  destruct (trapezoid (map (fun s => peak_level - s) _) _) as [av|],
           (trapezoid (map (fun s => s - - peak_level) _) _) as [ap|].
  - split; simpl; [now rewrite Hf|].
    apply Forall2_app; [exact Ha|]. constructor; [|constructor].
    apply Ht. rewrite map_map. apply Forall2_map_Qeq. intros s. ring.
  - exfalso. apply Ht. rewrite map_map. apply Forall2_map_Qeq. intros s. ring.
  - exfalso. apply Ht. rewrite map_map. apply Forall2_map_Qeq. intros s. ring.
  - split; simpl; [now rewrite Hf|].
    apply Forall2_app; [exact Ha|]. repeat constructor.
Qed.

Lemma fold_mirror (ps : list Z) (signal time : list Q) (xs : list Z) :
  length time = length signal ->
  forall (vm : ValleyAnalysis.metrics) (pm : metrics),
    mirrored vm pm ->
    mirrored (fold_left (ValleyAnalysis.valley_step ps signal time) xs vm)
             (fold_left (peak_step ps (inverted signal) time) xs pm).
Proof.
  intros Hlen. induction xs as [|x xs IH]; intros vm pm Hm; simpl; [exact Hm|].
  apply IH. now apply step_mirror.
Qed.

(** X7.  On a trace and a time axis of one length, the valley metrics are the
    peak metrics of the inverted trace with the roles of peaks and valleys
    exchanged: both calls return nothing together, and otherwise the widths
    are the same and the areas above each valley equal the areas under the
    corresponding peak of the inverted trace. *)
Theorem X7_valley_metrics_mirror_peak_metrics :
  forall (peak_data valley_data : option (list Z)) (signal time : list Q),
    length time = length signal ->
    match ValleyAnalysis.calculate_valley_metrics peak_data valley_data signal time,
          calculate_peak_metrics valley_data peak_data (inverted signal) time with
    | Some v, Some p => mirrored v p
    | None, None => True
    | _, _ => False
    end.
Proof.
  intros peak_data valley_data signal time Hlen.
  unfold ValleyAnalysis.calculate_valley_metrics, calculate_peak_metrics.
  destruct valley_data as [valley_indices|]; [|exact I].
  destruct (negb (any_nonzero valley_indices)); [exact I|].
  assert (E : effective_valleys peak_data (inverted signal)
              = ValleyAnalysis.effective_peaks peak_data signal).
  { unfold effective_valleys, ValleyAnalysis.effective_peaks, inverted.
    now rewrite length_map. }
  rewrite E. apply fold_mirror; [exact Hlen|].
  split; simpl; constructor.
Qed.

Lemma X7_witness :
  match ValleyAnalysis.calculate_valley_metrics
          (Some [1%Z; 6%Z]) (Some [5%Z]) (inverted bumpy_signal) bumpy_time,
        calculate_peak_metrics
          (Some [5%Z]) (Some [1%Z; 6%Z]) (inverted (inverted bumpy_signal)) bumpy_time with
  | Some v, Some p => mirrored v p
  | None, None => True
  | _, _ => False
  end.
Proof.
  exact (X7_valley_metrics_mirror_peak_metrics
           (Some [1%Z; 6%Z]) (Some [5%Z]) (inverted bumpy_signal) bumpy_time eq_refl).
Defined.

End ValleyMirror.

(** ** Event intervals *)

Section IntervalFacts.
Import Numpy.
Local Open Scope Q_scope.

Local Abbreviation diff := PeakAnalysis.diff.
Local Abbreviation np_min := Psth.np_min.
Local Abbreviation np_max := Psth.np_max.

Lemma length_diff (x : list Q) : length (diff x) = (length x - 1)%nat.
Proof.
  unfold PeakAnalysis.diff. rewrite length_zip_with_min.
  destruct x; cbn [length tl]; lia.
Qed.

Lemma last_cons_default {A} (l : list A) (z y : A) : last (z :: l) y = last l z.
Proof.
  revert z y. induction l as [|a l IH]; intros z y; [reflexivity|].
  change (last (z :: a :: l) y) with (last (a :: l) y).
  now rewrite (IH a y), (IH a z).
Qed.

Lemma diff_cons (a b : Q) (r : list Q) : diff (a :: b :: r) = (b - a) :: diff (b :: r).
Proof. reflexivity. Qed.

Lemma diff_sorted_nonneg (s : list Q) :
  StronglySorted Qle s -> Forall (fun d => 0 <= d) (diff s).
Proof.
  induction 1 as [|a s Hs IH Ha]; [constructor|].
  destruct s as [|b r]; [constructor|].
  rewrite diff_cons. constructor; [|exact IH].
  inversion Ha; subst. lra.
Qed.

(** The differences of an array add up to its last element less its first. *)
Lemma sum_diff (a : Q) (s : list Q) : sum (diff (a :: s)) == last s a - a.
Proof.
  revert a. induction s as [|b r IH]; intros a.
  - simpl. ring.
  - rewrite diff_cons. cbn [sum fold_right]. fold (sum (diff (b :: r))).
    rewrite IH.
    rewrite last_cons_default. ring.
Qed.

Lemma In_insert (x y : Q) (l : list Q) : In y (insert x l) <-> y = x \/ In y l.
Proof.
  induction l as [|z l IH]; simpl; [intuition|].
  destruct (Qle_bool x z); simpl; [intuition|].
  rewrite IH. intuition.
Qed.

Lemma In_sort (y : Q) (l : list Q) : In y (sort l) <-> In y l.
Proof.
  induction l as [|x l IH]; simpl; [tauto|].
  rewrite In_insert, IH. intuition.
Qed.

Lemma fold_Qmin_spec (r : list Q) :
  forall x, (forall y, In y (x :: r) -> fold_left Qmin r x <= y) /\
            exists y, In y (x :: r) /\ fold_left Qmin r x == y.
Proof.
  induction r as [|z r IH]; intros x; simpl.
  - split; [intros y [<-|[]]; apply Qle_refl|].
    exists x. split; [now left|reflexivity].
  - destruct (IH (Qmin x z)) as [Hle [y [Hy Ey]]]. split.
    + intros w [<-|[<-|Hw]].
      * apply Qle_trans with (Qmin x z); [apply Hle; now left|apply Q.le_min_l].
      * apply Qle_trans with (Qmin x z); [apply Hle; now left|apply Q.le_min_r].
      * apply Hle. now right.
    + destruct Hy as [<-|Hy].
      * destruct (Q.min_spec x z) as [[_ E]|[_ E]].
        -- exists x. split; [now left|]. now rewrite Ey, E.
        -- exists z. split; [right; now left|]. now rewrite Ey, E.
      * exists y. split; [right; now right|exact Ey].
Qed.

Lemma fold_Qmax_spec (r : list Q) :
  forall x, (forall y, In y (x :: r) -> y <= fold_left Qmax r x) /\
            exists y, In y (x :: r) /\ fold_left Qmax r x == y.
Proof.
  induction r as [|z r IH]; intros x; simpl.
  - split; [intros y [<-|[]]; apply Qle_refl|].
    exists x. split; [now left|reflexivity].
  - destruct (IH (Qmax x z)) as [Hle [y [Hy Ey]]]. split.
    + intros w [<-|[<-|Hw]].
      * apply Qle_trans with (Qmax x z); [apply Q.le_max_l|apply Hle; now left].
      * apply Qle_trans with (Qmax x z); [apply Q.le_max_r|apply Hle; now left].
      * apply Hle. now right.
    + destruct Hy as [<-|Hy].
      * destruct (Q.max_spec x z) as [[_ E]|[_ E]].
        -- exists z. split; [right; now left|]. now rewrite Ey, E.
        -- exists x. split; [now left|]. now rewrite Ey, E.
      * exists y. split; [right; now right|exact Ey].
Qed.

Lemma sorted_head_least (a : Q) (s : list Q) :
  StronglySorted Qle (a :: s) -> forall y, In y (a :: s) -> a <= y.
Proof.
  intros H y [<-|Hy]; [apply Qle_refl|].
  inversion H as [|? ? _ Hall]; subst. rewrite Forall_forall in Hall. now apply Hall.
Qed.

Lemma sorted_last_greatest (s : list Q) :
  StronglySorted Qle s -> forall a y, In y (a :: s) -> StronglySorted Qle (a :: s) ->
  y <= last s a.
Proof.
  induction 1 as [|b s Hs IH Hb]; intros a y Hy Ha.
  - destruct Hy as [<-|[]]. apply Qle_refl.
  - rewrite last_cons_default. destruct Hy as [<-|Hy].
    + apply Qle_trans with b.
      * inversion Ha as [|? ? _ Hall]; subst. now inversion Hall.
      * apply IH; [now left|now constructor].
    + apply IH; [exact Hy|now constructor].
Qed.

Lemma last_In (s : list Q) (a : Q) : In (last s a) (a :: s).
Proof.
  revert a. induction s as [|b s IH]; intros a; [now left|].
  rewrite last_cons_default. right. apply IH.
Qed.

(** The sorted array runs from the smallest to the largest of the times. *)
Lemma sort_ends (times : list Q) (a : Q) (s : list Q) :
  times <> [] -> sort times = a :: s ->
  a == np_min times /\ last s a == np_max times.
Proof.
  intros Hne Hs.
  pose proof (sort_sorted times) as Hsorted. rewrite Hs in Hsorted.
  assert (Hin : forall y, In y (a :: s) <-> In y times).
  { intros y. rewrite <- Hs. apply In_sort. }
  destruct times as [|x r]; [contradiction|].
  unfold Psth.np_min, Psth.np_max.
  destruct (fold_Qmin_spec r x) as [Hmin [ymin [Imin Emin]]].
  destruct (fold_Qmax_spec r x) as [Hmax [ymax [Imax Emax]]].
  split; apply Qle_antisym.
  - rewrite Emin. apply (sorted_head_least a s Hsorted). now apply Hin.
  - apply Hmin. apply Hin. now left.
  - apply Hmax. apply Hin. apply last_In.
  - rewrite Emax. apply sorted_last_greatest; [|now apply Hin|exact Hsorted].
    now inversion Hsorted.
Qed.

Lemma of_nat_pos (n : nat) : (0 < n)%nat -> 0 < of_nat n.
Proof.
  intros H. unfold of_nat. change 0 with (inject_Z 0). rewrite <- Zlt_Qlt. lia.
Qed.

Section WithRoot.
Variable sqrt : Q -> Q.

(** X8.  [calculate_intervals] gives nothing for fewer than two event times;
    for [n >= 2] times, in any order, it gives [n - 1] intervals, none of
    them negative, each between the reported minimum and the reported
    maximum, with [0 <= min <= max]. *)
Theorem X8_intervals_between_sorted_events :
  forall (times : list Q),
    ((length times < 2)%nat ->
     Intervals.calculate_intervals sqrt (Some times) = None) /\
    ((2 <= length times)%nat ->
     exists st,
       Intervals.calculate_intervals sqrt (Some times) = Some st /\
       Intervals.count st = (length times - 1)%nat /\
       length (Intervals.intervals st) = Intervals.count st /\
       Forall (fun d => 0 <= d /\ Intervals.min st <= d <= Intervals.max st)
              (Intervals.intervals st) /\
       0 <= Intervals.min st /\
       Intervals.min st <= Intervals.max st).
Proof.
  intros times. unfold Intervals.calculate_intervals. split.
  - intros H. apply Nat.ltb_lt in H. now rewrite H.
  - intros H. apply Nat.ltb_ge in H as Hb. rewrite Hb.
    eexists. split; [reflexivity|]. cbn.
    pose proof (diff_sorted_nonneg _ (sort_sorted times)) as Hnn.
    assert (Hlen : length (diff (sort times)) = (length times - 1)%nat).
    { now rewrite length_diff, length_sort. }
    assert (Hne : diff (sort times) <> []).
    { intros E. rewrite E in Hlen. simpl in Hlen. lia. }
    destruct (diff (sort times)) as [|d0 dr] eqn:Ed; [contradiction|].
    destruct (fold_Qmin_spec dr d0) as [Hmin [ymin [Imin Emin]]].
    destruct (fold_Qmax_spec dr d0) as [Hmax [ymax [Imax Emax]]].
    rewrite Forall_forall in Hnn.
    split; [exact Hlen|]. split; [reflexivity|]. split; [|split].
    + apply Forall_forall. intros v Hv.
      split; [now apply Hnn|]. split; [now apply Hmin|now apply Hmax].
    + rewrite Emin. now apply Hnn.
    + apply Qle_trans with d0; [apply Hmin|apply Hmax]; now left.
Qed.

(** X9.  The intervals add up to the span of the events: their sum, and so
    their mean times their number, is the largest event time less the
    smallest. *)
Theorem X9_intervals_add_up_to_span :
  forall (times : list Q) (st : Intervals.statistics),
    Intervals.calculate_intervals sqrt (Some times) = Some st ->
    sum (Intervals.intervals st) == np_max times - np_min times /\
    Intervals.mean st * of_nat (Intervals.count st) == np_max times - np_min times.
Proof.
  intros times st. unfold Intervals.calculate_intervals.
  destruct (Nat.ltb_spec (length times) 2) as [|Hlen]; [discriminate|].
  intros [= <-]. cbn.
  destruct (sort times) as [|a s] eqn:Hs.
  { pose proof (length_sort times) as E. rewrite Hs in E. simpl in E. lia. }
  assert (Hne : times <> []) by (intros ->; simpl in Hlen; lia).
  destruct (sort_ends times a s Hne Hs) as [Emin Emax].
  assert (Hsum : sum (diff (a :: s)) == np_max times - np_min times).
  { rewrite sum_diff, <- Emin, <- Emax. reflexivity. }
  split; [exact Hsum|].
  unfold mean. rewrite <- Hsum. field.
  assert (Hpos : 0 < of_nat (length (diff (a :: s)))).
  { apply of_nat_pos. rewrite length_diff, <- Hs, length_sort. lia. }
  intros E. rewrite E in Hpos. discriminate.
Qed.

End WithRoot.

Lemma X8_witness :
  (2 <= length [3; 1; 7])%nat /\
  exists st,
    Intervals.calculate_intervals Reference.newton_sqrt (Some [3; 1; 7]) = Some st /\
    Intervals.count st = 2%nat /\
    Forall (fun d => 0 <= d /\ Intervals.min st <= d <= Intervals.max st)
           (Intervals.intervals st).
Proof.
  split; [simpl; lia|].
  destruct (X8_intervals_between_sorted_events Reference.newton_sqrt [3; 1; 7])
    as [_ H].
  destruct (H ltac:(simpl; lia)) as (st & E & Hc & _ & Hn & _).
  exists st. auto.
Defined.

Lemma X9_witness :
  exists st,
    Intervals.calculate_intervals Reference.newton_sqrt (Some [3; 1; 7]) = Some st /\
    sum (Intervals.intervals st) == np_max [3; 1; 7] - np_min [3; 1; 7].
Proof.
  eexists. split; [reflexivity|].
  apply (X9_intervals_add_up_to_span Reference.newton_sqrt [3; 1; 7]).
  reflexivity.
Defined.

End IntervalFacts.

(** ** gpu_processing.py *)

Section AcceleratorFacts.
Import Numpy GpuProcessing.
Local Open Scope Q_scope.

(** X10.  The recommendations of [optimize_gpu_processing] are monotone in
    the data size: a larger input never gets a smaller downsample factor and
    never gains the GPU; and the GPU is recommended only when a device is
    available. *)
Theorem X10_gpu_recommendation_monotone :
  forall (gpu_accel : GPUAccelerator) (d1 d2 : Q),
    d1 <= d2 ->
    let r1 := optimize_gpu_processing gpu_accel d1 in
    let r2 := optimize_gpu_processing gpu_accel d2 in
    (downsample_factor r1 <= downsample_factor r2)%Z /\
    (use_gpu r2 = true -> use_gpu r1 = true) /\
    (use_gpu r1 = true -> gpu_available gpu_accel = true).
Proof.
  intros gpu_accel d1 d2 Hle. cbv zeta. unfold optimize_gpu_processing.
  destruct (gpu_available gpu_accel); cbn [negb].
  2:{ simpl. repeat split; try lia; discriminate. }
  set (free := match memory_free_gb (get_device_info gpu_accel) with
               | Some v => v | None => 0 end).
  destruct (Qltb d1 100) eqn:A1, (Qltb d2 100) eqn:A2,
           (Qltb d1 500) eqn:B1, (Qltb d2 500) eqn:B2,
           (Qltb d1 (free * 800)) eqn:C1, (Qltb d2 (free * 800)) eqn:C2;
    cbn [downsample_factor use_gpu];
    repeat split; try lia; try reflexivity; try discriminate; intros _; exfalso;
    rewrite ?Qltb_lt, ?Qltb_ge in *; lra.
Qed.

Lemma X10_witness :
  300 <= 900 /\
  let acc := {| gpu_available := true; device_count := 1;
                gpu_memory_free := 1024 ^ 3; gpu_memory_total := 2 * 1024 ^ 3 |} in
  (downsample_factor (optimize_gpu_processing acc 300)
   <= downsample_factor (optimize_gpu_processing acc 900))%Z.
Proof.
  split; [vm_compute; discriminate|].
  apply (X10_gpu_recommendation_monotone
           {| gpu_available := true; device_count := 1;
              gpu_memory_free := 1024 ^ 3; gpu_memory_total := 2 * 1024 ^ 3 |}
           300 900).
  vm_compute. discriminate.
Defined.

Lemma stride_one {A} (l : list A) : stride 1 l = l.
Proof.
  unfold stride. induction l as [|x l IH]; simpl; [reflexivity|].
  now rewrite IH.
Qed.

(** X11.  Whether it runs on a device or not, [gpu_downsample] returns the
    decimation the pipeline applies: the slice [signal[::max(1, factor)]],
    of [ceil(n / max(1, factor))] samples -- the device slice being the
    NumPy one when it succeeds. *)
Theorem X11_gpu_downsample_is_the_pipeline_decimation :
  forall (on_device : list Q -> nat -> option (list Q))
         (gpu_accel : GPUAccelerator) (signal : list Q) (factor : Z),
    (forall s k out, on_device s k = Some out -> out = stride k s) ->
    let k := Z.to_nat (Z.max 1 factor) in
    gpu_downsample on_device gpu_accel signal factor = stride k signal /\
    length (gpu_downsample on_device gpu_accel signal factor)
    = ceil_div (length signal) k.
Proof.
  intros on_device gpu_accel signal factor Hdev k.
  assert (E : gpu_downsample on_device gpu_accel signal factor = stride k signal).
  { unfold gpu_downsample, k. destruct (Z.leb_spec factor 1) as [Hsmall|Hbig].
    - rewrite Z.max_l by lia. symmetry. apply stride_one.
    - rewrite Z.max_r by lia.
      destruct (gpu_available gpu_accel); [|reflexivity].
      destruct (on_device signal (Z.to_nat factor)) as [out|] eqn:Eo; [|reflexivity].
      now apply Hdev. }
  split; [exact E|]. rewrite E. apply length_stride. unfold k. lia.
Qed.

Lemma X11_witness :
  gpu_downsample (fun s k => Some (stride k s))
    {| gpu_available := true; device_count := 1;
       gpu_memory_free := 1; gpu_memory_total := 1 |}
    [1; 2; 3; 4; 5] 2
  = stride 2 [1; 2; 3; 4; 5].
Proof.
  apply (X11_gpu_downsample_is_the_pipeline_decimation
           (fun s k => Some (stride k s))).
  intros s k out [= <-]. reflexivity.
Defined.

End AcceleratorFacts.

(** ** The correlation matrix *)

Section CorrelationMatrix.
Import Correlation GpuCorrelation.
Local Open Scope R_scope.

Lemma nth_error_set_nth {A} (x : list A) (i k : nat) (v : A) :
  (i < length x)%nat ->
  nth_error (Numpy.set_nth x i v) k
  = if Nat.eqb k i then Some v else nth_error x k.
Proof.
  revert i k. induction x as [|y x IH]; intros [|i] [|k] H; simpl in *;
    try lia; try reflexivity.
  apply IH. lia.
Qed.

Lemma square_zeros (n : nat) : square n (zeros n).
Proof.
  unfold square, zeros. rewrite repeat_length. split; [reflexivity|].
  apply Forall_forall. intros row H. apply repeat_spec in H. subst.
  apply repeat_length.
Qed.

Lemma square_set_entry (n : nat) (m : matrix) (i j : nat) (v : option R) :
  square n m -> square n (set_entry m i j v).
Proof.
  intros [Hl Hr]. unfold set_entry.
  destruct (nth_error m i) as [row|] eqn:E; [|now split].
  split; [now rewrite length_set_nth|].
  apply Forall_forall. intros r Hin.
  apply In_nth_error in Hin. destruct Hin as [k Hk].
  assert (Hi : (i < length m)%nat) by (apply nth_error_Some; congruence).
  rewrite nth_error_set_nth in Hk by exact Hi.
  rewrite Forall_forall in Hr.
  destruct (Nat.eqb k i).
  - injection Hk as <-. rewrite length_set_nth.
    apply Hr. eapply nth_error_In. exact E.
  - apply Hr. eapply nth_error_In. exact Hk.
Qed.

Lemma entry_set_entry (n : nat) (m : matrix) (i j a b : nat) (v : option R) :
  square n m -> (i < n)%nat -> (j < n)%nat ->
  entry (set_entry m i j v) a b
  = if (Nat.eqb a i && Nat.eqb b j)%bool then Some v else entry m a b.
Proof.
  intros [Hl Hr] Hi Hj. unfold set_entry, entry.
  destruct (nth_error m i) as [row|] eqn:E.
  2:{ apply nth_error_None in E. lia. }
  assert (Hrow : length row = n).
  { rewrite Forall_forall in Hr. apply Hr. eapply nth_error_In. exact E. }
  rewrite nth_error_set_nth by lia.
  destruct (Nat.eqb_spec a i) as [->|Hne]; cbn [andb].
  - rewrite nth_error_set_nth by lia. rewrite E.
    destruct (Nat.eqb b j); reflexivity.
  - reflexivity.
Qed.

Lemma square_fill (n : nat) (corr : nat -> nat -> option (option R))
    (pairs : list (nat * nat)) :
  forall m, square n m -> square n (fst (fill corr pairs m)).
Proof.
  induction pairs as [|[i j] rest IH]; intros m Hm; simpl; [exact Hm|].
  destruct (corr i j) as [c|]; [|exact Hm].
  apply IH. now apply square_set_entry, square_set_entry.
Qed.

(** A loop that writes a symmetric table leaves it in every place it
    visits, and keeps what was already right. *)
Lemma fill_tabulates (n : nat) (f : nat -> nat -> R)
    (corr : nat -> nat -> option (option R)) (pairs : list (nat * nat)) :
  (forall i j, f i j = f j i) ->
  (forall i j, In (i, j) pairs ->
               (i < n)%nat /\ (j < n)%nat /\ corr i j = Some (Some (f i j))) ->
  forall m,
    square n m ->
    snd (fill corr pairs m) = true /\
    forall a b,
      (a < n)%nat -> (b < n)%nat ->
      entry m a b = Some (Some (f a b)) \/ In (a, b) pairs \/ In (b, a) pairs ->
      entry (fst (fill corr pairs m)) a b = Some (Some (f a b)).
Proof.
  intros Hsym. induction pairs as [|[i j] rest IH]; intros Hrange m Hm.
  - split; [reflexivity|]. intros a b _ _ [H|[[]|[]]]. exact H.
  - destruct (Hrange i j (or_introl eq_refl)) as (Hi & Hj & Hcorr).
    cbn [fill]. rewrite Hcorr.
    set (m' := set_entry (set_entry m i j (Some (f i j))) j i (Some (f i j))).
    assert (Hm' : square n m') by now apply square_set_entry, square_set_entry.
    destruct (IH (fun i' j' H => Hrange i' j' (or_intror H)) m' Hm') as [Hdone Hent].
    split; [exact Hdone|].
    intros a b Ha Hb H. apply Hent; [exact Ha|exact Hb|].
    assert (E : entry m' a b
                = if (Nat.eqb a j && Nat.eqb b i)%bool then Some (Some (f i j))
                  else if (Nat.eqb a i && Nat.eqb b j)%bool then Some (Some (f i j))
                  else entry m a b).
    { unfold m'.
      rewrite (entry_set_entry n) by (try apply square_set_entry; assumption).
      rewrite (entry_set_entry n) by assumption. reflexivity. }
    rewrite E.
    destruct (Nat.eqb a j && Nat.eqb b i)%bool eqn:C1.
    { apply andb_prop in C1 as [Ea Eb].
      apply Nat.eqb_eq in Ea, Eb. subst a b. left. now rewrite (Hsym j i). }
    destruct (Nat.eqb a i && Nat.eqb b j)%bool eqn:C2.
    { apply andb_prop in C2 as [Ea Eb].
      apply Nat.eqb_eq in Ea, Eb. subst a b. now left. }
    destruct H as [H|[[H|H]|[H|H]]]; auto.
    + injection H as -> ->. rewrite !Nat.eqb_refl in C2. simpl in C2. discriminate.
    + injection H as -> ->. rewrite !Nat.eqb_refl in C1. simpl in C1. discriminate.
Qed.

(** A loop one of whose calls raises does not run to its end. *)
Lemma fill_raises (corr : nat -> nat -> option (option R)) (pairs : list (nat * nat)) :
  (exists i j, In (i, j) pairs /\ corr i j = None) ->
  forall m, snd (fill corr pairs m) = false.
Proof.
  induction pairs as [|[i j] rest IH]; intros (a & b & Hin & Hnone) m.
  - destruct Hin.
  - cbn [fill]. destruct (corr i j) as [c|] eqn:E; [|reflexivity].
    apply IH. destruct Hin as [[= <- <-]|Hin]; [congruence|eauto].
Qed.

Lemma upper_pairs_range (n i j : nat) :
  In (i, j) (upper_pairs n) -> (i <= j)%nat /\ (j < n)%nat.
Proof.
  unfold upper_pairs. rewrite in_flat_map. intros [k [Hk Hin]].
  apply in_seq in Hk. apply in_map_iff in Hin. destruct Hin as [l [[= -> ->] Hl]].
  apply in_seq in Hl. lia.
Qed.

Lemma upper_pairs_cover (n a b : nat) :
  (a <= b)%nat -> (b < n)%nat -> In (a, b) (upper_pairs n).
Proof.
  intros Ha Hb. unfold upper_pairs.
  apply in_flat_map; eexists; (split; [apply in_seq|apply in_map, in_seq]); lia.
Qed.

Section WithBackends.
Context {ops : Float64}.
Variable numba_sum : list R -> R.
Variable gpu_available : bool.
Variable cp_corrcoef : list R -> list R -> option (option R).

Lemma numba_correlation_returns (x y : list R) :
  x <> [] -> exists c, numba_correlation numba_sum x y = Some c.
Proof.
  intros Hx. unfold numba_correlation.
  destruct (negb _); [eauto|].
  destruct x as [|a x]; [contradiction|].
  cbv zeta. destruct (Req_dec_T _ 0); eauto.
Qed.

(** X14.  With Numba, whenever [gpu_correlation_matrix] ends up on its CPU
    loop -- no device, or the device loop raised after filling part of the
    matrix -- and no signal is empty, it returns the full table: for
    [i <= j] the value [numba_correlation] returns for signals [i] and [j]
    stands at [i, j] and at [j, i], whatever the device loop wrote there.
    With an empty signal the loop raises. *)
Theorem X14_correlation_matrix_on_cpu :
  forall (signals : list (list R)),
    let n := length signals in
    gpu_available = false \/
    snd (fill (fun i j => cp_corrcoef (nth i signals []) (nth j signals []))
              (upper_pairs n) (zeros n)) = false ->
    (Forall (fun s => s <> []) signals ->
     exists m,
       gpu_correlation_matrix numba_sum true gpu_available cp_corrcoef signals
       = Some m /\
       forall i j, (i <= j)%nat -> (j < n)%nat ->
         exists c,
           numba_correlation numba_sum (nth i signals []) (nth j signals []) = Some c /\
           entry m i j = Some (Some c) /\ entry m j i = Some (Some c)) /\
    (In [] signals ->
     gpu_correlation_matrix numba_sum true gpu_available cp_corrcoef signals = None).
Proof.
  intros signals n Hcpu.
  set (corr := fun i j =>
         option_map Some (numba_correlation numba_sum (nth i signals []) (nth j signals []))).
  assert (Hpath : forall m0, square n m0 ->
            exists m1, square n m1 /\
              gpu_correlation_matrix numba_sum true gpu_available cp_corrcoef signals
              = match fill corr (upper_pairs n) m1 with
                | (filled, true) => Some filled
                | (_, false) => None
                end).
  { intros _ _. unfold gpu_correlation_matrix. fold n. fold corr.
    destruct gpu_available.
    - destruct Hcpu as [|Hraised]; [discriminate|].
      pose proof (square_fill n (fun i j => cp_corrcoef (nth i signals []) (nth j signals []))
                    (upper_pairs n) (zeros n) (square_zeros n)) as Hsq.
      destruct (fill _ (upper_pairs n) (zeros n)) as [partly done].
      simpl in Hraised, Hsq. subst done. exists partly. split; [exact Hsq|reflexivity].
    - exists (zeros n). split; [apply square_zeros|reflexivity]. }
  destruct (Hpath (zeros n) (square_zeros n)) as (m1 & Hm1 & ->).
  split.
  - intros Hne.
    assert (Hval : forall i, (i < n)%nat -> nth i signals [] <> []).
    { intros i Hi. rewrite Forall_forall in Hne. apply Hne, nth_In. exact Hi. }
    set (value := fun i j =>
           match numba_correlation numba_sum (nth i signals []) (nth j signals []) with
           | Some c => c
           | None => 0
           end).
    set (f := fun a b => value (Nat.min a b) (Nat.max a b)).
    assert (Hsym : forall a b, f a b = f b a).
    { intros a b. unfold f. now rewrite Nat.min_comm, Nat.max_comm. }
    assert (Hcorr : forall i j, In (i, j) (upper_pairs n) ->
              (i < n)%nat /\ (j < n)%nat /\ corr i j = Some (Some (f i j))).
    { intros i j Hin. apply upper_pairs_range in Hin. destruct Hin as [Hij Hj].
      split; [lia|]. split; [exact Hj|].
      unfold corr, f, value. rewrite Nat.min_l, Nat.max_r by lia.
      destruct (numba_correlation_returns (nth i signals []) (nth j signals []))
        as [c ->]; [apply Hval; lia|reflexivity]. }
    destruct (fill_tabulates n f corr (upper_pairs n) Hsym Hcorr m1 Hm1)
      as [Hdone Hent].
    destruct (fill corr (upper_pairs n) m1) as [filled done]. simpl in *. subst done.
    exists filled. split; [reflexivity|].
    intros i j Hij Hj.
    destruct (numba_correlation_returns (nth i signals []) (nth j signals []))
      as [c Hc]; [apply Hval; lia|].
    exists c. split; [exact Hc|].
    assert (Hf : f i j = c).
    { unfold f, value. rewrite Nat.min_l, Nat.max_r by lia. now rewrite Hc. }
    split.
    + rewrite <- Hf. apply Hent; [lia|lia|]. right. left.
      now apply upper_pairs_cover.
    + rewrite <- Hf, Hsym. apply Hent; [lia|lia|]. right. right.
      now apply upper_pairs_cover.
  - intros Hin. apply In_nth with (d := []) in Hin. destruct Hin as (k & Hk & Ek).
    rewrite (surjective_pairing (fill corr (upper_pairs n) m1)).
    rewrite (fill_raises corr (upper_pairs n)); [reflexivity|].
    exists k, k. split; [apply upper_pairs_cover; [lia|exact Hk]|].
    unfold corr. rewrite Ek. reflexivity.
Qed.

End WithBackends.

Lemma X14_witness :
  exists m,
    gpu_correlation_matrix (ops := unrounded) Correlation.sum true true
      (fun _ _ => None) [[1; 2; 4]; [2; 1; 0]] = Some m /\
    entry m 0 1 = entry m 1 0.
Proof.
  destruct (X14_correlation_matrix_on_cpu (ops := unrounded) Correlation.sum
              true (fun _ _ => None) [[1; 2; 4]; [2; 1; 0]])
    as [Htable _].
  - right. reflexivity.
  - destruct Htable as (m & Em & Hm).
    + repeat constructor; discriminate.
    + exists m. split; [exact Em|].
      destruct (Hm 0%nat 1%nat) as (c & _ & E1 & E2); [lia|simpl; lia|].
      now rewrite E1, E2.
Defined.

End CorrelationMatrix.

(** ** gui/main_window.py: blanking, the bin size and the zoom *)

Section BlankingFacts.
Import Numpy Blanking.
Local Open Scope Q_scope.

Lemma blank_region_frame (time dff out : list Q) (r : region) :
  blank_region time dff r = Some out ->
  length out = length dff /\
  forall i t, nth_error time i = Some t ->
              ~ (start r <= t /\ t <= end_ r) ->
              nth_error out i = nth_error dff i.
Proof.
  unfold blank_region.
  set (mask := map (fun t => Qle_bool (start r) t && Qle_bool t (end_ r)) time).
  destruct (negb (any mask)); [intros [= <-]; auto|].
  destruct (_ && _)%bool; [|intros [= <-]; auto].
  destruct (nth_error dff _) as [start_val|]; [|discriminate].
  destruct (nth_error dff _) as [end_val|]; [|discriminate].
  destruct (Nat.eqb _ _); [|discriminate].
  intros H. apply assign_at_frame in H. destruct H as [Hlen Hnth].
  split; [exact Hlen|].
  intros i t Hi Hout. apply Hnth. intros Hin. apply In_where in Hin.
  unfold mask in Hin. rewrite nth_error_map, Hi in Hin.
  injection Hin as Hin. apply andb_prop in Hin as [H1 H2].
  apply Qle_bool_iff in H1, H2. tauto.
Qed.

Lemma blank_regions_frame (time : list Q) (regions : list region) :
  forall dff,
    length (fst (blank_regions time regions dff)) = length dff /\
    forall i t, nth_error time i = Some t ->
                outside_regions regions t ->
                nth_error (fst (blank_regions time regions dff)) i = nth_error dff i.
Proof.
  induction regions as [|r rest IH]; intros dff; simpl; [auto|].
  destruct (blank_region time dff r) as [blanked|] eqn:E; [|simpl; auto].
  apply blank_region_frame in E. destruct E as [Hlen Hnth].
  destruct (IH blanked) as [Hlen' Hnth'].
  split; [congruence|].
  intros i t Hi Hout. inversion Hout as [|? ? Hr Hrest]; subst.
  rewrite (Hnth' i t Hi Hrest). now apply (Hnth i t).
Qed.

(** X15.  [reapply_all_blanking] keeps the length of the dF/F trace and
    leaves every sample alone whose time no blanking region covers, also
    when a region makes it raise part-way. *)
Theorem X15_blanking_keeps_samples_outside_regions :
  forall (regions : list region) (times x : list Q) (secondary : option dataset),
    exists x',
      fst (fst (reapply_all_blanking regions
                  (Some {| time := times; dff := Some x |}) secondary))
      = Some {| time := times; dff := Some x' |} /\
      length x' = length x /\
      forall i t, nth_error times i = Some t ->
                  outside_regions regions t ->
                  nth_error x' i = nth_error x i.
Proof.
  intros regions times x secondary.
  destruct regions as [|r rest].
  - exists x. simpl. auto.
  - set (regions := r :: rest).
    exists (fst (blank_regions times regions x)).
    split; [|apply blank_regions_frame].
    unfold reapply_all_blanking, regions, blank_dataset. cbn [time dff].
    fold regions. destruct (blank_regions times regions x) as [blanked finished].
    destruct finished; [|reflexivity].
    destruct secondary as [d|]; [|reflexivity].
    destruct (dff d); [|reflexivity].
    now destruct (blank_regions _ _ _).
Qed.

Lemma X15_witness :
  exists x',
    fst (fst (reapply_all_blanking [{| start := 1; end_ := 2 |}]
                (Some {| time := [0; 1; 2; 3]; dff := Some [5; 9; 7; 6] |}) None))
    = Some {| time := [0; 1; 2; 3]; dff := Some x' |} /\
    nth_error x' 3 = nth_error [5; 9; 7; 6] 3.
Proof.
  destruct (X15_blanking_keeps_samples_outside_regions
              [{| start := 1; end_ := 2 |}] [0; 1; 2; 3] [5; 9; 7; 6] None)
    as (x' & E & _ & H).
  exists x'. split; [exact E|].
  apply (H 3%nat 3); [reflexivity|].
  constructor; [|constructor].
  intros [_ H2]. vm_compute in H2. now apply H2.
Defined.

Lemma where_from_all_false (mask : list bool) :
  Forall (fun b => b = false) mask -> forall i, where_from i mask = [].
Proof.
  induction 1 as [|b mask Hb _ IH]; intros i; simpl; [reflexivity|].
  rewrite Hb. apply IH.
Qed.

(** X16.  A blanking region with no sample before its start, or none after
    its end, changes nothing: a stretch at either end of the recording is
    never blanked. *)
Theorem X16_blanking_skips_the_ends :
  forall (r : region) (times x : list Q),
    Forall (fun t => start r <= t) times \/ Forall (fun t => t <= end_ r) times ->
    reapply_all_blanking [r] (Some {| time := times; dff := Some x |}) None
    = (Some {| time := times; dff := Some x |}, None, true).
Proof.
  intros r times x Hedge.
  assert (E : blank_region times x r = Some x).
  { unfold blank_region. destruct (negb (any _)); [reflexivity|].
    assert (Hnone : length (where_ (map (fun t => Qltb t (start r)) times)) = 0%nat \/
                    length (where_ (map (fun t => Qltb (end_ r) t) times)) = 0%nat).
    { destruct Hedge as [H|H]; [left|right]; unfold where_;
        rewrite where_from_all_false; try reflexivity;
        rewrite Forall_map; eapply Forall_impl; try exact H;
        intros t Ht; cbv beta in *; now apply Qltb_ge. }
    destruct Hnone as [-> | ->]; [reflexivity|].
    now rewrite andb_false_r. }
  unfold reapply_all_blanking, blank_dataset. cbn [time dff blank_regions].
  rewrite E. reflexivity.
Qed.

Lemma X16_witness :
  reapply_all_blanking [{| start := 0; end_ := 1 |}]
    (Some {| time := [0; 1; 2; 3]; dff := Some [5; 9; 5; 5] |}) None
  = (Some {| time := [0; 1; 2; 3]; dff := Some [5; 9; 5; 5] |}, None, true).
Proof.
  apply (X16_blanking_skips_the_ends {| start := 0; end_ := 1 |}).
  left. repeat constructor; vm_compute; discriminate.
Defined.

End BlankingFacts.

Section BinSizeFacts.
Import Numpy BinSize.
Local Open Scope Q_scope.

(** X17.  For a positive sample rate [update_psth_bin_size] sets a bin size
    that holds at least two samples, and from 4 Hz on it is one of 0.1, 0.2
    and 0.5 seconds. *)
Theorem X17_bin_size_holds_two_samples :
  forall (downsample_factor : Z) (primary_fs secondary_fs : option Q),
    let fs := effective_fs downsample_factor primary_fs secondary_fs in
    downsample_factor <> 0%Z -> 0 < fs ->
    exists bin,
      update_psth_bin_size downsample_factor primary_fs secondary_fs = Some bin /\
      2 <= bin * fs /\
      (4 <= fs -> bin = 0.1 \/ bin = 0.2 \/ bin = 0.5).
Proof.
  intros k pfs sfs fs Hk Hfs. unfold update_psth_bin_size. fold fs.
  apply Z.eqb_neq in Hk. rewrite Hk.
  assert (Hnz : Qeq_bool fs 0 = false).
  { destruct (Qeq_bool fs 0) eqn:E; [|reflexivity].
    apply Qeq_bool_iff in E. rewrite E in Hfs. discriminate. }
  rewrite Hnz. eexists. split; [reflexivity|].
  assert (Hmin : 2 / fs * fs == 2) by (field; lra).
  set (suggested := if Qle_bool 50 fs then 0.1 else if Qle_bool 20 fs then 0.2 else 0.5).
  unfold py_max. destruct (Qltb suggested (2 / fs)) eqn:Hcmp.
  - split; [rewrite Hmin; apply Qle_refl|].
    intros H4. exfalso. apply Qltb_lt in Hcmp.
    assert (Hs : 2 / fs <= suggested).
    { apply Qle_shift_div_r; [exact Hfs|]. unfold suggested.
      destruct (Qle_bool 50 fs) eqn:E50; [apply Qle_bool_iff in E50; lra|].
      destruct (Qle_bool 20 fs) eqn:E20; [apply Qle_bool_iff in E20; lra|lra]. }
    lra.
  - apply Qltb_ge in Hcmp. split.
    + rewrite <- Hmin. apply Qmult_le_compat_r; [exact Hcmp|lra].
    + intros _. unfold suggested.
      destruct (Qle_bool 50 fs); [now left|].
      destruct (Qle_bool 20 fs); [right; now left|right; now right].
Qed.

Lemma X17_witness :
  exists bin,
    update_psth_bin_size 50 (Some 20) None = Some bin /\
    2 <= bin * 20.
Proof.
  destruct (X17_bin_size_holds_two_samples 50 (Some 20) None)
    as (bin & E & H & _).
  - discriminate.
  - reflexivity.
  - exists bin. split; [exact E|exact H].
Defined.

End BinSizeFacts.

Section ZoomFacts.
Import Numpy Zoom.
Local Open Scope Q_scope.

Lemma new_lim_width (factor data lo hi bmin bmax : Q) :
  0 < bmax -> - (7) * bmax <= bmin -> bmin <= bmax ->
  bmax * 0.001 <= width (new_lim factor data lo hi bmin bmax) <= bmax * 10.
Proof.
  intros Hpos Hlow Hhigh. unfold new_lim, width.
  destruct (Qltb (bmax * 10) _) eqn:Hbig.
  - cbn [fst snd]. lra.
  - destruct (Qltb _ (bmax * 0.001)) eqn:Hsmall.
    + cbn [fst snd]. lra.
    + cbn [fst snd]. apply Qltb_ge in Hbig, Hsmall. lra.
Qed.

(** X18.  A scroll never zooms an axis out of bounds: with a positive upper
    data bound and a lower bound between -7 times it and it, the new limits
    span at least a thousandth and at most ten times the upper bound. *)
Theorem X18_zoom_stays_within_limits :
  forall (inaxes ctrl_pressed up : bool) (xdata ydata : Q)
         (cur_xlim cur_ylim : Q * Q) (b : bounds) (ax : axis) (lim : Q * Q),
    0 < x_max b -> - (7) * x_max b <= x_min b -> x_min b <= x_max b ->
    0 < y_max b -> - (7) * y_max b <= y_min b -> y_min b <= y_max b ->
    on_scroll inaxes ctrl_pressed up xdata ydata cur_xlim cur_ylim b
    = Some (ax, lim) ->
    let top := match ax with x_axis => x_max b | y_axis => y_max b end in
    top * 0.001 <= width lim <= top * 10.
Proof.
  intros inaxes ctrl_pressed up xdata ydata cur_xlim cur_ylim b ax lim
         Hx1 Hx2 Hx3 Hy1 Hy2 Hy3.
  unfold on_scroll. destruct inaxes; [|discriminate]. cbn [negb].
  destruct ctrl_pressed; intros [= <- <-]; cbv zeta; now apply new_lim_width.
Qed.

Lemma X18_witness :
  let b := {| x_min := 0; x_max := 100; y_min := -50; y_max := 50 |} in
  exists lim,
    on_scroll true false false 50 0 (0, 1000) (-50, 50) b = Some (x_axis, lim) /\
    100 * 0.001 <= width lim <= 100 * 10.
Proof.
  cbv zeta. eexists. split; [reflexivity|].
  apply (X18_zoom_stays_within_limits true false false 50 0 (0, 1000) (-50, 50)
           {| x_min := 0; x_max := 100; y_min := -50; y_max := 50 |} x_axis);
    try reflexivity; vm_compute; discriminate.
Defined.

End ZoomFacts.

(** ** The plotted histogram *)

Section PsthShape.
Import Numpy Psth.
Local Open Scope Q_scope.

Lemma nth_error_seq_Some (a n k v : nat) :
  nth_error (seq a n) k = Some v -> (k < n)%nat /\ v = (a + k)%nat.
Proof.
  intros H.
  assert (Hk : (k < n)%nat).
  { rewrite <- (length_seq n a). apply nth_error_Some. congruence. }
  split; [exact Hk|].
  rewrite (nth_error_nth' _ 0%nat) in H by (rewrite length_seq; exact Hk).
  rewrite seq_nth in H by exact Hk. congruence.
Qed.

(** X19.  [generate_psth] plots only for a window and a bin size that are
    positive, and what it plots is aligned: one mean and one standard error
    per bin centre. *)
Theorem X19_psth_curves_on_bin_centres :
  forall (sqrt : Q -> Q) (pre_time post_time bin_size : Q)
         (time signal event_times : option (list Q)) (r : psth),
    generate_psth sqrt pre_time post_time bin_size time signal event_times
    = plotted r ->
    0 < pre_time /\ 0 < post_time /\ 0 < bin_size /\
    length (psth_mean r) = length (time_centers r) /\
    length (psth_sem r) = length (time_centers r).
Proof.
  intros sqrt pre_time post_time bin_size time signal event_times r.
  unfold generate_psth.
  destruct (Qle_bool pre_time 0) eqn:Hpre; [discriminate|].
  destruct (Qle_bool post_time 0) eqn:Hpost; [discriminate|].
  destruct (Qle_bool bin_size 0) eqn:Hbin; [discriminate|].
  cbn [orb].
  assert (Hpre' : 0 < pre_time) by (apply Qltb_lt; unfold Qltb; now rewrite Hpre).
  assert (Hpost' : 0 < post_time) by (apply Qltb_lt; unfold Qltb; now rewrite Hpost).
  assert (Hbin' : 0 < bin_size) by (apply Qltb_lt; unfold Qltb; now rewrite Hbin).
  destruct signal as [signal|]; [|discriminate].
  destruct event_times as [[|e es]|]; try discriminate.
  destruct time as [[|t ts]|]; try discriminate.
  destruct signal as [|s ss]; [discriminate|].
  destruct (negb (any _)); [discriminate|].
  destruct (rows _ _ _ _ _ _) as [psth_matrix|]; [|discriminate].
  destruct (Nat.eqb _ 0); [discriminate|].
  intros [= <-]. cbn [psth_mean psth_sem time_centers].
  rewrite !length_map, length_seq, ?length_map.
  repeat split; assumption || reflexivity.
Qed.

Lemma X19_witness :
  exists r,
    generate_psth Reference.newton_sqrt 1 1 (1 # 2)
      (Some [0; 1; 2; 3; 4]) (Some [0; 1; 4; 1; 0]) (Some [2]) = plotted r /\
    length (psth_mean r) = length (time_centers r).
Proof.
  eexists. split; [reflexivity|].
  apply (X19_psth_curves_on_bin_centres Reference.newton_sqrt 1 1 (1 # 2)
           (Some [0; 1; 2; 3; 4]) (Some [0; 1; 4; 1; 0]) (Some [2])).
  reflexivity.
Defined.

End PsthShape.

(** ** data_io.py: decoding a recording *)

Section RecordingFacts.
Import Numpy DataIO.
Local Open Scope Q_scope.

Lemma list_pairs_ind {A} (P : list A -> Prop) :
  P [] -> (forall x, P [x]) -> (forall x y l, P l -> P (x :: y :: l)) ->
  forall l, P l.
Proof.
  intros H0 H1 H2.
  assert (H : forall l, P l /\ forall x, P (x :: l)).
  { induction l as [|y l [IH1 IH2]]; split; auto. }
  intros l. apply H.
Qed.

Lemma frombuffer_spec (b : list Byte.byte) :
  (Nat.odd (length b) = true -> frombuffer b = None) /\
  (Nat.even (length b) = true ->
   exists data,
     frombuffer b = Some data /\ length b = (2 * length data)%nat /\
     forall k, (k < length data)%nat -> nth_error data k = Some (word_at b k)).
Proof.
  induction b as [|x|x y l [IHodd IHeven]] using list_pairs_ind.
  - split; [discriminate|]. intros _. exists []. repeat split. intros k Hk. inversion Hk.
  - split; [reflexivity|discriminate].
  - split.
    + intros H. cbn [frombuffer]. rewrite IHodd; [reflexivity|].
      simpl length in H. now rewrite Nat.odd_succ_succ in H.
    + intros H. simpl length in H. rewrite Nat.even_succ_succ in H.
      destruct (IHeven H) as (data & E & Hl & Hn).
      exists ((byte_value x + 256 * byte_value y)%Z :: data).
      cbn [frombuffer]. rewrite E. split; [reflexivity|].
      split; [simpl; lia|].
      intros [|k] Hk; [reflexivity|].
      simpl in Hk. cbn [nth_error]. rewrite Hn by lia.
      unfold word_at. f_equal.
      replace (2 * S k)%nat with (S (S (2 * k))) by lia.
      replace (S (S (2 * k)) + 1)%nat with (S (S (2 * k + 1))) by lia.
      reflexivity.
Qed.

(** X20.  [parse_ppd_data] gives nothing for a recording it cannot decode:
    an odd number of data bytes, fewer than four of them (not one sample for
    each channel), or a downsample factor of zero. *)
Theorem X20_undecodable_recording_is_rejected :
  forall (b : list Byte.byte) (h : option header) (factor : Z),
    Nat.odd (length b) = true \/ (length b < 4)%nat \/ factor = 0%Z ->
    parse_ppd_data (Some b) h factor = None.
Proof.
  intros b h factor H. unfold parse_ppd_data.
  destruct h as [h|]; [|reflexivity].
  destruct b as [|x0 b0] eqn:Eb; [reflexivity|]. rewrite <- Eb in *.
  destruct H as [Hodd|[Hshort|Hzero]].
  - destruct (frombuffer_spec b) as [Hnone _]. now rewrite Hnone.
  - subst b. destruct b0 as [|x1 [|x2 [|x3 b']]]; try reflexivity.
    simpl in Hshort. lia.
  - subst factor.
    destruct (frombuffer b) as [[|w data]|]; try reflexivity.
    cbv zeta. destruct (Nat.eqb _ 0); [reflexivity|].
    destruct (validated _); reflexivity.
Qed.

Lemma X20_witness :
  parse_ppd_data (Some ["005"; "000"; "007"; "000"; "009"]%byte)
    (Some {| sampling_rate := None; volts_per_division := None |}) 1 = None.
Proof.
  apply X20_undecodable_recording_is_rejected. left. reflexivity.
Defined.

Lemma half_lengths (L : nat) :
  ceil_div L 2 = (L - L / 2)%nat /\ ceil_div (L - 1) 2 = (L / 2)%nat.
Proof.
  unfold ceil_div.
  pose proof (Nat.div_mod_eq L 2) as E.
  pose proof (Nat.mod_upper_bound L 2 ltac:(lia)) as Hr.
  set (q := (L / 2)%nat) in *. set (r := (L mod 2)%nat) in *.
  destruct r as [|[|r]]; [| |lia].
  - split.
    + symmetry. apply (Nat.div_unique _ 2 _ 1); lia.
    + destruct q as [|q]; [replace L with 0%nat by lia; reflexivity|].
      symmetry. apply (Nat.div_unique _ 2 _ 0); lia.
  - split.
    + symmetry. apply (Nat.div_unique _ 2 _ 0); lia.
    + symmetry. apply (Nat.div_unique _ 2 _ 1); lia.
Qed.

Lemma below_ceil_div (n k i : nat) :
  (1 <= k)%nat -> (i < ceil_div n k)%nat -> (i * k < n)%nat.
Proof.
  intros Hk Hi.
  rewrite <- (length_seq n 0), <- (length_stride k) in Hi by exact Hk.
  apply nth_error_Some in Hi. rewrite nth_error_stride in Hi by exact Hk.
  apply nth_error_Some in Hi. now rewrite length_seq in Hi.
Qed.

Lemma nth_error_decimate {A} (factor : Z) (x : list A) (i : nat) :
  (1 <= factor)%Z ->
  nth_error (decimate factor x) i = nth_error x (i * Z.to_nat factor).
Proof.
  intros H. unfold decimate. destruct (Z.ltb_spec 1 factor) as [Hbig|Hone].
  - apply nth_error_stride. lia.
  - replace factor with 1%Z by lia. simpl Z.to_nat. now rewrite Nat.mul_1_r.
Qed.

Lemma length_decimate {A} (factor : Z) (x : list A) :
  (1 <= factor)%Z ->
  length (decimate factor x) = ceil_div (length x) (Z.to_nat factor).
Proof.
  intros H. unfold decimate. destruct (Z.ltb_spec 1 factor) as [Hbig|Hone].
  - apply length_stride. lia.
  - replace factor with 1%Z by lia. simpl Z.to_nat.
    unfold ceil_div. now rewrite Nat.add_sub, Nat.div_1_r.
Qed.

Lemma byte_value_range (x : Byte.byte) : (0 <= byte_value x < 256)%Z.
Proof. unfold byte_value. destruct x; vm_compute; split; congruence. Qed.

Lemma word_at_range (b : list Byte.byte) (k : nat) : (0 <= word_at b k < 65536)%Z.
Proof.
  unfold word_at.
  pose proof (byte_value_range (nth (2 * k) b Byte.x00)).
  pose proof (byte_value_range (nth (2 * k + 1) b Byte.x00)). lia.
Qed.

Lemma nth_error_tl {A} (l : list A) (k : nat) : nth_error (tl l) k = nth_error l (S k).
Proof. destruct l; [now destruct k|reflexivity]. Qed.

Lemma length_tl {A} (l : list A) : length (tl l) = (length l - 1)%nat.
Proof. destruct l; simpl; lia. Qed.

Lemma length_zip_with_same {A B C} (f : A -> B -> C) (a : list A) (b : list B) :
  length b = length a -> length (zip_with f a b) = length a.
Proof. intros H. rewrite length_zip_with_min. lia. Qed.

(** X21.  A recording of [4 m] bytes or [4 m + 2] is decoded sample by
    sample: each little-endian 16-bit word gives its upper fifteen bits as
    the analog value (scaled by the channel's volts per division) and its
    lowest bit as the digital value, even words going to channel 1 and odd
    words to channel 2; with a downsample factor [k >= 1] all arrays keep
    every [k]-th of the [m] samples and have the same length
    [ceil(m / k)]. *)
Theorem X21_recording_is_decoded_sample_by_sample :
  forall (b : list Byte.byte) (h : header) (factor : Z) (sr : Q),
    Nat.even (length b) = true -> (4 <= length b)%nat ->
    validated (sampling_rate h) = Some sr ->
    (2 <= length (volts h))%nat ->
    (1 <= factor)%Z ->
    let m := (length b / 4)%nat in
    let step := Z.to_nat factor in
    exists r,
      parse_ppd_data (Some b) (Some h) factor = Some r /\
      (length (time_raw r) = ceil_div m step /\
       length (samples (analog_1_raw r)) = ceil_div m step /\
       length (samples (analog_2_raw r)) = ceil_div m step /\
       length (digital1 r) = ceil_div m step /\
       length (digital2 r) = ceil_div m step /\
       length (dff r) = ceil_div m step /\
       length (drift r) = ceil_div m step) /\
      forall i, (i < ceil_div m step)%nat ->
        let w1 := word_at b (2 * (i * step)) in
        let w2 := word_at b (2 * (i * step) + 1) in
        nth_error (time_raw r) i = Some (of_nat (i * step) / sr) /\
        nth_error (samples (analog_1_raw r)) i
        = Some (inject_Z (w1 / 2) * nth 0 (volts h) 0) /\
        nth_error (samples (analog_2_raw r)) i
        = Some (inject_Z (w2 / 2) * nth 1 (volts h) 0) /\
        nth_error (digital1 r) i = Some (w1 mod 2)%Z /\
        nth_error (digital2 r) i = Some (w2 mod 2)%Z /\
        (0 <= w1 / 2 < 32768)%Z /\ (0 <= w2 / 2 < 32768)%Z.
Proof.
  intros b h factor sr Heven Hlong Hrate Hvolts Hfactor m step.
  destruct (frombuffer_spec b) as [_ Hev].
  destruct (Hev Heven) as (data & E & Hl & Hn). clear Hev.
  assert (Hm : m = (length data / 2)%nat).
  { unfold m. rewrite Hl. rewrite (Nat.mul_comm 2).
    change 4%nat with (2 * 2)%nat.
    rewrite <- Nat.Div0.div_div, Nat.div_mul by lia. reflexivity. }
  assert (Hmpos : (1 <= m)%nat).
  { rewrite Hm. apply (Nat.div_le_lower_bound _ 2 1); lia. }
  assert (Hm2 : (2 * m <= length data)%nat).
  { rewrite Hm. apply Nat.Div0.mul_div_le. }
  assert (Hstep : (1 <= step)%nat) by (unfold step; lia).
  destruct (half_lengths (length data)) as [Hc1 Hc2].
  unfold parse_ppd_data.
  destruct b as [|x0 b0] eqn:Eb; [simpl in Hlong; lia|]. rewrite <- Eb in *.
  rewrite E. destruct data as [|w0 data0] eqn:Ed; [simpl in Hm2; lia|].
  rewrite <- Ed in *. cbv zeta.
  set (analog := map (fun w => Z.shiftr w 1) data).
  set (digital := map (fun w => Z.land w 1) data).
  assert (Hmin : Nat.min (Nat.min (length (stride 2 analog)) (length (stride 2 (tl analog))))
                         (Nat.min (length (stride 2 digital)) (length (stride 2 (tl digital))))
                 = m).
  { rewrite !length_stride, !length_tl by lia. unfold analog, digital.
    rewrite !length_map, Hc1, Hc2, <- Hm. lia. }
  rewrite Hmin.
  assert (Hnz : Nat.eqb m 0 = false) by (apply Nat.eqb_neq; lia).
  rewrite Hnz, Hrate.
  apply Nat.leb_le in Hvolts as Hv. rewrite Hv.
  assert (Hf0 : Z.eqb factor 0 = false) by (apply Z.eqb_neq; lia).
  rewrite Hf0.
  eexists. split; [reflexivity|].
  cbn [time_raw analog_1_raw analog_2_raw digital1 digital2 dff drift samples].
  assert (Hlen1 : forall l : list Z, (m <= length l)%nat -> length (firstn m l) = m).
  { intros l H. rewrite length_firstn. lia. }
  assert (La : (m <= length (stride 2 analog))%nat).
  { rewrite length_stride by lia. unfold analog. rewrite length_map, Hc1. lia. }
  assert (La2 : (m <= length (stride 2 (tl analog)))%nat).
  { rewrite length_stride, length_tl by lia. unfold analog. rewrite length_map, Hc2. lia. }
  assert (Ld : (m <= length (stride 2 digital))%nat).
  { rewrite length_stride by lia. unfold digital. rewrite length_map, Hc1. lia. }
  assert (Ld2 : (m <= length (stride 2 (tl digital)))%nat).
  { rewrite length_stride, length_tl by lia. unfold digital. rewrite length_map, Hc2. lia. }
  split.
  - rewrite !length_decimate by exact Hfactor.
    rewrite !length_map, length_seq, !Hlen1 by assumption.
    fold step. repeat split; try reflexivity.
    + unfold float_dff. rewrite length_zip_with_same.
      * rewrite length_decimate, length_map, Hlen1 by assumption. reflexivity.
      * unfold float_baseline. now rewrite length_map, length_seq.
    + unfold float_baseline. rewrite length_map, length_seq.
      rewrite length_decimate, length_map, Hlen1 by assumption. reflexivity.
  - intros.
    match goal with H : (_ < ceil_div m step)%nat |- _ => rename H into Hi end.
    set (w1 := word_at b (2 * (i * step))).
    set (w2 := word_at b (2 * (i * step) + 1)).
    pose proof (below_ceil_div m step i Hstep Hi) as Hlt.
    assert (Hw1 : nth_error data (2 * (i * step)) = Some w1).
    { apply Hn. lia. }
    assert (Hw2 : nth_error data (2 * (i * step) + 1) = Some w2).
    { apply Hn. lia. }
    assert (Hshift : forall w, Z.shiftr w 1 = (w / 2)%Z).
    { intros w. now rewrite Z.shiftr_div_pow2 by lia. }
    assert (Hland : forall w, Z.land w 1 = (w mod 2)%Z).
    { intros w. change 1%Z with (Z.ones 1). now rewrite Z.land_ones by lia. }
    rewrite !nth_error_decimate by exact Hfactor. fold step.
    rewrite !nth_error_map, !nth_error_firstn.
    apply Nat.ltb_lt in Hlt as Hb. rewrite Hb.
    rewrite !nth_error_stride, !nth_error_tl by lia.
    unfold analog, digital. rewrite !nth_error_map.
    replace (i * step * 2)%nat with (2 * (i * step))%nat by lia.
    replace (S (2 * (i * step))) with (2 * (i * step) + 1)%nat by lia.
    rewrite Hw1, Hw2. cbn [option_map]. rewrite !Hshift, !Hland.
    pose proof (word_at_range b (2 * (i * step))) as R1.
    pose proof (word_at_range b (2 * (i * step) + 1)) as R2.
    fold w1 in R1. fold w2 in R2.
    repeat split; try reflexivity;
      try (apply Z.div_pos; lia); try (apply Z.div_lt_upper_bound; lia).
    rewrite (nth_error_nth' (seq 0 m) 0%nat) by (rewrite length_seq; exact Hlt).
    rewrite seq_nth by exact Hlt. reflexivity.
Qed.

Lemma X21_witness :
  let b := ["005"; "000"; "007"; "000"; "009"; "000"; "011"; "000"]%byte in
  let h := {| sampling_rate := Some (Some (Rate 1000)); volts_per_division := None |} in
  exists r,
    parse_ppd_data (Some b) (Some h) 1 = Some r /\
    nth_error (samples (analog_1_raw r)) 1
    = Some (inject_Z (word_at b 2 / 2) * nth 0 (volts h) 0) /\
    nth_error (digital2 r) 1 = Some (word_at b 3 mod 2)%Z.
Proof.
  cbv zeta.
  destruct (X21_recording_is_decoded_sample_by_sample
              ["005"; "000"; "007"; "000"; "009"; "000"; "011"; "000"]%byte
              {| sampling_rate := Some (Some (Rate 1000)); volts_per_division := None |}
              1 1000 eq_refl ltac:(simpl; lia) eq_refl ltac:(simpl; lia) ltac:(lia))
    as (r & E & _ & H).
  exists r. split; [exact E|].
  destruct (H 1%nat ltac:(vm_compute; lia)) as (_ & H1 & _ & _ & H2 & _).
  split; [exact H1|exact H2].
Defined.

Lemma validated_range (entry : option (option rate)) (sr : Q) :
  validated entry = Some sr -> 0 < sr /\ sr <= 100000.
Proof.
  unfold validated.
  destruct entry as [[[q| |p]|]|];
    try (intros [= <-]; split; [reflexivity|discriminate]); try discriminate.
  destruct (Qle_bool q 0) eqn:E0; [intros [= <-]; split; [reflexivity|discriminate]|].
  destruct (Qltb 100000 q) eqn:E1; [intros [= <-]; split; [reflexivity|discriminate]|].
  intros [= <-]. split.
  - apply Qltb_lt. unfold Qltb. now rewrite E0.
  - now apply Qltb_ge.
Qed.

(** The time axis of whatever [parse_ppd_data] returns. *)
Lemma parsed_time_axis (b : option (list Byte.byte)) (h : option header)
    (factor : Z) (r : parsed) :
  parse_ppd_data b h factor = Some r ->
  exists (m : nat),
    time_raw r = decimate factor (map (fun i => of_nat i / fs_original r) (seq 0 m)) /\
    fs r = fs_original r / inject_Z factor /\
    (exists hd, h = Some hd /\ validated (sampling_rate hd) = Some (fs_original r)) /\
    downsample_factor r = factor.
Proof.
  unfold parse_ppd_data.
  destruct h as [hd|]; [|discriminate].
  destruct b as [[|x0 b0]|]; try discriminate.
  destruct (frombuffer _) as [[|w data]|]; try discriminate.
  cbv zeta. destruct (Nat.eqb _ 0); [discriminate|].
  destruct (validated (sampling_rate hd)) as [sr|] eqn:Hsr; [|discriminate].
  destruct (Z.eqb factor 0); [discriminate|].
  destruct (Nat.leb 2 _).
  - intros [= <-]. cbn. eexists. repeat split. exists hd. auto.
  - intros [= <-]. cbn. eexists. repeat split. exists hd. auto.
Qed.

(** X22.  In what [parse_ppd_data] returns for a downsample factor
    [k >= 1], the original sample rate lies in (0, 100000] Hz, the effective
    rate ['fs'] is that rate over [k], and the time axis agrees with it:
    consecutive times are one sample period [1 / fs] apart, starting
    at 0. *)
Theorem X22_time_axis_matches_sample_rate :
  forall (b : option (list Byte.byte)) (h : option header) (factor : Z) (r : parsed),
    parse_ppd_data b h factor = Some r ->
    (1 <= factor)%Z ->
    (0 < fs_original r /\ fs_original r <= 100000) /\
    fs r == fs_original r / inject_Z factor /\
    forall i t,
      nth_error (time_raw r) i = Some t -> t * fs r == of_nat i.
Proof.
  intros b h factor r Hr Hfactor.
  destruct (parsed_time_axis b h factor r Hr) as (m & Ht & Hfs & (hd & _ & Hv) & _).
  pose proof (validated_range _ _ Hv) as [Hpos Hmax].
  split; [split; assumption|]. split; [now rewrite Hfs|].
  intros i t Hi. rewrite Ht, nth_error_decimate, nth_error_map in Hi by exact Hfactor.
  destruct (nth_error (seq 0 m) _) as [v|] eqn:Hv'; [|discriminate].
  apply nth_error_seq_Some in Hv'. destruct Hv' as [_ ->].
  injection Hi as <-. rewrite Hfs. simpl.
  assert (Hk : of_nat (i * Z.to_nat factor) == of_nat i * inject_Z factor).
  { unfold of_nat. rewrite <- inject_Z_mult, Nat2Z.inj_mul, Z2Nat.id by lia.
    reflexivity. }
  rewrite Hk. field. split.
  - intros E. unfold Qeq in E. simpl in E. lia.
  - intros E. rewrite E in Hpos. discriminate.
Qed.

Lemma X22_witness :
  exists r,
    parse_ppd_data
      (Some ["005"; "000"; "007"; "000"; "009"; "000"; "011"; "000"]%byte)
      (Some {| sampling_rate := Some (Some (Rate 500)); volts_per_division := None |})
      1 = Some r /\
    fs r == fs_original r / inject_Z 1 /\
    forall i t, nth_error (time_raw r) i = Some t -> t * fs r == of_nat i.
Proof.
  eexists. split; [reflexivity|].
  apply (X22_time_axis_matches_sample_rate
           (Some ["005"; "000"; "007"; "000"; "009"; "000"; "011"; "000"]%byte)
           (Some {| sampling_rate := Some (Some (Rate 500)); volts_per_division := None |})
           1); [reflexivity|lia].
Defined.

End RecordingFacts.

(** ** The range of the Pearson coefficient *)

Section PearsonBound.
Import Correlation.
Local Open Scope R_scope.

(** X24.  The coefficient the Pearson analysis reports, when it is a number,
    lies between -1 and 1, whatever the two selected signals and however
    the floating-point operations round. *)
Theorem X24_pearson_bounded :
  forall (ops : Float64) (selection1 selection2 : option trace) (r : R),
    calculate_pearson_correlation selection1 selection2 = pearson_reported (Some r) ->
    -1 <= r <= 1.
Proof.
  intros ops [t1|] [t2|] r; try discriminate.
  unfold calculate_pearson_correlation.
  destruct (on_common_grid t1 t2) as [[[common_time s1] s2]|]; [|discriminate].
  intros [= H]. now apply corrcoef_range in H.
Qed.

Lemma X24_witness :
  calculate_pearson_correlation (ops := unrounded)
    (Some ([0; 1], [0; 1])) (Some ([0; 1], [0; 1]))
  = pearson_reported (Some 1) /\ -1 <= 1 <= 1.
Proof.
  assert (Hgrid : interp (ops := unrounded)
                    (linspace (ops := unrounded) 0 (last [0; 1] 0) (length [0; 1]))
                    [0; 1] [0; 1] = Some [0; 1]).
  { change (length [0; 1]) with 2%nat. change (last [0; 1] 0) with 1.
    rewrite linspace_pair. exact resampled_ramp. }
  assert (E : calculate_pearson_correlation (ops := unrounded)
                (Some ([0; 1], [0; 1])) (Some ([0; 1], [0; 1]))
              = pearson_reported (Some 1)).
  { unfold calculate_pearson_correlation.
    rewrite (on_common_grid_self [0; 1] [0; 1] [0; 1] 0 [1] eq_refl Hgrid).
    rewrite corrcoef_self; [reflexivity|].
    intros [c Hc]. inversion Hc as [|? ? H1 Hc']; subst.
    inversion Hc' as [|? ? H2 _]; subst. lra. }
  split; [exact E|].
  apply (X24_pearson_bounded unrounded
           (Some ([0; 1], [0; 1])) (Some ([0; 1], [0; 1])) 1).
  exact E.
Defined.

End PearsonBound.

(** ** Denoising what the pipeline returns *)

Section DenoisingAfterPipeline.
Import Numpy SignalProcessing Denoising.
Local Open Scope Q_scope.
Context {lib : SciPy}.

Lemma In_stride {A} (k : nat) (l : list A) (x : A) :
  (1 <= k)%nat -> In x (stride k l) -> In x l.
Proof.
  intros Hk H. apply In_nth_error in H. destruct H as [i Hi].
  rewrite nth_error_stride in Hi by exact Hk. eapply nth_error_In, Hi.
Qed.

Lemma any_all_false (mask : list bool) :
  (forall b, In b mask -> b = false) -> any mask = false.
Proof.
  intros H. unfold any. destruct (existsb (fun b => b) mask) eqn:E; [|reflexivity].
  apply existsb_exists in E. destruct E as [b [Hin Hb]].
  rewrite (H b Hin) in Hb. discriminate.
Qed.

Lemma factor_of_pos (cfg : config) : (1 <= factor_of cfg)%nat.
Proof. unfold factor_of. lia. Qed.

(** X25.  Data processed without a control channel has no sample flagged, so
    [run_advanced_denoising] leaves it exactly as the pipeline returned
    it. *)
Theorem X25_denoising_without_control_changes_nothing :
  forall (rt : Runtime) (time_raw : list Q) (signal_raw : option (list float64))
         (fs : Q) (cfg : config) (aggressive : bool) (out : arrays),
    process_data_pipeline rt time_raw signal_raw None fs cfg = Some out ->
    any (artifact_mask out) = false /\
    run_advanced_denoising aggressive (Some out) None = Some (Some out, None).
Proof.
  intros rt time_raw signal_raw fs cfg aggressive out Hrun.
  unfold process_data_pipeline in Hrun.
  destruct (rejected signal_raw fs cfg); [discriminate|].
  destruct signal_raw as [signal|]; [|discriminate].
  injection Hrun as <-.
  assert (Hmask : any (artifact_mask
                         (downsample (factor_of cfg)
                            (full_length rt time_raw signal None fs cfg))) = false).
  { apply any_all_false. intros b Hb. unfold downsample in Hb. cbn [artifact_mask] in Hb.
    apply In_stride in Hb; [|apply factor_of_pos].
    unfold full_length in Hb. cbn [option_map] in Hb.
    destruct (filtering _ _ _ _ _) as [fsig fctl].
    destruct (drift_removal _ _) as [det dc]. cbn [artifact_mask] in Hb.
    unfold zeros_like_bool in Hb. apply in_map_iff in Hb.
    destruct Hb as [x [Hx _]]. now symmetry. }
  split; [exact Hmask|].
  unfold run_advanced_denoising, denoise_data, advanced_denoise_signal.
  rewrite Hmask. cbn [negb].
  now destruct (downsample _ _).
Qed.

End DenoisingAfterPipeline.

Section DenoisingOnSamples.
Import Numpy SignalProcessing Denoising.
Local Open Scope Q_scope.

Lemma X25_witness :
  exists out,
    process_data_pipeline (lib := Reference.exact) Reference.cpu_only
      Samples.five_times (Some Samples.five_samples) None 100 Samples.by_two = Some out /\
    run_advanced_denoising (lib := Reference.exact) true (Some out) None
    = Some (Some out, None).
Proof.
  eexists. split; [reflexivity|].
  apply (X25_denoising_without_control_changes_nothing (lib := Reference.exact)
           Reference.cpu_only Samples.five_times (Some Samples.five_samples)
           100 Samples.by_two true).
  reflexivity.
Defined.

End DenoisingOnSamples.

(* ------------------------------------------------------------------------- *)
(** ** The lag the cross-correlation analysis reports *)

Section CrossCorrelationLag.
Import Correlation.
Local Open Scope R_scope.

(** Every lag of the window is a whole number of grid steps, at most
    [max_lag_samples] on either side. *)
Lemma lag_window_lags {ops : Float64} (c0 c1 : R) (rest s1 s2 : list R)
    (max_lag : R) (lags : list R) (values : list result) :
  lag_window (c0 :: c1 :: rest) s1 s2 max_lag = Some (lags, values) ->
  forall lag, In lag lags ->
    exists k : Z,
      (- py_int (fdiv max_lag (fsub c1 c0)) <= k
       <= py_int (fdiv max_lag (fsub c1 c0)))%Z /\
      lag = lag_time k (fsub c1 c0).
Proof.
  unfold lag_window.
  destruct (Req_dec_T (fsub c1 c0) 0) as [|Hdt]; [discriminate|].
  set (cc := map _ (correlate_full s1 s2)).
  set (mls := py_int (fdiv max_lag (fsub c1 c0))).
  set (center := (Z.of_nat (length cc) / 2)%Z).
  set (ls := Z.max 0 (center - mls)).
  set (le := Z.min (Z.of_nat (length cc)) (center + mls + 1)).
  intros [= <- _] lag Hin.
  apply in_map_iff in Hin. destruct Hin as (i & <- & Hi).
  apply in_seq in Hi.
  exists (ls - center + Z.of_nat i)%Z. split; [|reflexivity].
  unfold ls, le in *. lia.
Qed.

(** X27.  The lag the cross-correlation analysis reports is a whole number
    [k] of steps of the common grid, [k * dt] with [dt] the difference of the
    grid's first two times, and [k] is at most [int(max_lag / dt)] in
    magnitude, however the floating-point operations round. *)
Theorem X27_reported_lag_in_window :
  forall (ops : Float64) (t1 t2 : trace) (max_lag lag : R) (corr : result),
    calculate_cross_correlation (Some t1) (Some t2) max_lag
    = cross_reported lag corr ->
    exists (c0 c1 : R) (rest s1 s2 : list R) (k : Z),
      on_common_grid t1 t2 = Some (c0 :: c1 :: rest, s1, s2) /\
      (- py_int (fdiv max_lag (fsub c1 c0)) <= k
       <= py_int (fdiv max_lag (fsub c1 c0)))%Z /\
      lag = lag_time k (fsub c1 c0).
Proof.
  intros ops t1 t2 max_lag lag corr.
  rewrite calculate_cross_correlation_unfold.
  destruct (on_common_grid t1 t2) as [[[common_time s1] s2]|]; [|discriminate].
  destruct (lag_window common_time s1 s2 max_lag) as [[lags values]|] eqn:Hw;
    [|discriminate].
  assert (Hgrid : exists c0 c1 rest, common_time = c0 :: c1 :: rest).
  { unfold lag_window in Hw. destruct common_time as [|c0 [|c1 rest]];
      try discriminate. eauto. }
  destruct Hgrid as (c0 & c1 & rest & ->).
  cbn [peak_of].
  destruct (argmax _) as [peak_idx|]; [|discriminate].
  destruct (nth_error lags peak_idx) as [peak_lag|] eqn:Hlag; [|discriminate].
  destruct (nth_error values peak_idx) as [peak_corr|]; [|discriminate].
  intros [= <- _].
  destruct (lag_window_lags c0 c1 rest s1 s2 max_lag lags values Hw peak_lag)
    as (k & Hk & E).
  - eapply nth_error_In. exact Hlag.
  - exists c0, c1, rest, s1, s2, k. split; [reflexivity|]. split; assumption.
Qed.

Lemma X27_witness :
  calculate_cross_correlation (ops := unrounded)
    (Some ([0; 1], [0; 1])) (Some ([0; 1], [0; 1])) 1
  = cross_reported 0 (number 1) /\
  exists (c0 c1 : R) (rest s1 s2 : list R) (k : Z),
    on_common_grid (ops := unrounded) ([0; 1], [0; 1]) ([0; 1], [0; 1])
    = Some (c0 :: c1 :: rest, s1, s2) /\
    (- py_int (@fdiv unrounded 1 (@fsub unrounded c1 c0)) <= k
     <= py_int (@fdiv unrounded 1 (@fsub unrounded c1 c0)))%Z /\
    0 = lag_time (ops := unrounded) k (@fsub unrounded c1 c0).
Proof.
  assert (Hgrid : interp (ops := unrounded)
                    (linspace (ops := unrounded) 0 (last [0; 1] 0) (length [0; 1]))
                    [0; 1] [0; 1] = Some [0; 1]).
  { change (length [0; 1]) with 2%nat. change (last [0; 1] 0) with 1.
    rewrite linspace_pair. exact resampled_ramp. }
  assert (E : calculate_cross_correlation (ops := unrounded)
                (Some ([0; 1], [0; 1])) (Some ([0; 1], [0; 1])) 1
              = cross_reported 0 (number 1)).
  { rewrite calculate_cross_correlation_unfold.
    rewrite (on_common_grid_self [0; 1] [0; 1] [0; 1] 0 [1] eq_refl Hgrid).
    change (length [0; 1]) with 2%nat. change (last [0; 1] 0) with 1.
    rewrite linspace_pair.
    apply cross_self_unrounded; [lra|lra|].
    intros Hall. inversion Hall as [|? ? _ Hrest]; subst.
    inversion Hrest as [|? ? H1 _]; subst. lra. }
  split; [exact E|].
  apply (X27_reported_lag_in_window unrounded
           ([0; 1], [0; 1]) ([0; 1], [0; 1]) 1 0 (number 1)).
  exact E.
Defined.

End CrossCorrelationLag.


(* ------------------------------------------------------------------------- *)
(** ** Zooming on loaded data *)

Section ZoomOnData.
Import Numpy Zoom.
Local Open Scope Q_scope.

Lemma np_min_max_spec (x : Q) (r : list Q) :
  Forall (fun v => 0 <= v) (x :: r) -> Exists (fun v => 0 < v) (x :: r) ->
  0 <= Psth.np_min (x :: r) /\ Psth.np_min (x :: r) <= Psth.np_max (x :: r) /\
  0 < Psth.np_max (x :: r).
Proof.
  intros Hall Hex. unfold Psth.np_min, Psth.np_max.
  destruct (fold_Qmin_spec r x) as [Hmin [y [Hy Ey]]].
  destruct (fold_Qmax_spec r x) as [Hmax _].
  rewrite Forall_forall in Hall. apply Exists_exists in Hex.
  destruct Hex as [z [Hz Hpos]].
  repeat split.
  - rewrite Ey. now apply Hall.
  - apply Qle_trans with x; [apply Hmin|apply Hmax]; now left.
  - apply Qlt_le_trans with z; [exact Hpos|now apply Hmax].
Qed.

Lemma py_max_bounds (a b : Q) : a <= py_max a b.
Proof.
  unfold py_max. destruct (Qltb a b) eqn:E; [|apply Qle_refl].
  apply Qltb_lt in E. now apply Qlt_le_weak.
Qed.

(** The bounds of loaded data are ones the zoom can work with. *)
Lemma get_data_bounds_usable (primary_time secondary_time : option (list Q))
    (max_scale : option Q) :
  match primary_time with
  | Some (x :: r) =>
      Forall (fun v => 0 <= v) (x :: r) /\ Exists (fun v => 0 < v) (x :: r)
  | _ => True
  end ->
  match max_scale with Some s => 0 < s | None => True end ->
  let b := get_data_bounds primary_time secondary_time max_scale in
  (0 < x_max b /\ 0 <= x_min b /\ x_min b <= x_max b) /\
  (0 < y_max b /\ - (7) * y_max b <= y_min b /\ y_min b <= y_max b).
Proof.
  intros Hp Hs. cbv zeta. unfold get_data_bounds.
  set (x0 := match primary_time with
             | Some ((_ :: _) as time_data) =>
                 (Psth.np_min time_data, Psth.np_max time_data)
             | _ => (0, 100)
             end).
  assert (Hx0 : 0 <= fst x0 /\ fst x0 <= snd x0 /\ 0 < snd x0).
  { unfold x0. destruct primary_time as [[|x r]|].
    - cbn [fst snd]. split; [discriminate|split; [discriminate|reflexivity]].
    - cbn [fst snd]. destruct Hp as [Hall Hex]. now apply np_min_max_spec.
    - cbn [fst snd]. split; [discriminate|split; [discriminate|reflexivity]]. }
  destruct x0 as [x_min0 x_max0]. cbn [fst snd] in Hx0.
  destruct Hx0 as (H0 & H1 & H2).
  set (x_max1 := match secondary_time with
                 | Some ((_ :: _) as time_data) =>
                     py_max x_max0 (Psth.np_max time_data)
                 | _ => x_max0
                 end).
  assert (Hx1 : x_max0 <= x_max1).
  { unfold x_max1. destruct secondary_time as [[|y r]|];
      [apply Qle_refl|apply py_max_bounds|apply Qle_refl]. }
  destruct max_scale as [s|]; cbn [x_min x_max y_min y_max].
  - repeat split; lra.
  - repeat split; try lra; try reflexivity; discriminate.
Qed.

(** X28.  With the bounds [get_data_bounds] computes, a scroll keeps the
    zoom within limits: when the primary time axis, if loaded, has no
    negative time and some time after 0, and the plot scale, if set, is
    positive, the upper bound of the scrolled axis is positive and the new
    limits span at least a thousandth and at most ten times that bound. *)
Theorem X28_zoom_on_loaded_data_within_limits :
  forall (inaxes ctrl_pressed up : bool) (xdata ydata : Q)
         (cur_xlim cur_ylim : Q * Q)
         (primary_time secondary_time : option (list Q)) (max_scale : option Q)
         (ax : axis) (lim : Q * Q),
    match primary_time with
    | Some (x :: r) =>
        Forall (fun v => 0 <= v) (x :: r) /\ Exists (fun v => 0 < v) (x :: r)
    | _ => True
    end ->
    match max_scale with Some s => 0 < s | None => True end ->
    let b := get_data_bounds primary_time secondary_time max_scale in
    on_scroll inaxes ctrl_pressed up xdata ydata cur_xlim cur_ylim b
    = Some (ax, lim) ->
    let top := match ax with x_axis => x_max b | y_axis => y_max b end in
    0 < top /\ top * 0.001 <= width lim <= top * 10.
Proof.
  intros inaxes ctrl_pressed up xdata ydata cur_xlim cur_ylim
         primary_time secondary_time max_scale ax lim Hp Hs.
  destruct (get_data_bounds_usable primary_time secondary_time max_scale Hp Hs)
    as [(X1 & X2 & X3) (Y1 & Y2 & Y3)].
  cbv zeta. unfold on_scroll. destruct inaxes; [|discriminate]. cbn [negb].
  destruct ctrl_pressed; intros [= <- <-].
  - split; [exact Y1|]. now apply new_lim_width.
  - split; [exact X1|]. apply new_lim_width; [exact X1| |exact X3].
    apply Qle_trans with 0; [|exact X2]. lra.
Qed.

Lemma X28_witness :
  exists lim,
    on_scroll true false true 1 0 (0, 2) (-50, 50)
              (get_data_bounds (Some [0; 1; 2]) None (Some 20))
    = Some (x_axis, lim) /\
    0 < x_max (get_data_bounds (Some [0; 1; 2]) None (Some 20)) /\
    x_max (get_data_bounds (Some [0; 1; 2]) None (Some 20)) * 0.001 <= width lim
    <= x_max (get_data_bounds (Some [0; 1; 2]) None (Some 20)) * 10.
Proof.
  eexists. split; [reflexivity|].
  apply (X28_zoom_on_loaded_data_within_limits true false true 1 0 (0, 2) (-50, 50)
           (Some [0; 1; 2]) None (Some 20) x_axis).
  - split.
    + repeat constructor; discriminate.
    + apply Exists_cons_tl, Exists_cons_hd. reflexivity.
  - reflexivity.
  - reflexivity.
Defined.

End ZoomOnData.
